(** * kv_engine: a shallow embedding of the storage-engine core

    The development follows the layout of the repository:

    - [EngineError]   : the ENGINE_ERROR_CODE enumeration used by every entry point;
    - [Connection]    : daemon/connection.cc ([remapErrorCode], [addCpuTime], [prepare]);
    - [VBucketState]  : engines/ep/src/vbucket_state.cc ([needsToBePersisted]);
    - [Collections]   : engines/ep/src/collections/manager.cc ([update], [updateAllVBuckets]);
    - [KVBucket]      : engines/ep/src/kv_bucket.cc (client-write admission, [setVBucketState_UNLOCKED]);
    - [DurabilityMonitor] : the per-partition tracker of synchronous writes.

    Integers of the C++ code are [Z]; a fixed width is written out where the
    code depends on it ([narrow], [wrap_i64]).  Mutable objects become records
    threaded through the functions; a function that can leave early or throw
    returns a sum. *)

From Stdlib Require Import ZArith List String Bool Lia.
From stdpp Require Import base list strings.
Import ListNotations.

Local Open Scope Z_scope.

(* ===================================================================== *)
(** * ENGINE_ERROR_CODE *)
(* ===================================================================== *)

Module EngineError.

(** The enumerators named by the switch of [Connection::remapErrorCode]. *)
Inductive ENGINE_ERROR_CODE : Type :=
| ENGINE_SUCCESS
| ENGINE_KEY_ENOENT
| ENGINE_KEY_EEXISTS
| ENGINE_ENOMEM
| ENGINE_NOT_STORED
| ENGINE_EINVAL
| ENGINE_ENOTSUP
| ENGINE_EWOULDBLOCK
| ENGINE_E2BIG
| ENGINE_DISCONNECT
| ENGINE_NOT_MY_VBUCKET
| ENGINE_TMPFAIL
| ENGINE_ERANGE
| ENGINE_ROLLBACK
| ENGINE_EBUSY
| ENGINE_DELTA_BADVAL
| ENGINE_PREDICATE_FAILED
| ENGINE_FAILED
| ENGINE_LOCKED
| ENGINE_LOCKED_TMPFAIL
| ENGINE_UNKNOWN_COLLECTION
| ENGINE_COLLECTIONS_MANIFEST_IS_AHEAD
| ENGINE_EACCESS
| ENGINE_NO_BUCKET
| ENGINE_AUTH_STALE
| ENGINE_DURABILITY_IMPOSSIBLE
| ENGINE_SYNC_WRITE_IN_PROGRESS
| ENGINE_SYNC_WRITE_AMBIGUOUS
| ENGINE_DCP_STREAMID_INVALID.

#[global] Instance ENGINE_ERROR_CODE_eq_dec : EqDecision ENGINE_ERROR_CODE.
Proof. solve_decision. Defined.

(** The codes of the "whitelist" block of the switch (the first 18 case
    labels, which share one [return code;]). *)
Definition whitelist : list ENGINE_ERROR_CODE :=
  [ ENGINE_SUCCESS; ENGINE_KEY_ENOENT; ENGINE_KEY_EEXISTS; ENGINE_ENOMEM;
    ENGINE_NOT_STORED; ENGINE_EINVAL; ENGINE_ENOTSUP; ENGINE_EWOULDBLOCK;
    ENGINE_E2BIG; ENGINE_DISCONNECT; ENGINE_NOT_MY_VBUCKET; ENGINE_TMPFAIL;
    ENGINE_ERANGE; ENGINE_ROLLBACK; ENGINE_EBUSY; ENGINE_DELTA_BADVAL;
    ENGINE_PREDICATE_FAILED; ENGINE_FAILED ].

End EngineError.
Export EngineError.

(* ===================================================================== *)
(** * Connection (daemon/connection.cc) *)
(* ===================================================================== *)

Module Connection.

(** [gsl::narrow<T>(x)] for an unsigned [w]-bit target: the value when the
    cast round-trips, a [narrowing_error] otherwise. *)
Definition narrow (w : Z) (x : Z) : option Z :=
  if (x mod 2 ^ w =? x) then Some x else None.

(** Two's-complement wrap of a signed 64-bit count
    ([std::chrono::nanoseconds::rep]). *)
Definition wrap_i64 (x : Z) : Z := (x + 2 ^ 63) mod 2 ^ 64 - 2 ^ 63.

(** One entry of the scatter/gather list filled by [addIov]. *)
Inductive IovSource : Type :=
| IovPipe        (* bytes that live in the write pipe *)
| IovKey         (* the key of a reserved item *)
| IovValue.      (* the value of a reserved item *)

Record iovec : Type := { iov_src : IovSource; iov_len : Z }.

Inductive DocumentState : Type := Alive | Deleted.

(** [cb::durability::Requirements]: level and timeout, copied verbatim into
    the extras. *)
Record Requirements : Type := { level : Z; timeout : Z }.

(** The fixed header and the DcpPreparePayload extras that [prepare]
    copies into the write pipe. *)
Record Frame : Type := {
  f_extlen   : Z;
  f_keylen   : Z;
  f_bodylen  : Z;
  f_opaque   : Z;
  f_vbucket  : Z;
  f_cas      : Z;
  f_datatype : Z;
  x_by_seqno   : Z;
  x_rev_seqno  : Z;
  x_flags      : Z;
  x_expiration : Z;
  x_lock_time  : Z;
  x_nru        : Z;
  x_deleted    : Z;
  x_durability : Requirements
}.

(** The members of [Connection] read or written by the three functions. *)
Record t : Type := {
  xerror_support      : bool;
  collections_support : bool;       (* isCollectionsSupported() *)
  total_cpu_time      : Z;          (* nanoseconds *)
  min_sched_time      : Z;
  max_sched_time      : Z;
  write_avail         : Z;          (* write->wsize(): free bytes of the pipe *)
  write_data          : list Frame; (* headers produced into the pipe *)
  iov                 : list iovec; (* msglist, flattened *)
  msgbytes            : Z;
  reservedItems       : list nat
}.

Definition isCollectionsSupported (c : t) : bool := collections_support c.

(** ** remapErrorCode *)

Definition remapErrorCode (c : t) (code : ENGINE_ERROR_CODE) : ENGINE_ERROR_CODE :=
  if xerror_support c then code
  else
    match code with
    | ENGINE_SUCCESS | ENGINE_KEY_ENOENT | ENGINE_KEY_EEXISTS | ENGINE_ENOMEM
    | ENGINE_NOT_STORED | ENGINE_EINVAL | ENGINE_ENOTSUP | ENGINE_EWOULDBLOCK
    | ENGINE_E2BIG | ENGINE_DISCONNECT | ENGINE_NOT_MY_VBUCKET | ENGINE_TMPFAIL
    | ENGINE_ERANGE | ENGINE_ROLLBACK | ENGINE_EBUSY | ENGINE_DELTA_BADVAL
    | ENGINE_PREDICATE_FAILED | ENGINE_FAILED => code
    | ENGINE_LOCKED => ENGINE_KEY_EEXISTS
    | ENGINE_LOCKED_TMPFAIL => ENGINE_TMPFAIL
    | ENGINE_UNKNOWN_COLLECTION | ENGINE_COLLECTIONS_MANIFEST_IS_AHEAD =>
        if isCollectionsSupported c then code else ENGINE_EINVAL
    | ENGINE_SYNC_WRITE_IN_PROGRESS => ENGINE_TMPFAIL
(* the remaining labels [break] out of the switch: log and disconnect *)
| ENGINE_EACCESS | ENGINE_NO_BUCKET | ENGINE_AUTH_STALE
| ENGINE_DURABILITY_IMPOSSIBLE | ENGINE_SYNC_WRITE_AMBIGUOUS
| ENGINE_DCP_STREAMID_INVALID => ENGINE_DISCONNECT
end.

(** ** addCpuTime *)

Definition set_sched (c : t) (total mn mx : Z) : t :=
  {| xerror_support := xerror_support c;
     collections_support := collections_support c;
     total_cpu_time := total;
     min_sched_time := mn;
     max_sched_time := mx;
     write_avail := write_avail c;
     write_data := write_data c;
     iov := iov c;
     msgbytes := msgbytes c;
     reservedItems := reservedItems c |}.

(** The three assignments in program order; the third reads the
    [min_sched_time] written by the second. *)
Definition addCpuTime (c : t) (ns : Z) : t :=
  let c1 := set_sched c (wrap_i64 (total_cpu_time c + ns))
                        (min_sched_time c) (max_sched_time c) in
  let c2 := set_sched c1 (total_cpu_time c1)
                         (Z.min (min_sched_time c1) ns) (max_sched_time c1) in
  set_sched c2 (total_cpu_time c2)
               (min_sched_time c2) (Z.max (min_sched_time c2) ns).

(** ** prepare *)

(** What [bucket_get_item_info] fills in. *)
Record item_info : Type := {
  info_key       : list Byte.byte;
  info_value_len : Z;               (* info.value[0].iov_len *)
  info_flags     : Z;
  info_exptime   : Z;
  info_cas       : Z;
  info_datatype  : Z
}.

(** The [return] statements of [prepare], in source order. *)
Inductive ReturnSite : Type :=
| RetItemInfoFailed      (* return ENGINE_FAILED;  (no item info) *)
| RetReserveFailed       (* return ENGINE_FAILED;  (reserveItem)  *)
| RetRet                 (* return ret;                            *)
| RetTrailing.           (* return ENGINE_ENOTSUP;                 *)

(** How a call leaves the function. *)
Inductive exit : Type :=
| Returned (site : ReturnSite) (code : ENGINE_ERROR_CODE)
| Threw.                 (* gsl::narrowing_error *)

(** Statements run on the connection and either fall through with a value
    or leave the function. *)
Definition M (A : Type) : Type := t -> t * (A + exit).

#[export] Instance M_ret : MRet M := fun A a c => (c, inl a).

#[export] Instance M_bind : MBind M := fun A B k m c =>
  match m c with
  | (c', inl a) => k a c'
  | (c', inr e) => (c', inr e)
  end.

Definition gets {A} (f : t -> A) : M A := fun c => (c, inl (f c)).

Definition return_ {A} (site : ReturnSite) (code : ENGINE_ERROR_CODE) : M A :=
  fun c => (c, inr (Returned site code)).

Definition narrowM (w x : Z) : M Z :=
  fun c => match narrow w x with
           | Some v => (c, inl v)
           | None => (c, inr Threw)
           end.

Definition when_ (b : bool) (m : M unit) : M unit :=
  if b then m else mret tt.

Definition with_iov (c : t) (v : list iovec) (bytes : Z) : t :=
  {| xerror_support := xerror_support c;
     collections_support := collections_support c;
     total_cpu_time := total_cpu_time c;
     min_sched_time := min_sched_time c;
     max_sched_time := max_sched_time c;
     write_avail := write_avail c;
     write_data := write_data c;
     iov := v;
     msgbytes := bytes;
     reservedItems := reservedItems c |}.

Definition with_pipe (c : t) (avail : Z) (data : list Frame) : t :=
  {| xerror_support := xerror_support c;
     collections_support := collections_support c;
     total_cpu_time := total_cpu_time c;
     min_sched_time := min_sched_time c;
     max_sched_time := max_sched_time c;
     write_avail := avail;
     write_data := data;
     iov := iov c;
     msgbytes := msgbytes c;
     reservedItems := reservedItems c |}.

(** [addIov(buf, len)]: an empty buffer is ignored, otherwise one more
    iovec is used and [msgbytes] grows (the msghdr bookkeeping that splits
    the list every IOV_MAX entries is not represented). *)
Definition addIov (src : IovSource) (len : Z) : M unit :=
  fun c =>
    if len =? 0 then (c, inl tt)
    else (with_iov c (iov c ++ [ {| iov_src := src; iov_len := len |} ])
                     (msgbytes c + len), inl tt).

(** [write->produce(f)]: [f] sees the free region of the pipe, writes into
    it and returns how many bytes it wrote; the write head moves by that
    much.  [f] also hands back the locals it captured by reference. *)
Definition produce {A} (f : Z -> M (Z * list Frame * A)) : M A :=
  fun c =>
    match f (write_avail c) c with
    | (c', inl (n, frames, a)) =>
        (with_pipe c' (write_avail c' - n) (write_data c' ++ frames), inl a)
    | (c', inr e) => (c', inr e)
    end.

Section Prepare.

(** Parts of the daemon that [prepare] calls and that live in other
    files: the engine's item accessor, the reserved-item list, the key
    decoder and the size of the payload struct. *)
Variable bucket_get_item_info : t -> nat -> option item_info.
Variable reserveItem : t -> nat -> bool * t.
Variable makeDocKeyWithoutCollectionID : list Byte.byte -> list Byte.byte.
Variable sizeof_extras : Z.        (* sizeof(cb::mcbp::request::DcpPreparePayload) *)

Definition sizeof_req : Z := 24.   (* sizeof(cb::mcbp::Request) *)

Definition reserveItemM (it : nat) : M bool :=
  fun c => let '(ok, c') := reserveItem c it in (c', inl ok).

Definition prepare (opaque : Z) (it : nat) (vbucket : Z)
    (by_seqno rev_seqno lock_time nru : Z)
    (document_state : DocumentState) (durability : Requirements) : M unit :=
  got ← gets (fun c => bucket_get_item_info c it);
  match got with
  | None => return_ RetItemInfoFailed ENGINE_FAILED
  | Some info =>
      let buffer_size := info_value_len info in
      reserved ← reserveItemM it;
      when_ (negb reserved) (return_ RetReserveFailed ENGINE_FAILED);;
      collections ← gets isCollectionsSupported;
      let key := if negb collections
                 then makeDocKeyWithoutCollectionID (info_key info)
                 else info_key info in
      let key_size := Z.of_nat (length key) in
      exptime ← narrowM 32 (info_exptime info);
      let deleted := match document_state with Deleted => 1 | Alive => 0 end in
      extlen ← narrowM 8 sizeof_extras;
      keylen ← narrowM 16 key_size;
      bodylen ← narrowM 32 (sizeof_extras + key_size + buffer_size);
      let req := {| f_extlen := extlen; f_keylen := keylen;
                    f_bodylen := bodylen; f_opaque := opaque;
                    f_vbucket := vbucket; f_cas := info_cas info;
                    f_datatype := info_datatype info;
                    x_by_seqno := by_seqno; x_rev_seqno := rev_seqno;
                    x_flags := info_flags info; x_expiration := exptime;
                    x_lock_time := lock_time; x_nru := nru;
                    x_deleted := deleted; x_durability := durability |} in
      let ret0 := ENGINE_SUCCESS in
      ret ← produce (fun wbuf_size =>
               let total := sizeof_extras + sizeof_req in
               if wbuf_size <? total then mret (0, [], ENGINE_E2BIG)
               else
                 addIov IovPipe (sizeof_req + sizeof_extras);;
                 addIov IovKey key_size;;
                 addIov IovValue buffer_size;;
                 mret (total, [req], ret0));
      (return_ RetRet ret : M unit);;
      return_ RetTrailing ENGINE_ENOTSUP
  end.

(** The key that goes on the wire. *)
Definition wire_key (c : Connection.t) (info : item_info) : list Byte.byte :=
  if isCollectionsSupported c then info_key info
  else makeDocKeyWithoutCollectionID (info_key info).

(** Every field of the frame holds the value it is narrowed to. *)
Definition fits_frame (c : Connection.t) (info : item_info) : Prop :=
  0 <= info_exptime info < 2 ^ 32 /\
  0 <= sizeof_extras < 2 ^ 8 /\
  Z.of_nat (length (wire_key c info)) < 2 ^ 16 /\
  0 <= sizeof_extras + Z.of_nat (length (wire_key c info))
         + info_value_len info < 2 ^ 32.

End Prepare.

(** A client that did not negotiate extended errors, and one that did. *)
Definition legacy_client : Connection.t :=
  {| xerror_support := false; collections_support := false;
     total_cpu_time := 0; min_sched_time := 100; max_sched_time := 0;
     write_avail := 2048; write_data := []; iov := []; msgbytes := 0;
     reservedItems := [] |}.

Definition xerror_client : Connection.t :=
  {| xerror_support := true; collections_support := true;
     total_cpu_time := 0; min_sched_time := 100; max_sched_time := 0;
     write_avail := 16; write_data := []; iov := []; msgbytes := 0;
     reservedItems := [] |}.


(** A stored document and collaborators that always find and reserve it;
    the payload struct of DcpPrepare is taken to be 31 bytes. *)
Definition example_info : item_info :=
  {| info_key := [Byte.x00; Byte.x6b; Byte.x31];
     info_value_len := 5; info_flags := 0; info_exptime := 0;
     info_cas := 1234; info_datatype := 0 |}.

Definition example_get_item_info (c : t) (it : nat) : option item_info :=
  Some example_info.

Definition example_reserveItem (c : t) (it : nat) : bool * t :=
  (true,
   {| xerror_support := xerror_support c;
      collections_support := collections_support c;
      total_cpu_time := total_cpu_time c;
      min_sched_time := min_sched_time c;
      max_sched_time := max_sched_time c;
      write_avail := write_avail c;
      write_data := write_data c;
      iov := iov c;
      msgbytes := msgbytes c;
      reservedItems := reservedItems c ++ [it] |}).

Definition example_strip (k : list Byte.byte) : list Byte.byte := tail k.

End Connection.

(* ===================================================================== *)
(** * vbucket_state (engines/ep/src/vbucket_state.cc) *)
(* ===================================================================== *)

Inductive vbucket_state_t : Type :=
| vbucket_state_active
| vbucket_state_replica
| vbucket_state_pending
| vbucket_state_dead.

#[global] Instance vbucket_state_t_eq_dec : EqDecision vbucket_state_t.
Proof. solve_decision. Defined.

Module VBucketState.

Record vbucket_state : Type := {
  state               : vbucket_state_t;
  checkpointId        : Z;
  maxDeletedSeqno     : Z;
  highSeqno           : Z;
  purgeSeqno          : Z;
  lastSnapStart       : Z;
  lastSnapEnd         : Z;
  maxCas              : Z;
  hlcCasEpochSeqno    : Z;
  mightContainXattrs  : bool;
  failovers           : string;     (* the failover table, already JSON *)
  supportsCollections : bool
}.

(** [std::string::compare(other) != 0]. *)
Definition compare_ne_0 (a b : string) : bool :=
  match String.compare a b with
  | Eq => false
  | Lt | Gt => true
  end.

(** [this->needsToBePersisted(vbstate)]. *)
Definition needsToBePersisted (this vbstate : vbucket_state) : bool :=
  if bool_decide (state this <> state vbstate)
     || compare_ne_0 (failovers this) (failovers vbstate)
  then true
  else false.

(** A flush that moves the persisted snapshot window forward, as seen on
    two successive values of the record. *)
Definition snapshot_window_advanced (this vbstate : vbucket_state) : Prop :=
  lastSnapStart this < lastSnapStart vbstate \/
  lastSnapEnd this < lastSnapEnd vbstate.

(** The record before and after a flush that only moved the snapshot
    window from [1,5] to [6,9]. *)
Definition flushed_before : vbucket_state :=
  {| state := vbucket_state_active; checkpointId := 2; maxDeletedSeqno := 0;
     highSeqno := 5; purgeSeqno := 0; lastSnapStart := 1; lastSnapEnd := 5;
     maxCas := 77; hlcCasEpochSeqno := 0; mightContainXattrs := false;
     failovers := "[]"; supportsCollections := true |}.

Definition flushed_after : vbucket_state :=
  {| state := vbucket_state_active; checkpointId := 2; maxDeletedSeqno := 0;
     highSeqno := 5; purgeSeqno := 0; lastSnapStart := 6; lastSnapEnd := 9;
     maxCas := 77; hlcCasEpochSeqno := 0; mightContainXattrs := false;
     failovers := "[]"; supportsCollections := true |}.

End VBucketState.

(* ===================================================================== *)
(** * The partition (VBucket) as seen by the bucket and the collections
      manager *)
(* ===================================================================== *)

Module VB.

Record FailoverEntry : Type := { vb_uuid : Z; by_seqno : Z }.

Record FailoverTable : Type := {
  max_entries : nat;
  entries     : list FailoverEntry      (* newest first *)
}.

(** Modelled from the spec: [FailoverTable::createEntry] (failover-table.cc
    is not among the sources).  "createEntry(highSeqno) prepends
    (new_uuid, highSeqno) ... Capped at a configured maximum by discarding
    the oldest."  The fresh UUID is an argument. *)
Definition createEntry (uuid highSeqno : Z) (ft : FailoverTable) : FailoverTable :=
  {| max_entries := max_entries ft;
     entries := take (max_entries ft)
                     ({| vb_uuid := uuid; by_seqno := highSeqno |} :: entries ft) |}.

Definition getLatestEntry (ft : FailoverTable) : option FailoverEntry :=
  head (entries ft).

(** [queue_op]: the operation kinds of a queued item. *)
Inductive queue_op : Type :=
| op_mutation | op_pending_sync_write | op_commit_sync_write
| op_abort_sync_write | op_system_event | op_set_vbucket_state.

Record CheckpointManager : Type := {
  openCheckpointId : Z;
  snap_start       : Z;
  snap_end         : Z;
  ckpt_items       : list queue_op
}.

Record snapshot_range_t : Type := { range_start : Z; range_end : Z }.

(** [nlohmann::json], as far as [meta.empty()] looks at it. *)
#[local] Unset Elimination Schemes.
Inductive json : Type :=
| JNull
| JBool (b : bool)
| JNumber (n : Z)
| JString (s : string)
| JArray (items : list json)
| JObject (fields : list (string * json)).
#[local] Set Elimination Schemes.

(** [json::empty()]: null is empty, containers are empty when they have no
    element, every other value is not. *)
Definition json_empty (j : json) : bool :=
  match j with
  | JNull => true
  | JArray [] => true
  | JObject [] => true
  | _ => false
  end.

(** The members of VBucket that the modelled functions touch. *)
Record VBucket : Type := {
  id                : nat;
  state             : vbucket_state_t;
  state_meta        : json;             (* the meta of the last setState *)
  failovers         : FailoverTable;
  checkpointManager : CheckpointManager;
  pendingOps        : list nat;         (* cookies waiting for promotion *)
  takeoverBackedUp  : bool;
  persistedSnapshot : snapshot_range_t;
  persistenceSeqno  : Z;
  bucketCreation    : bool;
  bloomFilter       : option (Z * Z);   (* key count, fp probability x 10^6 *)
  manifestUid       : Z;                (* uid of the partition's collections manifest *)
  collections       : list Z            (* ids of its open collections *)
}.

Definition getState (vb : VBucket) : vbucket_state_t := state vb.
Definition isTakeoverBackedUp (vb : VBucket) : bool := takeoverBackedUp vb.
Definition getPersistedSnapshot (vb : VBucket) := persistedSnapshot vb.
Definition getPersistenceSeqno (vb : VBucket) := persistenceSeqno vb.

Definition with_state (vb : VBucket) (s : vbucket_state_t) (m : json) : VBucket :=
  {| id := id vb; state := s; state_meta := m; failovers := failovers vb;
     checkpointManager := checkpointManager vb; pendingOps := pendingOps vb;
     takeoverBackedUp := takeoverBackedUp vb;
     persistedSnapshot := persistedSnapshot vb;
     persistenceSeqno := persistenceSeqno vb;
     bucketCreation := bucketCreation vb; bloomFilter := bloomFilter vb;
     manifestUid := manifestUid vb; collections := collections vb |}.

Definition with_failovers (vb : VBucket) (ft : FailoverTable) : VBucket :=
  {| id := id vb; state := state vb; state_meta := state_meta vb;
     failovers := ft;
     checkpointManager := checkpointManager vb; pendingOps := pendingOps vb;
     takeoverBackedUp := takeoverBackedUp vb;
     persistedSnapshot := persistedSnapshot vb;
     persistenceSeqno := persistenceSeqno vb;
     bucketCreation := bucketCreation vb; bloomFilter := bloomFilter vb;
     manifestUid := manifestUid vb; collections := collections vb |}.

Definition with_checkpointManager (vb : VBucket) (cm : CheckpointManager) : VBucket :=
  {| id := id vb; state := state vb; state_meta := state_meta vb;
     failovers := failovers vb;
     checkpointManager := cm; pendingOps := pendingOps vb;
     takeoverBackedUp := takeoverBackedUp vb;
     persistedSnapshot := persistedSnapshot vb;
     persistenceSeqno := persistenceSeqno vb;
     bucketCreation := bucketCreation vb; bloomFilter := bloomFilter vb;
     manifestUid := manifestUid vb; collections := collections vb |}.

Definition with_pendingOps (vb : VBucket) (ops : list nat) : VBucket :=
  {| id := id vb; state := state vb; state_meta := state_meta vb;
     failovers := failovers vb;
     checkpointManager := checkpointManager vb; pendingOps := ops;
     takeoverBackedUp := takeoverBackedUp vb;
     persistedSnapshot := persistedSnapshot vb;
     persistenceSeqno := persistenceSeqno vb;
     bucketCreation := bucketCreation vb; bloomFilter := bloomFilter vb;
     manifestUid := manifestUid vb; collections := collections vb |}.

Definition with_creation (vb : VBucket) (created : bool) (filter : option (Z * Z)) : VBucket :=
  {| id := id vb; state := state vb; state_meta := state_meta vb;
     failovers := failovers vb;
     checkpointManager := checkpointManager vb; pendingOps := pendingOps vb;
     takeoverBackedUp := takeoverBackedUp vb;
     persistedSnapshot := persistedSnapshot vb;
     persistenceSeqno := persistenceSeqno vb;
     bucketCreation := created; bloomFilter := filter;
     manifestUid := manifestUid vb; collections := collections vb |}.

(** Modelled from the spec: [VBucket::addPendingOp] (vbucket.h is not among
    the sources).  "If state == pending -> enqueue (cookie,
    resume-callback)": a pending partition queues the cookie and reports
    that it did; any other partition queues nothing. *)
Definition addPendingOp (vb : VBucket) (cookie : nat) : bool * VBucket :=
  if bool_decide (state vb = vbucket_state_pending)
  then (true, with_pendingOps vb (pendingOps vb ++ [cookie]))
  else (false, vb).

(** Modelled from the spec: [CheckpointManager::queueSetVBState]
    (checkpoint_manager.cc is not among the sources).  The checkpoint is an
    ordered sequence of items whose operation kinds include set_vb_state
    (section 3): one more such item is appended. *)
Definition queueSetVBState (vb : VBucket) : VBucket :=
  let cm := checkpointManager vb in
  with_checkpointManager vb
    {| openCheckpointId := openCheckpointId cm;
       snap_start := snap_start cm; snap_end := snap_end cm;
       ckpt_items := ckpt_items cm ++ [op_set_vbucket_state] |}.

Definition setOpenCheckpointId (vb : VBucket) (chk : Z) : VBucket :=
  let cm := checkpointManager vb in
  with_checkpointManager vb
    {| openCheckpointId := chk;
       snap_start := snap_start cm; snap_end := snap_end cm;
       ckpt_items := ckpt_items cm |}.

(** The array of partition handles of VBucketMap: slot [i] holds partition
    [i] or is empty. *)
Definition VBucketMap : Type := list (option VBucket).

Definition getSize (m : VBucketMap) : nat := length m.

(** [VBucketMap::getBucket]: the handle, null when out of range or absent. *)
Definition getBucket (m : VBucketMap) (vbid : nat) : option VBucket :=
  mjoin (m !! vbid).

(** A partition is shared through its handle: a change made through the
    handle found in slot [vbid] is a change of that slot. *)
Definition putBucket (m : VBucketMap) (vbid : nat) (vb : VBucket) : VBucketMap :=
  <[vbid := Some vb]> m.

(** Modelled from the spec: [VBucketMap::addBucket] (vbucketmap.cc is not
    among the sources).  "Fixed-size array of partition handles (by
    partition id)": the handle goes into the slot of the partition's id;
    an id outside the array is refused (the caller tests for
    ENGINE_ERANGE). *)
Definition addBucket (m : VBucketMap) (vb : VBucket) : option VBucketMap :=
  if (id vb <? getSize m)%nat then Some (putBucket m (id vb) vb) else None.

(** Modelled from the spec: [VBucketMap::setState] (vbucketmap.cc is not
    among the sources).  The partition takes the requested state (section
    4.E) together with the meta it was given; the state it had is
    returned. *)
Definition setState (vb : VBucket) (to : vbucket_state_t) (meta : json)
  : vbucket_state_t * VBucket :=
  (getState vb, with_state vb to meta).

End VB.

(* ===================================================================== *)
(** * Collections::Manager (engines/ep/src/collections/manager.cc) *)
(* ===================================================================== *)

Module Collections.
Import VB.

(** A parsed bucket manifest: its uid and the collections it declares. *)
Record Manifest : Type := { uid : Z; members : list Z }.

(** What the manager needs from code that lives in other files: the
    Manifest constructor (throws on illegal JSON) and the partition's
    [updateFromManifest], which mutates the partition and reports whether
    it could apply the manifest. *)
Class Deps : Type := {
  parseManifest      : string -> Z -> option Manifest;
  updateFromManifest : VBucket -> Manifest -> bool * VBucket
}.

Inductive engine_errc : Type :=
| success
| temporary_failure
| invalid_arguments
| cannot_apply_collections_manifest
| no_collections_manifest.

(** [cb::engine_error]: the code, and for an aborted update the partition
    that refused and whether the roll-back went through (both are part of
    the message in the source). *)
Record engine_error : Type := {
  code       : engine_errc;
  aborted_on : option nat;
  rolledback_success : option bool
}.

Definition plain (c : engine_errc) : engine_error :=
  {| code := c; aborted_on := None; rolledback_success := None |}.

Record Manager : Type := {
  lock    : bool;                 (* the mutex is held (by someone else) *)
  current : option Manifest       (* std::unique_ptr<Manifest> *)
}.

Section WithDeps.
Context `{Deps}.

(** The loop of [updateAllVBuckets] over slots [0 .. getSize()-1]: every
    active partition is updated in place; the loop leaves at the first
    one that refuses and returns its id. *)
Fixpoint updateAllVBuckets (vbs : VBucketMap) (newManifest : Manifest)
  : option nat * VBucketMap :=
  match vbs with
  | [] => (None, [])
  | slot :: rest =>
      match slot with
      | Some vb =>
          if bool_decide (getState vb = vbucket_state_active) then
            let '(ok, vb') := updateFromManifest vb newManifest in
            if negb ok then (Some (id vb'), Some vb' :: rest)
            else let '(r, rest') := updateAllVBuckets rest newManifest in
                 (r, Some vb' :: rest')
          else let '(r, rest') := updateAllVBuckets rest newManifest in
               (r, slot :: rest')
      | None => let '(r, rest') := updateAllVBuckets rest newManifest in
                (r, slot :: rest')
      end
  end.

(** [Manager::update(KVBucket&, manifest)].  [None] stands for the
    undefined behaviour of [*current] on an empty pointer (a refused
    first manifest). *)
Definition update (m : Manager) (vbs : VBucketMap)
    (manifest : string) (collectionsMaxSize : Z)
  : option (engine_error * Manager * VBucketMap) :=
  if lock m then
(* try_to_lock failed *)
Some (plain temporary_failure, m, vbs)
else
match parseManifest manifest collectionsMaxSize with
| None => Some (plain invalid_arguments, m, vbs)
| Some newManifest =>
    let '(updated, vbs1) := updateAllVBuckets vbs newManifest in
    match updated with
    | Some vbid =>
        match current m with
        | Some cur =>
            let '(rolledback, vbs2) := updateAllVBuckets vbs1 cur in
            Some ({| code := cannot_apply_collections_manifest;
                     aborted_on := Some vbid;
                     rolledback_success :=
                       Some (negb (bool_decide (is_Some rolledback))) |},
                  m, vbs2)
        | None => None
        end
    | None =>
        Some (plain success,
              {| lock := lock m; current := Some newManifest |}, vbs1)
    end
end.

(** [Manager::getManifest]: the current manifest (its JSON text in the
    source) if there is one, no_collections_manifest otherwise. *)
Definition getManifest (m : Manager) : engine_errc * option Manifest :=
  match current m with
  | Some cur => (success, Some cur)
  | None => (no_collections_manifest, None)
  end.

(** [Manager::update(VBucket&)]: bring one partition to the current
    manifest, if there is one; the result of the partition is ignored. *)
Definition update_vb (m : Manager) (vb : VBucket) : VBucket :=
  match current m with
  | Some cur => snd (updateFromManifest vb cur)
  | None => vb
  end.

(** One pass of the loop on a single slot when nothing refuses. *)
Definition apply_slot (newManifest : Manifest) (slot : option VBucket)
  : option VBucket :=
  match slot with
  | Some vb =>
      if bool_decide (getState vb = vbucket_state_active)
      then Some (snd (updateFromManifest vb newManifest))
      else slot
  | None => None
  end.

(** A slot holds an active partition that refuses the manifest. *)
Definition refuses (newManifest : Manifest) (slot : option VBucket) : bool :=
  match slot with
  | Some vb =>
      bool_decide (getState vb = vbucket_state_active)
      && negb (fst (updateFromManifest vb newManifest))
  | None => false
  end.

End WithDeps.

(** A partition-side policy for the examples: a partition takes a manifest
    whose uid is not behind its own, and refuses an older one. *)
Definition example_updateFromManifest (vb : VBucket) (m : Manifest)
  : bool * VBucket :=
  if manifestUid vb <=? uid m then
    (true,
     {| id := id vb; state := state vb; state_meta := state_meta vb;
        failovers := failovers vb;
        checkpointManager := checkpointManager vb;
        pendingOps := pendingOps vb;
        takeoverBackedUp := takeoverBackedUp vb;
        persistedSnapshot := persistedSnapshot vb;
        persistenceSeqno := persistenceSeqno vb;
        bucketCreation := bucketCreation vb; bloomFilter := bloomFilter vb;
        manifestUid := uid m; collections := members m |})
  else (false, vb).

(** The manifest text is only measured: its length is the uid; the empty
    text is illegal. *)
Definition example_parseManifest (text : string) (maxSize : Z) : option Manifest :=
  if String.eqb text EmptyString then None
  else Some {| uid := Z.of_nat (String.length text); members := [] |}.

Definition example_deps : Deps :=
  {| parseManifest := example_parseManifest;
     updateFromManifest := example_updateFromManifest |}.

Definition example_vb (i : nat) (s : vbucket_state_t) (muid : Z) : VBucket :=
  {| id := i; state := s; state_meta := JNull;
     failovers := {| max_entries := 5; entries := [] |};
     checkpointManager := {| openCheckpointId := 2; snap_start := 0;
                             snap_end := 0; ckpt_items := [] |};
     pendingOps := []; takeoverBackedUp := false;
     persistedSnapshot := {| range_start := 0; range_end := 0 |};
     persistenceSeqno := 0; bucketCreation := false; bloomFilter := None;
     manifestUid := muid; collections := [] |}.

(** Three slots: an active partition at manifest 1, a replica, and an
    active partition already at manifest 7. *)
Definition example_vbs : VBucketMap :=
  [ Some (example_vb 0 vbucket_state_active 1);
    Some (example_vb 1 vbucket_state_replica 0);
    Some (example_vb 2 vbucket_state_active 7) ].

Definition example_manager (held : bool) : Manager :=
  {| lock := held; current := Some {| uid := 1; members := [] |} |}.

(** [Manager::Manager()]: no current manifest, the lock free. *)
Definition fresh_manager : Manager := {| lock := false; current := None |}.

End Collections.

(* ===================================================================== *)
(** * KVBucket (engines/ep/src/kv_bucket.cc) *)
(* ===================================================================== *)

Module KVBucket.
Import VB.

Record Item : Type := {
  itm_vbucket : nat;               (* getVBucketId() *)
  itm_key     : string;
  itm_cas     : Z;
  itm_exptime : Z;
  itm_value   : string
}.

(** What [lockCollections(key)] hands back. *)
Record CachingReadHandle : Type := { valid : bool; handleManifestUid : Z }.

Inductive TransferVB : Type := TransferNo | TransferYes.

#[global] Instance TransferVB_eq_dec : EqDecision TransferVB.
Proof. solve_decision. Defined.

(** Calls that leave the bucket, in the order they are made. *)
Inductive Event : Type :=
| SetErrorContext (cookie : nat) (manifest_uid : Z)
| DcpVbucketStateChanged (vbid : nat) (to : vbucket_state_t)
                         (closeInboundStreams : bool)
| SchedulePendingOpsNotification (vbid : nat)
| IncrementRevision (vbid : nat)
| SetFreqSaturatedCallback (vbid : nat).

Record Configuration : Type := {
  bfilterEnabled     : bool;
  bfilterKeyCount    : Z;
  bfilterFpProb      : Z;
  maxFailoverEntries : nat;
  maxTtl             : Z
}.

Record t : Type := {
  vbMap              : VBucketMap;
  numNotMyVBuckets   : Z;                    (* stats.numNotMyVBuckets *)
  events             : list Event;
  collectionsManager : Collections.Manager;
  config             : Configuration;
  next_uuid          : Z                     (* state of the UUID generator *)
}.

(** The partition-level operations and helpers the bucket delegates to;
    their bodies are in vbucket.cc, checkpoint_manager.cc and
    collections/vbucket_manifest.cc. *)
Class Deps : Type := {
  collections_deps :: Collections.Deps;
  lockCollections  : VBucket -> string -> CachingReadHandle;
  processExpiryTime : VBucket -> Item -> Z -> Item;
  vb_set        : VBucket -> Item -> nat -> ENGINE_ERROR_CODE * VBucket;
  vb_add        : VBucket -> Item -> nat -> ENGINE_ERROR_CODE * VBucket;
  vb_replace    : VBucket -> Item -> nat -> ENGINE_ERROR_CODE * VBucket;
  vb_deleteItem : VBucket -> string -> Z -> nat -> ENGINE_ERROR_CODE * VBucket;
  resetSnapshotRange : CheckpointManager -> CheckpointManager;
  makeVBucket   : nat -> vbucket_state_t -> nat -> VBucket;
  random_uuid   : Z -> Z
}.

Definition getVBucket (kv : t) (vbid : nat) : option VBucket :=
  getBucket (vbMap kv) vbid.

Definition with_vbMap (kv : t) (m : VBucketMap) : t :=
  {| vbMap := m; numNotMyVBuckets := numNotMyVBuckets kv;
     events := events kv; collectionsManager := collectionsManager kv;
     config := config kv; next_uuid := next_uuid kv |}.

Definition store (kv : t) (vbid : nat) (vb : VBucket) : t :=
  with_vbMap kv (putBucket (vbMap kv) vbid vb).

Definition incrNotMyVBuckets (kv : t) : t :=
  {| vbMap := vbMap kv; numNotMyVBuckets := numNotMyVBuckets kv + 1;
     events := events kv; collectionsManager := collectionsManager kv;
     config := config kv; next_uuid := next_uuid kv |}.

Definition emit (kv : t) (e : Event) : t :=
  {| vbMap := vbMap kv; numNotMyVBuckets := numNotMyVBuckets kv;
     events := events kv ++ [e]; collectionsManager := collectionsManager kv;
     config := config kv; next_uuid := next_uuid kv |}.

Definition bump_uuid (kv : t) : t :=
  {| vbMap := vbMap kv; numNotMyVBuckets := numNotMyVBuckets kv;
     events := events kv; collectionsManager := collectionsManager kv;
     config := config kv; next_uuid := next_uuid kv + 1 |}.

Section WithDeps.
Context `{Deps}.

(** ** Client writes *)

(** The collections scope shared by the four operations: refuse an
    unknown collection, otherwise run the partition-level operation
    [op] (on the item with its expiry adjusted, where the source does
    that). *)
Definition collections_scope (kv : t) (vbid : nat) (vb : VBucket)
    (key : string) (cookie : nat)
    (op : VBucket -> ENGINE_ERROR_CODE * VBucket)
  : ENGINE_ERROR_CODE * t :=
  let cHandle := lockCollections vb key in
  if negb (valid cHandle) then
    (ENGINE_UNKNOWN_COLLECTION,
     emit kv (SetErrorContext cookie (handleManifestUid cHandle)))
  else
    let '(rc, vb') := op vb in (rc, store kv vbid vb').

Definition set (kv : t) (itm : Item) (cookie : nat) : ENGINE_ERROR_CODE * t :=
  match getVBucket kv (itm_vbucket itm) with
  | None => (ENGINE_NOT_MY_VBUCKET, incrNotMyVBuckets kv)
  | Some vb =>
      let continue (kv : t) (vb : VBucket) :=
        collections_scope kv (itm_vbucket itm) vb (itm_key itm) cookie
          (fun vb => vb_set vb (processExpiryTime vb itm (maxTtl (config kv))) cookie) in
      if bool_decide (getState vb = vbucket_state_dead) then
        (ENGINE_NOT_MY_VBUCKET, incrNotMyVBuckets kv)
      else if bool_decide (getState vb = vbucket_state_replica) then
        (ENGINE_NOT_MY_VBUCKET, incrNotMyVBuckets kv)
      else if bool_decide (getState vb = vbucket_state_pending) then
        let '(queued, vb') := addPendingOp vb cookie in
        let kv' := store kv (itm_vbucket itm) vb' in
        if queued then (ENGINE_EWOULDBLOCK, kv')
        else continue kv' vb'
      else if isTakeoverBackedUp vb then
        (ENGINE_TMPFAIL, kv)
      else continue kv vb
  end.

Definition add (kv : t) (itm : Item) (cookie : nat) : ENGINE_ERROR_CODE * t :=
  match getVBucket kv (itm_vbucket itm) with
  | None => (ENGINE_NOT_MY_VBUCKET, incrNotMyVBuckets kv)
  | Some vb =>
      let continue (kv : t) (vb : VBucket) :=
        if negb (itm_cas itm =? 0) then
(* Adding with a cas value doesn't make sense.. *)
(ENGINE_NOT_STORED, kv)
else
collections_scope kv (itm_vbucket itm) vb (itm_key itm) cookie
  (fun vb => vb_add vb (processExpiryTime vb itm (maxTtl (config kv))) cookie) in
if bool_decide (getState vb = vbucket_state_dead)
|| bool_decide (getState vb = vbucket_state_replica) then
(ENGINE_NOT_MY_VBUCKET, incrNotMyVBuckets kv)
else if bool_decide (getState vb = vbucket_state_pending) then
let '(queued, vb') := addPendingOp vb cookie in
let kv' := store kv (itm_vbucket itm) vb' in
if queued then (ENGINE_EWOULDBLOCK, kv')
else continue kv' vb'
else if isTakeoverBackedUp vb then
(ENGINE_TMPFAIL, kv)
else continue kv vb
end.

Definition replace (kv : t) (itm : Item) (cookie : nat) : ENGINE_ERROR_CODE * t :=
  match getVBucket kv (itm_vbucket itm) with
  | None => (ENGINE_NOT_MY_VBUCKET, incrNotMyVBuckets kv)
  | Some vb =>
      let continue (kv : t) (vb : VBucket) :=
        collections_scope kv (itm_vbucket itm) vb (itm_key itm) cookie
          (fun vb => vb_replace vb (processExpiryTime vb itm (maxTtl (config kv))) cookie) in
      if bool_decide (getState vb = vbucket_state_dead)
         || bool_decide (getState vb = vbucket_state_replica) then
        (ENGINE_NOT_MY_VBUCKET, incrNotMyVBuckets kv)
      else if bool_decide (getState vb = vbucket_state_pending) then
        let '(queued, vb') := addPendingOp vb cookie in
        let kv' := store kv (itm_vbucket itm) vb' in
        if queued then (ENGINE_EWOULDBLOCK, kv')
        else continue kv' vb'
      else continue kv vb
  end.

Definition deleteItem (kv : t) (key : string) (cas : Z) (vbucket : nat)
    (cookie : nat) : ENGINE_ERROR_CODE * t :=
  let vb := getVBucket kv vbucket in
  match vb with
  | None => (ENGINE_NOT_MY_VBUCKET, incrNotMyVBuckets kv)
  | Some vb =>
      let continue (kv : t) (vb : VBucket) :=
        collections_scope kv vbucket vb key cookie
          (fun vb => vb_deleteItem vb key cas cookie) in
      if bool_decide (getState vb = vbucket_state_dead) then
        (ENGINE_NOT_MY_VBUCKET, incrNotMyVBuckets kv)
      else if bool_decide (getState vb = vbucket_state_replica) then
        (ENGINE_NOT_MY_VBUCKET, incrNotMyVBuckets kv)
      else if bool_decide (getState vb = vbucket_state_pending) then
        let '(queued, vb') := addPendingOp vb cookie in
        let kv' := store kv vbucket vb' in
        if queued then (ENGINE_EWOULDBLOCK, kv')
        else continue kv' vb'
      else if isTakeoverBackedUp vb then
        (ENGINE_TMPFAIL, kv)
      else continue kv vb
  end.

(** ** Partition state changes *)

Definition scheduleVBStatePersist (kv : t) (vbid : nat) : t :=
  match getVBucket kv vbid with
  | None => kv                          (* logged, nothing scheduled *)
  | Some vb => store kv vbid (queueSetVBState vb)
  end.

Definition setVBucketState_UNLOCKED (kv : t) (vbid : nat)
    (to : vbucket_state_t) (meta : json) (transfer : TransferVB)
    (notify_dcp : bool) : ENGINE_ERROR_CODE * t :=
  match getBucket (vbMap kv) vbid with
  | Some vb =>
(* Return success immediately if the new state is the same as the
   old, and no extra metadata was included. *)
if bool_decide (to = getState vb) && json_empty meta then
  (ENGINE_SUCCESS, kv)
else
  let '(oldstate, vb1) := setState vb to meta in
  let kv1 := store kv vbid vb1 in
  let kv2 :=
    if bool_decide (oldstate <> to) && notify_dcp then
      let closeInboundStreams :=
        bool_decide (to = vbucket_state_active)
        && bool_decide (transfer = TransferNo) in
      emit kv1 (DcpVbucketStateChanged vbid to closeInboundStreams)
    else kv1 in
  let vb2 :=
    if bool_decide (to = vbucket_state_active)
       && bool_decide (oldstate = vbucket_state_replica) then
      Collections.update_vb (collectionsManager kv2)
        (with_checkpointManager vb1
           (resetSnapshotRange (checkpointManager vb1)))
    else vb1 in
  let '(vb3, kv3) :=
    if bool_decide (to = vbucket_state_active)
       && bool_decide (transfer = TransferNo) then
      let range := getPersistedSnapshot vb2 in
      let highSeqno :=
        if range_end range =? getPersistenceSeqno vb2
        then range_end range else range_start range in
      (with_failovers vb2
         (createEntry (random_uuid (next_uuid kv2)) highSeqno
                      (failovers vb2)),
       bump_uuid kv2)
    else (vb2, kv2) in
  let kv4 :=
    if bool_decide (oldstate = vbucket_state_pending)
       && bool_decide (to = vbucket_state_active) then
      emit kv3 (SchedulePendingOpsNotification vbid)
    else kv3 in
  (ENGINE_SUCCESS, scheduleVBStatePersist (store kv4 vbid vb3) vbid)
| None =>
if (vbid <? getSize (vbMap kv))%nat then
  let newvb := makeVBucket vbid to (maxFailoverEntries (config kv)) in
  let kv1 := emit kv (SetFreqSaturatedCallback vbid) in
  let newvb1 :=
    if bfilterEnabled (config kv) then
      with_creation newvb (bucketCreation newvb)
        (Some (bfilterKeyCount (config kv), bfilterFpProb (config kv)))
    else newvb in
(* The first checkpoint for active vbucket should start with id 2. *)
let start_chk_id := if bool_decide (to = vbucket_state_active)
                    then 2 else 0 in
let newvb2 := setOpenCheckpointId newvb1 start_chk_id in
let kv2 := emit kv1 (IncrementRevision vbid) in
let newvb3 :=
  if bool_decide (to = vbucket_state_active)
  then Collections.update_vb (collectionsManager kv2) newvb2
  else newvb2 in
match addBucket (vbMap kv2) newvb3 with
| None => (ENGINE_ERANGE, kv2)
| Some m =>
    let kv3 := with_vbMap kv2 m in
    let kv4 := store kv3 (id newvb3)
                     (with_creation newvb3 true (bloomFilter newvb3)) in
    (ENGINE_SUCCESS, scheduleVBStatePersist kv4 vbid)
end
else (ENGINE_ERANGE, kv)
end.

End WithDeps.

(** The admission policy in the words of the specification (section 4.E,
    steps 2 to 4): the failure a client write meets on partition [vb], or
    nothing when it is admitted. *)
Definition spec_admission (vb : VBucket) : option ENGINE_ERROR_CODE :=
  if bool_decide (state vb = vbucket_state_dead \/ state vb = vbucket_state_replica)
  then Some ENGINE_NOT_MY_VBUCKET
  else if bool_decide (state vb = vbucket_state_pending)
  then Some ENGINE_EWOULDBLOCK
  else if takeoverBackedUp vb then Some ENGINE_TMPFAIL
  else None.

(** Collaborators for the examples: every key is in a known collection and
    every partition-level operation succeeds without changing the
    partition. *)
Definition example_deps : Deps :=
  {| collections_deps := Collections.example_deps;
     lockCollections := fun _ _ => {| valid := true; handleManifestUid := 0 |};
     processExpiryTime := fun _ itm _ => itm;
     vb_set := fun vb _ _ => (ENGINE_SUCCESS, vb);
     vb_add := fun vb _ _ => (ENGINE_SUCCESS, vb);
     vb_replace := fun vb _ _ => (ENGINE_SUCCESS, vb);
     vb_deleteItem := fun vb _ _ _ => (ENGINE_SUCCESS, vb);
     resetSnapshotRange := fun cm => cm;
     makeVBucket := fun i s n =>
       with_failovers (Collections.example_vb i s 0)
                      {| max_entries := n; entries := [] |};
     random_uuid := fun n => 1000 + n |}.

Definition example_config : Configuration :=
  {| bfilterEnabled := true; bfilterKeyCount := 10000; bfilterFpProb := 10000;
     maxFailoverEntries := 5; maxTtl := 0 |}.

(** An active partition whose takeover is backed up. *)
Definition backed_up_vb : VBucket :=
  {| id := 0; state := vbucket_state_active; state_meta := JNull;
     failovers := {| max_entries := 5; entries := [] |};
     checkpointManager := {| openCheckpointId := 2; snap_start := 0;
                             snap_end := 0; ckpt_items := [] |};
     pendingOps := []; takeoverBackedUp := true;
     persistedSnapshot := {| range_start := 0; range_end := 0 |};
     persistenceSeqno := 0; bucketCreation := false; bloomFilter := None;
     manifestUid := 0; collections := [] |}.

Definition example_bucket (vbs : VBucketMap) : t :=
  {| vbMap := vbs; numNotMyVBuckets := 0; events := [];
     collectionsManager := Collections.example_manager false;
     config := example_config; next_uuid := 0 |}.

Definition backed_up_bucket : t := example_bucket [Some backed_up_vb; None].

Definition example_item : Item :=
  {| itm_vbucket := 0; itm_key := "k1"; itm_cas := 0; itm_exptime := 0;
     itm_value := "v1" |}.

End KVBucket.

(* ===================================================================== *)
(** * DurabilityMonitor *)
(* ===================================================================== *)

(** Only the class declaration (durability_monitor.h) and the tests
    (durability_monitor_test.cc, vbucket_durability_test.cc) are among the
    sources; the member functions are modelled from section 4.F of the
    specification, with the names and types of the declaration. *)

Module DurabilityMonitor.

Inductive Level : Type :=
| Majority
| MajorityAndPersistOnMaster
| PersistToMajority.

Record SyncWrite : Type := {
  key    : string;
  seqno  : Z;
  level  : Level;
  cookie : option nat
}.

Record NodeSeqnos : Type := { memory : Z; disk : Z }.

Record NodePosition : Type := {
  lastWriteSeqno : NodeSeqnos;      (* seqno of the tracked write the node is at *)
  lastAckSeqno   : NodeSeqnos       (* what the node acknowledged *)
}.

Inductive Tracking : Type := Memory | Disk.

Definition chan (tr : Tracking) (s : NodeSeqnos) : Z :=
  match tr with Memory => memory s | Disk => disk s end.

Definition set_chan (tr : Tracking) (v : Z) (s : NodeSeqnos) : NodeSeqnos :=
  match tr with
  | Memory => {| memory := v; disk := disk s |}
  | Disk => {| memory := memory s; disk := v |}
  end.

(** [state]: the first chain (active first) and the tracked writes. *)
Record t : Type := {
  firstChain    : list (string * NodePosition);
  trackedWrites : list SyncWrite
}.

Definition maxReplicas : nat := 3.

Inductive logic_error : Type :=
| EmptyChain                        (* "Empty chain" *)
| TooManyNodes                      (* "Too many nodes in chain" *)
| DuplicateNode                     (* "Duplicate node" *)
| MemorySeqnoSmallerThanDiskSeqno   (* "memorySeqno < diskSeqno" *)
| NoTrackedSyncWrite                (* "No tracked SyncWrite" *)
| Monotonic.                        (* "Monotonic" invariant broken *)

(** The result of a member function: what it returns, or the
    [std::logic_error] it throws.  The monitor is returned next to it in
    the state it has when the call ends either way.  [Unspecified] is the
    result of a call the specification gives no behaviour for (an
    acknowledgement from a node that is not in the chain): nothing is
    assumed about it, neither a return nor a throw. *)
Inductive outcome (A : Type) : Type :=
| Ok (a : A)
| LogicError (e : logic_error)
| Unspecified.
Arguments Ok {A} a.
Arguments LogicError {A} e.
Arguments Unspecified {A}.

Definition getNumTracked (dm : t) : nat := length (trackedWrites dm).
Definition getReplicationChainSize (dm : t) : nat := length (firstChain dm).

Definition zeroSeqnos : NodeSeqnos := {| memory := 0; disk := 0 |}.
Definition initialPosition : NodePosition :=
  {| lastWriteSeqno := zeroSeqnos; lastAckSeqno := zeroSeqnos |}.

Fixpoint lookupNode (chain : list (string * NodePosition)) (node : string)
  : option NodePosition :=
  match chain with
  | [] => None
  | (n, p) :: rest => if String.eqb n node then Some p else lookupNode rest node
  end.

Fixpoint setNode (chain : list (string * NodePosition)) (node : string)
    (p' : NodePosition) : list (string * NodePosition) :=
  match chain with
  | [] => []
  | (n, p) :: rest =>
      if String.eqb n node then (n, p') :: rest
      else (n, p) :: setNode rest node p'
  end.

Fixpoint hasDuplicate (nodes : list string) : bool :=
  match nodes with
  | [] => false
  | n :: rest => existsb (String.eqb n) rest || hasDuplicate rest
  end.

(** Modelled from the spec: [registerReplicationChain].  "Replication
    chain. Ordered list (1..4) of node identifiers including the active";
    the three refusals are the ones the RegisterChain tests expect.  Every
    node starts at position 0. *)
Definition registerReplicationChain (dm : t) (nodes : list string)
  : t * outcome ENGINE_ERROR_CODE :=
  match nodes with
  | [] => (dm, LogicError EmptyChain)
  | _ =>
      if (maxReplicas + 1 <? length nodes)%nat then (dm, LogicError TooManyNodes)
      else if hasDuplicate nodes then (dm, LogicError DuplicateNode)
      else ({| firstChain := map (fun n => (n, initialPosition)) nodes;
               trackedWrites := trackedWrites dm |}, Ok ENGINE_SUCCESS)
  end.

Definition getNodeWriteSeqnos (dm : t) (node : string) : option NodeSeqnos :=
  lastWriteSeqno <$> lookupNode (firstChain dm) node.

Definition getNodeAckSeqnos (dm : t) (node : string) : option NodeSeqnos :=
  lastAckSeqno <$> lookupNode (firstChain dm) node.

(** Modelled from the spec: [addSyncWrite].  "appends to trackedWrites.
    The active's own memory_write_seqno is advanced implicitly (the write
    is in the active's checkpoint at registration time)"; the
    MultipleReplica test reads the same seqno from the active's memory
    ack. *)
Definition addSyncWrite (dm : t) (w : SyncWrite) : t * outcome ENGINE_ERROR_CODE :=
  let chain' :=
    match firstChain dm with
    | [] => []
    | (active, p) :: rest =>
        (active,
         {| lastWriteSeqno := set_chan Memory (seqno w) (lastWriteSeqno p);
            lastAckSeqno := set_chan Memory (seqno w) (lastAckSeqno p) |})
        :: rest
    end in
  ({| firstChain := chain'; trackedWrites := trackedWrites dm ++ [w] |},
   Ok ENGINE_SUCCESS).

(** Modelled from the spec: [updateNodeAck], with the signature of the
    declaration (one node, one Tracking, the new ack seqno).  "Update
    node's ack seqnos (monotonic; decrease -> LogicError)": the channel's
    ack seqno is recorded unless it is below the recorded one; equal is
    accepted.  [None] is the throw. *)
Definition updateNodeAck (tr : Tracking) (seqno : Z) (p : NodePosition)
  : option NodePosition :=
  if seqno <? chan tr (lastAckSeqno p) then None
  else Some {| lastWriteSeqno := lastWriteSeqno p;
               lastAckSeqno := set_chan tr seqno (lastAckSeqno p) |}.

(** The largest seqno among [ws] that is at most [ackSeqno], found in one
    pass over the container. *)
Definition lastTrackedUpTo (ws : list SyncWrite) (ackSeqno : Z) : option Z :=
  fold_left
    (fun best w =>
       if seqno w <=? ackSeqno then
         match best with
         | Some b => if b <? seqno w then Some (seqno w) else best
         | None => Some (seqno w)
         end
       else best)
    ws None.

(** Modelled from the spec: step 3, [advanceNodePosition] for one channel.
    "Advance node's write_seqno cursor to the largest seqno in
    trackedWrites that is <= ack seqno (one channel per tracking: memory or
    disk)"; with no such write the cursor stays. *)
Definition advanceNodePosition (ws : list SyncWrite) (tr : Tracking)
    (ackSeqno : Z) (p : NodePosition) : NodePosition :=
  match lastTrackedUpTo ws ackSeqno with
  | Some s => {| lastWriteSeqno := set_chan tr s (lastWriteSeqno p);
                 lastAckSeqno := lastAckSeqno p |}
  | None => p
  end.

(** Modelled from the spec: the number of nodes a Majority needs,
    ceil((|chain| + 1) / 2). *)
Definition majority (chainSize : nat) : nat := (chainSize + 1 + 1) / 2.

(** The number of chain nodes whose write cursor on channel [tr] has
    reached [s]. *)
Definition countReached (chain : list (string * NodePosition))
    (tr : Tracking) (s : Z) : nat :=
  length (List.filter (fun np => s <=? chan tr (lastWriteSeqno (snd np))) chain).

Definition activeReached (chain : list (string * NodePosition))
    (tr : Tracking) (s : Z) : bool :=
  match chain with
  | [] => false
  | (_, p) :: _ => s <=? chan tr (lastWriteSeqno p)
  end.

(** Modelled from the spec: step 4, the requirement of one tracked write. *)
Definition isDurabilityRequirementSatisfied
    (chain : list (string * NodePosition)) (w : SyncWrite) : bool :=
  let n := length chain in
  match level w with
  | Majority =>
      (majority n <=? countReached chain Memory (seqno w))%nat
  | MajorityAndPersistOnMaster =>
      (majority n <=? countReached chain Memory (seqno w))%nat
      && activeReached chain Disk (seqno w)
  | PersistToMajority =>
      (majority n <=? countReached chain Disk (seqno w))%nat
  end.

(** Modelled from the spec: steps 4 and 5, "For each tracked write,
    evaluate its requirement" and commit the satisfied ones in seqno order,
    "Remove from trackedWrites".  The removal is the one of the class
    declaration: [removeSyncWrite] takes the Position of one SyncWrite and
    returns the single-element list of it, which is appended to [toCommit];
    so each satisfied write leaves the container on its own, in the order
    of the container, and the others stay in their order.  A write that
    still waits for its requirement does not hold back a satisfied one
    tracked behind it (invariant 7 of the spec: a Majority write is
    committed iff its majority is reached).  The result is (toCommit,
    still tracked). *)
Fixpoint commitSatisfied (chain : list (string * NodePosition))
    (ws : list SyncWrite) : list SyncWrite * list SyncWrite :=
  match ws with
  | [] => ([], [])
  | w :: rest =>
      let '(toCommit, kept) := commitSatisfied chain rest in
      if isDurabilityRequirementSatisfied chain w then (w :: toCommit, kept)
      else (toCommit, w :: kept)
  end.

(** The monitor with the position of [node] replaced. *)
Definition withPosition (dm : t) (node : string) (p : NodePosition) : t :=
  {| firstChain := setNode (firstChain dm) node p;
     trackedWrites := trackedWrites dm |}.

(** Modelled from the spec: [seqnoAckReceived], steps 1 to 5 in order.
    Steps 2 and 3 call the per-Tracking members of the declaration for
    Memory and then for Disk (the order of the parameters); each
    [updateNodeAck] checks and records its own channel, so a call whose
    disk seqno is refused throws with the memory seqno already recorded.
    On success the committed writes are returned, in commit order (each
    becomes a commit_sync_write item and a Success notification of its
    cookie). *)
Definition seqnoAckReceived (dm : t) (node : string) (memSeqno diskSeqno : Z)
  : t * outcome (list SyncWrite) :=
(* 1 *)
if memSeqno <? diskSeqno then (dm, LogicError MemorySeqnoSmallerThanDiskSeqno)
else
  match trackedWrites dm with
  | [] => (dm, LogicError NoTrackedSyncWrite)
  | _ =>
      match lookupNode (firstChain dm) node with
      | None => (dm, Unspecified)
      | Some p =>
(* 2 *)
match updateNodeAck Memory memSeqno p with
| None => (dm, LogicError Monotonic)
| Some p1 =>
match updateNodeAck Disk diskSeqno p1 with
| None => (withPosition dm node p1, LogicError Monotonic)
| Some p2 =>
(* 3 *)
let p3 := advanceNodePosition (trackedWrites dm) Memory memSeqno p2 in
let p4 := advanceNodePosition (trackedWrites dm) Disk diskSeqno p3 in
let chain' := setNode (firstChain dm) node p4 in
(* 4, 5 *)
let '(toCommit, kept) := commitSatisfied chain' (trackedWrites dm) in
({| firstChain := chain'; trackedWrites := kept |}, Ok toCommit)
end
end
end
end.


(** Running a sequence of calls, as the tests do. *)
Inductive Call : Type :=
| CallRegister (nodes : list string)
| CallAdd (s : Z) (l : Level)
| CallAck (node : string) (memSeqno diskSeqno : Z).

Definition testWrite (s : Z) (l : Level) : SyncWrite :=
  {| key := "key"; seqno := s; level := l; cookie := None |}.

(** What a call threw, if its result is specified. *)
Definition thrown {A : Type} (r : t * outcome A)
  : option (t * option logic_error) :=
  match r with
  | (dm', Ok _) => Some (dm', None)
  | (dm', LogicError e) => Some (dm', Some e)
  | (_, Unspecified) => None
  end.

Definition step (dm : t) (c : Call) : option (t * option logic_error) :=
  match c with
  | CallRegister nodes => thrown (registerReplicationChain dm nodes)
  | CallAdd s l => thrown (addSyncWrite dm (testWrite s l))
  | CallAck node m d => thrown (seqnoAckReceived dm node m d)
  end.

(** All calls but the last must succeed; the result is the monitor after
    the last call and what that call threw, if anything. *)
Fixpoint run (dm : t) (cs : list Call) : option (t * option logic_error) :=
  match cs with
  | [] => Some (dm, None)
  | [c] => step dm c
  | c :: rest =>
      match step dm c with
      | Some (dm', None) => run dm' rest
      | _ => None
      end
  end.

Definition empty : t := {| firstChain := []; trackedWrites := [] |}.

(** What the tests read back after a run: the number of tracked writes, the
    write and ack seqnos of a node, and what the last call threw. *)
Definition observe (node : string) (r : option (t * option logic_error))
  : option (nat * option NodeSeqnos * option NodeSeqnos * option logic_error) :=
  match r with
  | Some (dm, e) =>
      Some (getNumTracked dm, getNodeWriteSeqnos dm node,
            getNodeAckSeqnos dm node, e)
  | None => None
  end.

Definition seqnos (m d : Z) : option NodeSeqnos :=
  Some {| memory := m; disk := d |}.

(** "The largest seqno in trackedWrites that is <= ack seqno", as a
    property of [s]. *)
Definition is_largest_upto (ws : list SyncWrite) (ackSeqno s : Z) : Prop :=
  (exists w, In w ws /\ seqno w = s) /\
  s <= ackSeqno /\
  (forall w, In w ws -> seqno w <= ackSeqno -> seqno w <= s).

(** The monitor of the test fixture: chain {active, replica}. *)
Definition fixture : t :=
  fst (registerReplicationChain empty ["active"; "replica"]).

(** The fixture after tracking seqnos 1 and 2 with requirement Majority. *)
Definition fixture_1_2 : t :=
  fst (addSyncWrite (fst (addSyncWrite fixture (testWrite 1 Majority)))
                    (testWrite 2 Majority)).

(** The fixture after tracking the sparse seqnos 1, 3 and 5. *)
Definition fixture_sparse : t :=
  fst (addSyncWrite
         (fst (addSyncWrite (fst (addSyncWrite fixture (testWrite 1 Majority)))
                            (testWrite 3 Majority)))
         (testWrite 5 Majority)).

(** The fixture after tracking seqno 1 with PersistToMajority and then
    seqno 2 with Majority. *)
Definition fixture_mixed : t :=
  fst (addSyncWrite (fst (addSyncWrite fixture (testWrite 1 PersistToMajority)))
                    (testWrite 2 Majority)).

(** [fixture_1_2] after the replica acknowledged {memory 1, disk 1}: seqno 1
    is committed, seqno 2 is tracked. *)
Definition fixture_acked : t :=
  fst (seqnoAckReceived fixture_1_2 "replica" 1 1).

End DurabilityMonitor.

(* ===================================================================== *)
(** * The scatter/gather list of a connection (daemon/connection.cc) *)
(* ===================================================================== *)

(** [addMsgHdr], [ensureIovSpace] and [addIov] with the bookkeeping they do
    on [iov], [iovused], [msglist] and [msgbytes].  A pointer into the [iov]
    array is the index it points at; a step the C++ leaves undefined (the
    back of an empty list, a write past the array) gives [None]. *)

Module MsgList.

(** What an entry points at: a place in the write pipe, in the key or in
    the value of an item (by offset from its start), or nothing yet. *)
Inductive ptr : Type :=
| Null
| InPipe (offset : Z)
| ItemKey (it : nat) (offset : Z)
| ItemValue (it : nat) (offset : Z).

#[export] Instance ptr_eq_dec : EqDecision ptr.
Proof. solve_decision. Defined.

(** [p + n] on a byte pointer. *)
Definition ptr_add (p : ptr) (n : Z) : ptr :=
  match p with
  | Null => Null
  | InPipe o => InPipe (o + n)
  | ItemKey it o => ItemKey it (o + n)
  | ItemValue it o => ItemValue it (o + n)
  end.

Record iovec : Type := { iov_base : ptr; iov_len : Z }.

(** [struct msghdr]: [msg_iov] points at an entry of the [iov] array and
    [msg_iovlen] counts the entries that belong to the header. *)
Record msghdr : Type := { msg_iov : nat; msg_iovlen : nat }.

Record t : Type := {
  iov      : list iovec;    (* std::vector<iovec>, all iov.size() entries *)
  iovused  : nat;
  msglist  : list msghdr;
  msgcurr  : nat;
  msgbytes : Z
}.

Definition zero_iovec : iovec := {| iov_base := Null; iov_len := 0 |}.

(** [addMsgHdr(reset)]: optionally forget every header, then append a
    zeroed header that points at [iov\[iovused\]]; [msgbytes] restarts. *)
Definition addMsgHdr (reset : bool) (s : t) : t :=
  let msgcurr1 := if reset then 0%nat else msgcurr s in
  let msglist1 := if reset then [] else msglist s in
  let iovused1 := if reset then 0%nat else iovused s in
  {| iov := iov s;
     iovused := iovused1;
     msglist := msglist1 ++ [ {| msg_iov := iovused1; msg_iovlen := 0 |} ];
     msgcurr := msgcurr1;
     msgbytes := 0 |}.

(** The loop of [ensureIovSpace] that points the headers at the new array:
    header [ii] starts where header [ii-1] ends. *)
Fixpoint repoint (iovnum : nat) (ms : list msghdr) : list msghdr :=
  match ms with
  | [] => []
  | m :: rest =>
      {| msg_iov := iovnum; msg_iovlen := msg_iovlen m |}
      :: repoint (iovnum + msg_iovlen m) rest
  end.

(** [ensureIovSpace]: with a free entry left nothing happens, otherwise the
    array doubles and the headers are pointed at it. *)
Definition ensureIovSpace (s : t) : t :=
  if (iovused s <? length (iov s))%nat then s
  else
    {| iov := iov s ++ replicate (length (iov s)) zero_iovec;
       iovused := iovused s;
       msglist := repoint 0 (msglist s);
       msgcurr := msgcurr s;
       msgbytes := msgbytes s |}.

(** [msglist.back()] with one more entry. *)
Fixpoint bump_back (ms : list msghdr) : list msghdr :=
  match ms with
  | [] => []
  | [m] => [ {| msg_iov := msg_iov m; msg_iovlen := S (msg_iovlen m) |} ]
  | m :: rest => m :: bump_back rest
  end.

Section WithIovMax.

Variable IOV_MAX : nat.      (* <limits.h> *)

(** [addIov(buf, len)]. *)
Definition addIov (buf : ptr) (len : Z) (s : t) : option t :=
  if len =? 0 then Some s
  else
    match last (msglist s) with
    | None => None
    | Some m =>
        (* We may need to start a new msghdr if this one is full. *)
        let s1 := if (msg_iovlen m =? IOV_MAX)%nat then addMsgHdr false s else s in
        let s2 := ensureIovSpace s1 in
        match last (msglist s2) with
        | None => None
        | Some m2 =>
            let slot := (msg_iov m2 + msg_iovlen m2)%nat in
            if (slot <? length (iov s2))%nat then
              Some {| iov := <[slot := {| iov_base := buf; iov_len := len |}]> (iov s2);
                      iovused := S (iovused s2);
                      msglist := bump_back (msglist s2);
                      msgcurr := msgcurr s2;
                      msgbytes := msgbytes s2 + len |}
            else None
        end
    end.

(** The headers lie one after the other in the array, from [start]. *)
Fixpoint contiguous (start : nat) (ms : list msghdr) : Prop :=
  match ms with
  | [] => True
  | m :: rest => msg_iov m = start /\ contiguous (start + msg_iovlen m) rest
  end.

Definition entries (ms : list msghdr) : nat :=
  fold_right (fun m n => (msg_iovlen m + n)%nat) 0%nat ms.

(** The state in which the list is built: there is a header to add to, the
    headers partition the used part of the array, none holds more than
    IOV_MAX entries, and the used part lies inside the (non-empty) array. *)
Definition wf (s : t) : Prop :=
  msglist s <> [] /\
  contiguous 0 (msglist s) /\
  entries (msglist s) = iovused s /\
  Forall (fun m => (msg_iovlen m <= IOV_MAX)%nat) (msglist s) /\
  (iovused s <= length (iov s))%nat /\
  (1 <= length (iov s))%nat.

End WithIovMax.

(** The entries handed to sendmsg so far, in order. *)
Definition used (s : t) : list iovec := take (iovused s) (iov s).

Definition queued_bytes (s : t) : Z :=
  fold_right (fun v n => iov_len v + n) 0 (used s).

(** A connection as its constructor leaves it, with an array of four
    entries, after the first [addMsgHdr(true)]. *)
Definition fresh : t :=
  addMsgHdr true
    {| iov := replicate 4 zero_iovec; iovused := 0; msglist := [];
       msgcurr := 0; msgbytes := 0 |}.

End MsgList.

(* ===================================================================== *)
(** * The DCP message producers of a connection (daemon/connection.cc) *)
(* ===================================================================== *)

(** [add_packet_to_send_pipe], [mutation], [deletionInner], [deletion],
    [deletionOrExpirationV2] and [releaseReservedItems] on the write pipe
    and the scatter/gather list of [MsgList].  Sizes are [size_t] in the
    source; they are unbounded here, the source's sums staying far below
    2^64 for buffers that fit in memory. *)

Module Producer.
Import MsgList.

Inductive Magic : Type := ClientRequest | AltClientRequest.

Inductive ClientOpcode : Type := DcpMutation | DcpDeletion | DcpExpiration.

Inductive DeleteSource : Type := Explicit | TTL.

(** The fields of [cb::mcbp::Request] that the producers set. *)
Record Request : Type := {
  magic     : Magic;
  opcode    : ClientOpcode;
  extlen    : Z;
  keylen    : Z;
  framingExtraslen : Z;
  bodylen   : Z;
  opaque    : Z;
  vbucket   : Z;
  cas       : Z;
  datatype  : Z
}.

(** [DocKey]: a view of a key, where its bytes are ([data()]) and what they
    are ([size()] of them). *)
Record DocKey : Type := {
  dk_data  : ptr;
  dk_bytes : list Byte.byte
}.

Definition dk_size (key : DocKey) : Z := Z.of_nat (length (dk_bytes key)).

Record item_info : Type := {
  info_key       : DocKey;
  info_value_len : Z;               (* info.value[0].iov_len *)
  info_nbytes    : Z;
  info_flags     : Z;
  info_exptime   : Z;
  info_cas       : Z;
  info_datatype  : Z
}.

Record t : Type := {
  collections   : bool;             (* isCollectionsSupported() *)
  pipe_free     : Z;                (* write->wsize() *)
  pipe_produced : Z;                (* bytes produced into the pipe so far *)
  msgs          : MsgList.t;
  reservedItems : list nat;
  sent          : list Request;     (* the headers copied into the pipe *)
  released      : list nat          (* the calls of the engine's release() *)
}.

Definition with_msgs (s : t) (m : MsgList.t) : t :=
  {| collections := collections s; pipe_free := pipe_free s;
     pipe_produced := pipe_produced s; msgs := m;
     reservedItems := reservedItems s; sent := sent s;
     released := released s |}.

Definition with_pipe (s : t) (free produced : Z) (hdrs : list Request) : t :=
  {| collections := collections s; pipe_free := free;
     pipe_produced := produced; msgs := msgs s;
     reservedItems := reservedItems s; sent := hdrs;
     released := released s |}.

Definition with_items (s : t) (reserved freed : list nat) : t :=
  {| collections := collections s; pipe_free := pipe_free s;
     pipe_produced := pipe_produced s; msgs := msgs s;
     reservedItems := reserved; sent := sent s;
     released := freed |}.

(** How a statement ends: it falls through with a value, the function
    returns, a [gsl::narrowing_error] is thrown, or the behaviour is
    undefined. *)
Inductive result (A : Type) : Type :=
| Normal (a : A) (s : t)
| Return (code : ENGINE_ERROR_CODE) (s : t)
| Throw (s : t)
| Undefined.
Arguments Normal {A} a s.
Arguments Return {A} code s.
Arguments Throw {A} s.
Arguments Undefined {A}.

Definition M (A : Type) : Type := t -> result A.

(** The connection as a call leaves it, unless its behaviour is undefined. *)
Definition state_of {A} (r : result A) : option t :=
  match r with
  | Normal _ s => Some s
  | Return _ s => Some s
  | Throw s => Some s
  | Undefined => None
  end.

#[export] Instance M_ret : MRet M := fun A a s => Normal a s.

#[export] Instance M_bind : MBind M := fun A B k m s =>
  match m s with
  | Normal a s' => k a s'
  | Return code s' => Return code s'
  | Throw s' => Throw s'
  | Undefined => Undefined
  end.

Definition gets {A} (f : t -> A) : M A := fun s => Normal (f s) s.

Definition return_ {A} (code : ENGINE_ERROR_CODE) : M A := fun s => Return code s.

Definition narrowM (w x : Z) : M Z :=
  fun s => match Connection.narrow w x with
           | Some v => Normal v s
           | None => Throw s
           end.

Definition when_ (b : bool) (m : M unit) : M unit := if b then m else mret tt.

(** The destructor of [cb::unique_item_ptr item(it, ItemDeleter)] when the
    pointer still owns the item: the engine's [release] is called. *)
Definition ItemDeleter (it : nat) : M unit :=
  fun s => Normal tt (with_items s (reservedItems s) (released s ++ [it])).

Definition releaseReservedItems (s : t) : t :=
  with_items s [] (released s ++ reservedItems s).

(** The buffers that [addIov] keeps of those it is given, in order: the
    ones whose length is not 0. *)
Definition buffers (vs : list iovec) : list iovec :=
  List.filter (fun v => negb (iov_len v =? 0)) vs.

(** The write head of the pipe: where [wbuf.data()] points. *)
Definition wbuf_data (s : t) : ptr := InPipe (pipe_produced s).

(** [sid ? a : b]. *)
Definition stream_id_set (sid : option Z) : bool :=
  match sid with Some _ => true | None => false end.

(** What the producers call and what they take the size of, defined in
    other files. *)
Class Env : Type := {
  IOV_MAX : nat;
  bucket_get_item_info : t -> nat -> option item_info;
  reserveItem : t -> nat -> bool * t;
  makeDocKeyWithoutCollectionID : DocKey -> DocKey;
  sizeof_DcpMutationPayload   : Z;
  sizeof_DcpDeletionV1Payload : Z;
  sizeof_DcpDeletionV2Payload : Z;
  sizeof_DcpExpirationPayload : Z;
  sizeof_DcpStreamIdFrameInfo : Z;
  leb128_max_size : Z     (* unsigned_leb128<CollectionIDType>::getMaxSize() *)
}.

Definition sizeof_Request : Z := 24.

Section WithEnv.
Context `{Env}.

(** [sid ? sizeof(cb::mcbp::DcpStreamIdFrameInfo) : 0]. *)
Definition frame_len (sid : option Z) : Z :=
  if stream_id_set sid then sizeof_DcpStreamIdFrameInfo else 0.

Definition addIov (buf : ptr) (len : Z) : M unit :=
  fun s => match MsgList.addIov IOV_MAX buf len (msgs s) with
           | Some m => Normal tt (with_msgs s m)
           | None => Undefined
           end.

(** [write->produce(f)]: [f] is given the free region (where it starts and
    how long it is) and returns how many bytes it wrote, the headers it
    copied there and the local it assigned through its capture. *)
Definition produce {A} (f : ptr -> Z -> M (Z * list Request * A)) : M A :=
  fun s =>
    match f (wbuf_data s) (pipe_free s) s with
    | Normal (n, hdrs, a) s' =>
        Normal a (with_pipe s' (pipe_free s' - n) (pipe_produced s' + n)
                            (sent s' ++ hdrs))
    | Return code s' => Return code s'
    | Throw s' => Throw s'
    | Undefined => Undefined
    end.

Definition add_packet_to_send_pipe (packet : list Request) (packet_size : Z)
  : M ENGINE_ERROR_CODE :=
  let ret0 := ENGINE_SUCCESS in
  produce (fun buffer buffer_size =>
             if buffer_size <? packet_size then mret (0, [], ENGINE_E2BIG)
             else
               addIov buffer packet_size;;
               mret (packet_size, packet, ret0)).

Definition reserveItemM (it : nat) : M bool :=
  fun s => let '(ok, s') := reserveItem s it in Normal ok s'.

(** The local [key] of the producers: [info.key], and on a connection
    without collections that key without its collection id. *)
Definition wire_DocKey (collections_supported : bool) (info : item_info)
  : DocKey :=
  if negb collections_supported
  then makeDocKeyWithoutCollectionID (info_key info)
  else info_key info.

(** The bytes of that key. *)
Definition wire_key (collections_supported : bool) (info : item_info)
  : list Byte.byte :=
  dk_bytes (wire_DocKey collections_supported info).

(** [mutation]; [sid] is [None] for a stream id that converts to false. *)
Definition mutation (opaque_ : Z) (it : nat) (vbucket_ : Z)
    (by_seqno rev_seqno lock_time : Z) (nmeta : Z) (nru : Z)
    (sid : option Z) : M unit :=
  got ← gets (fun s => bucket_get_item_info s it);
  match got with
  | None => ItemDeleter it;; return_ ENGINE_FAILED
  | Some info =>
      let buffer_size := info_value_len info in
      reserved ← reserveItemM it;
      when_ (negb reserved) (ItemDeleter it;; return_ ENGINE_FAILED);;
      (* item.release() *)
      supported ← gets collections;
      let key := wire_DocKey supported info in
      let key_size := dk_size key in
      exptime ← narrowM 32 (info_exptime info);
      let sizeof_extras := sizeof_DcpMutationPayload in
      let frame := frame_len sid in
      extlen_ ← narrowM 8 sizeof_extras;
      keylen_ ← narrowM 16 key_size;
      bodylen_ ← narrowM 32 (sizeof_extras + key_size + nmeta + buffer_size + frame);
      let req := {| magic := if stream_id_set sid
                             then AltClientRequest else ClientRequest;
                    opcode := DcpMutation;
                    extlen := extlen_; keylen := keylen_;
                    framingExtraslen := frame;
                    bodylen := bodylen_; opaque := opaque_;
                    vbucket := vbucket_; cas := info_cas info;
                    datatype := info_datatype info |} in
      let ret0 := ENGINE_SUCCESS in
      ret ← produce (fun wbuf wbuf_size =>
               let headerSize := sizeof_extras + sizeof_Request + nmeta + frame in
               if wbuf_size <? headerSize then mret (0, [], ENGINE_E2BIG)
               else
                 (* the header (which includes extras, optional
                    frame-extra and optional nmeta) *)
                 addIov wbuf headerSize;;
                 (* the key *)
                 addIov (dk_data key) key_size;;
                 (* the value *)
                 addIov (ItemValue it 0) buffer_size;;
                 mret (headerSize, [req], ret0));
      return_ ret
  end.

(** [deletionInner(info, packet, extendedMeta, key)]; [req] is the header
    that [packet] starts with, [it] the item that [info] describes. *)
Definition deletionInner (it : nat) (info : item_info) (req : Request)
    (packet_size extendedMeta_size : Z) (key : DocKey)
  : M ENGINE_ERROR_CODE :=
  let ret0 := ENGINE_SUCCESS in
  produce (fun buffer buffer_size =>
             if buffer_size <? packet_size + leb128_max_size + extendedMeta_size
             then mret (0, [], ENGINE_E2BIG)
             else
               (* the header + collection-ID (stored in buffer) *)
               addIov buffer packet_size;;
               (* the key *)
               addIov (dk_data key) (dk_size key);;
               (* the optional payload (xattr) *)
               when_ (0 <? info_nbytes info)
                     (addIov (ItemValue it 0) (info_nbytes info));;
               (* the optional meta section *)
               when_ (0 <? extendedMeta_size)
                     (addIov (ptr_add buffer packet_size) extendedMeta_size);;
               mret (packet_size + extendedMeta_size, [req], ret0)).

Definition deletion (opaque_ : Z) (it : nat) (vbucket_ : Z)
    (by_seqno rev_seqno : Z) (nmeta : Z) (sid : option Z) : M unit :=
  got ← gets (fun s => bucket_get_item_info s it);
  match got with
  | None => ItemDeleter it;; return_ ENGINE_FAILED
  | Some info =>
      reserved ← reserveItemM it;
      when_ (negb reserved) (ItemDeleter it;; return_ ENGINE_FAILED);;
      (* Should be using the V2 callback *)
      supported ← gets collections;
      when_ supported (ItemDeleter it;; return_ ENGINE_FAILED);;
      (* item.release() *)
      supported' ← gets collections;
      let key := wire_DocKey supported' info in
      let key_size := dk_size key in
      let frame := frame_len sid in
      extlen_ ← narrowM 8 sizeof_DcpDeletionV1Payload;
      keylen_ ← narrowM 16 key_size;
      bodylen_ ← narrowM 32 (sizeof_DcpDeletionV1Payload + key_size + nmeta
                             + info_nbytes info + frame);
      let req := {| magic := if stream_id_set sid
                             then AltClientRequest else ClientRequest;
                    opcode := DcpDeletion;
                    extlen := extlen_; keylen := keylen_;
                    framingExtraslen := frame;
                    bodylen := bodylen_; opaque := opaque_;
                    vbucket := vbucket_; cas := info_cas info;
                    datatype := info_datatype info |} in
      let packet_size := sizeof_Request + sizeof_DcpDeletionV1Payload + frame in
      ret ← deletionInner it info req packet_size nmeta key;
      return_ ret
  end.

(** The local [payloadLen] of [deletionOrExpirationV2]. *)
Definition payloadLen (deleteSource : DeleteSource) : Z :=
  match deleteSource with
  | Explicit => sizeof_DcpDeletionV2Payload
  | TTL => sizeof_DcpExpirationPayload
  end.

Definition deletionOrExpirationV2 (opaque_ : Z) (it : nat) (vbucket_ : Z)
    (by_seqno rev_seqno delete_time : Z) (deleteSource : DeleteSource)
    (sid : option Z) : M unit :=
  got ← gets (fun s => bucket_get_item_info s it);
  match got with
  | None => ItemDeleter it;; return_ ENGINE_FAILED
  | Some info =>
      reserved ← reserveItemM it;
      when_ (negb reserved) (ItemDeleter it;; return_ ENGINE_FAILED);;
      (* item.release() *)
      supported ← gets collections;
      let key := wire_DocKey supported info in
      let key_size := dk_size key in
      let payloadLen := payloadLen deleteSource in
      let frameInfoLen := frame_len sid in
      extlen_ ← narrowM 8 payloadLen;
      keylen_ ← narrowM 16 key_size;
      keylen16 ← narrowM 16 key_size;
      bodylen_ ← narrowM 32 (payloadLen + keylen16 + info_nbytes info + frameInfoLen);
      let req := {| magic := if stream_id_set sid
                             then AltClientRequest else ClientRequest;
                    opcode := match deleteSource with
                              | Explicit => DcpDeletion
                              | TTL => DcpExpiration
                              end;
                    extlen := extlen_; keylen := keylen_;
                    framingExtraslen := frameInfoLen;
                    bodylen := bodylen_; opaque := opaque_;
                    vbucket := vbucket_; cas := info_cas info;
                    datatype := info_datatype info |} in
      let size := sizeof_Request + frameInfoLen + payloadLen in
      ret ← deletionInner it info req size 0 key;
      return_ ret
  end.

Definition deletion_v2 (opaque_ : Z) (it : nat) (vbucket_ : Z)
    (by_seqno rev_seqno delete_time : Z) (sid : option Z) : M unit :=
  deletionOrExpirationV2 opaque_ it vbucket_ by_seqno rev_seqno delete_time
                         Explicit sid.

Definition expiration (opaque_ : Z) (it : nat) (vbucket_ : Z)
    (by_seqno rev_seqno delete_time : Z) (sid : option Z) : M unit :=
  deletionOrExpirationV2 opaque_ it vbucket_ by_seqno rev_seqno delete_time
                         TTL sid.

End WithEnv.

(** An environment for the examples: IOV_MAX is 2, every item is as
    [example_info] describes it (the key is the three bytes the item
    holds, the collection id 0 and "k1") and is appended to the reserved
    items, a key without its collection id is the view past the first
    byte, and the payload sizes are those of the protocol's packed
    structs. *)
Definition example_info (it : nat) : item_info :=
  {| info_key := {| dk_data := ItemKey it 0;
                    dk_bytes := [Byte.x00; Byte.x6b; Byte.x31] |};
     info_value_len := 5; info_nbytes := 5; info_flags := 0;
     info_exptime := 0; info_cas := 1234; info_datatype := 0 |}.

Definition example_env : Env :=
  {| IOV_MAX := 2;
     bucket_get_item_info := fun _ it => Some (example_info it);
     reserveItem := fun s it =>
       (true, with_items s (reservedItems s ++ [it]) (released s));
     makeDocKeyWithoutCollectionID := fun key =>
       {| dk_data := ptr_add (dk_data key) 1;
          dk_bytes := tail (dk_bytes key) |};
     sizeof_DcpMutationPayload := 31;
     sizeof_DcpDeletionV1Payload := 18;
     sizeof_DcpDeletionV2Payload := 21;
     sizeof_DcpExpirationPayload := 20;
     sizeof_DcpStreamIdFrameInfo := 3;
     leb128_max_size := 5 |}.

Definition example_conn (supported : bool) (free : Z) : t :=
  {| collections := supported; pipe_free := free; pipe_produced := 0;
     msgs := MsgList.fresh; reservedItems := []; sent := [];
     released := [] |}.

End Producer.

(* ===================================================================== *)
(** * Sending the scatter/gather list (daemon/connection.cc) *)
(* ===================================================================== *)

(** [adjust_msghdr], [Connection::sendmsg] and [Connection::transmit] on
    the list of [MsgList].  The socket, OpenSSL and libevent are reached
    through [Env]; a read or write outside the [iov] array is undefined
    and gives [None]. *)

Module Transmit.
Import MsgList.

Inductive TransmitResult : Type := Complete | Incomplete | SoftError | HardError.

(** The write pipe ([cb::Pipe]), the socket with its SSL state, and the
    calls on them that are defined in other files. *)
Class Env : Type := {
  Pipe : Type;
  rdata_data : Pipe -> ptr;                  (* pipe.rdata().data() *)
  consumed   : Pipe -> Z -> Pipe;
  Net : Type;
  ssl_isEnabled         : Net -> bool;
  ssl_drainBioSendPipe  : Net -> Net;
  ssl_morePendingOutput : Net -> bool;
  ssl_hasError          : Net -> bool;
  sslWrite    : Net -> ptr -> Z -> Z * Net;
  net_sendmsg : Net -> list iovec -> Z * Net;    (* cb::net::sendmsg *)
  is_blocking : Net -> bool;   (* cb::net::is_blocking(get_socket_error()) *)
  updateEvent : Net -> bool * Net
}.

Definition bytes_of (es : list iovec) : Z :=
  fold_right (fun v n => iov_len v + n) 0 es.

(** The entries that belong to a header. *)
Definition entries_of (s : MsgList.t) (m : msghdr) : option (list iovec) :=
  if (msg_iov m + msg_iovlen m <=? length (iov s))%nat
  then Some (take (msg_iovlen m) (drop (msg_iov m) (iov s)))
  else None.

Section WithEnv.
Context `{Env}.

Record t : Type := {
  msgs          : MsgList.t;
  pipe          : Pipe;
  net           : Net;
  closing       : bool;        (* setState(StateMachine::State::closing) *)
  bytes_written : Z;           (* get_thread_stats(this)->bytes_written *)
  totalSend     : Z
}.

Definition with_net (s : t) (n : Net) : t :=
  {| msgs := msgs s; pipe := pipe s; net := n; closing := closing s;
     bytes_written := bytes_written s; totalSend := totalSend s |}.

Definition with_msgs (s : t) (m : MsgList.t) (p : Pipe) : t :=
  {| msgs := m; pipe := p; net := net s; closing := closing s;
     bytes_written := bytes_written s; totalSend := totalSend s |}.

Definition set_closing (s : t) : t :=
  {| msgs := msgs s; pipe := pipe s; net := net s; closing := true;
     bytes_written := bytes_written s; totalSend := totalSend s |}.

Definition add_written (s : t) (n : Z) : t :=
  {| msgs := msgs s; pipe := pipe s; net := net s; closing := closing s;
     bytes_written := bytes_written s + n; totalSend := totalSend s |}.

Definition add_totalSend (s : t) (n : Z) : t :=
  {| msgs := msgs s; pipe := pipe s; net := net s; closing := closing s;
     bytes_written := bytes_written s; totalSend := totalSend s + n |}.

Definition set_msgcurr (m : MsgList.t) (c : nat) : MsgList.t :=
  {| iov := iov m; iovused := iovused m; msglist := msglist m;
     msgcurr := c; msgbytes := msgbytes m |}.

(** The first loop of [adjust_msghdr], once per entry of the header at
    most: completed entries are taken off the front. *)
Fixpoint adjust_entries (count : nat) (iovs : list iovec) (idx : nat)
    (nbytes : Z) (p : Pipe) : option (nat * nat * Z * Pipe) :=
  match count with
  | O => Some (O, idx, nbytes, p)
  | S count' =>
      match iovs !! idx with
      | None => None
      | Some v =>
          if iov_len v <=? nbytes then
            let p' := if bool_decide (rdata_data p = iov_base v)
                      then consumed p (iov_len v) else p in
            adjust_entries count' iovs (S idx) (nbytes - iov_len v) p'
          else Some (count, idx, nbytes, p)
      end
  end.

(** [adjust_msghdr(pipe, m, nbytes)], [m] being [&msglist\[mi\]]: the
    entry count left in the current entry, the pipe and the list. *)
Definition adjust_msghdr (p : Pipe) (s : MsgList.t) (mi : nat) (nbytes : Z)
  : option (Z * Pipe * MsgList.t) :=
  m ← msglist s !! mi;
  '(count, idx, nbytes1, p1) ←
    adjust_entries (msg_iovlen m) (iov s) (msg_iov m) nbytes p;
  let msglist' := <[mi := {| msg_iov := idx; msg_iovlen := count |}]> (msglist s) in
  v ← iov s !! idx;
  if 0 <? nbytes1 then
    (* Might have written just part of the last iovec entry *)
    let p2 := if bool_decide (rdata_data p1 = iov_base v)
              then consumed p1 nbytes1 else p1 in
    let v' := {| iov_base := ptr_add (iov_base v) nbytes1;
                 iov_len := iov_len v - nbytes1 |} in
    Some (iov_len v', p2,
          {| iov := <[idx := v']> (iov s); iovused := iovused s;
             msglist := msglist'; msgcurr := msgcurr s;
             msgbytes := msgbytes s |})
  else
    Some (iov_len v, p1,
          {| iov := iov s; iovused := iovused s;
             msglist := msglist'; msgcurr := msgcurr s;
             msgbytes := msgbytes s |}).

(** The loop of [sendmsg] over the entries on an SSL connection. *)
Fixpoint ssl_send (es : list iovec) (res : Z) (n : Net) : Z * Net :=
  match es with
  | [] => (res, ssl_drainBioSendPipe n)
  | v :: rest =>
      let '(sent, n') := sslWrite n (iov_base v) (iov_len v) in
      if 0 <? sent then ssl_send rest (res + sent) n'
      else (if 0 <? res then res else -1, n')
  end.

Definition sendmsg (s : t) (m : msghdr) : option (Z * t) :=
  es ← entries_of (msgs s) m;
  if ssl_isEnabled (net s) then
    let '(res, n') := ssl_send es 0 (net s) in
    Some (res, with_net s n')
  else
    let '(res, n') := net_sendmsg (net s) es in
    let s' := with_net s n' in
    Some (res, if 0 <? res then add_totalSend s' res else s').

(** [while (msgcurr < msglist.size() && msglist\[msgcurr\].msg_iovlen == 0)
    msgcurr++], over the headers from [msgcurr] on. *)
Fixpoint skip_finished (rest : list msghdr) (msgcurr : nat) : nat :=
  match rest with
  | [] => msgcurr
  | m :: rest' =>
      if (msg_iovlen m =? 0)%nat then skip_finished rest' (S msgcurr)
      else msgcurr
  end.

(** [if (ssl.hasError() || !updateEvent(EV_WRITE | EV_PERSIST))] with its
    two ways out; [ssl_checked] is false where the source only calls
    [updateEvent]. *)
Definition soft_or_hard (ssl_checked : bool) (s : t) : TransmitResult * t :=
  if ssl_checked && ssl_hasError (net s) then (HardError, set_closing s)
  else
    let '(ok, n') := updateEvent (net s) in
    if negb ok then (HardError, set_closing (with_net s n'))
    else (SoftError, with_net s n').

Definition transmit (s : t) : option (TransmitResult * t) :=
  let s0 := if ssl_isEnabled (net s)
            then with_net s (ssl_drainBioSendPipe (net s)) else s in
  if ssl_isEnabled (net s) && ssl_morePendingOutput (net s0) then
    Some (soft_or_hard true s0)
  else
    let msgcurr1 :=
      skip_finished (drop (msgcurr (msgs s0)) (msglist (msgs s0)))
                    (msgcurr (msgs s0)) in
    let s1 := with_msgs s0 (set_msgcurr (msgs s0) msgcurr1) (pipe s0) in
    match msglist (msgs s1) !! msgcurr1 with
    | None => Some (Complete, s1)
    | Some m =>
        '(res, s2) ← sendmsg s1 m;
        if 0 <? res then
          let s3 := add_written s2 res in
          '(rest_len, p', msgs') ← adjust_msghdr (pipe s3) (msgs s3) msgcurr1 res;
          let s4 := with_msgs s3 msgs' p' in
          if rest_len =? 0 then
            let s5 := with_msgs s4 (set_msgcurr msgs' (S msgcurr1)) p' in
            if (S msgcurr1 =? length (msglist msgs'))%nat then
              (* We sent the final chunk of data *)
              if ssl_isEnabled (net s5) && ssl_morePendingOutput (net s5)
              then Some (soft_or_hard true s5)
              else Some (Complete, s5)
            else Some (Incomplete, s5)
          else Some (Incomplete, s4)
        else if (res =? -1) && is_blocking (net s2) then
          Some (soft_or_hard false s2)
        else
          (* res == 0, or res == -1 and a real error *)
          Some (HardError, set_closing s2)
    end.

(** The bytes a header still has to send. *)
Definition pending (s : MsgList.t) (m : msghdr) : Z :=
  bytes_of (take (msg_iovlen m) (drop (msg_iov m) (iov s))).

(** The header lies inside the array and has no empty entry (addIov adds
    none). *)
Definition sendable (s : MsgList.t) (m : msghdr) : Prop :=
  (msg_iov m + msg_iovlen m <= length (iov s))%nat /\
  Forall (fun v => 0 < iov_len v)
         (take (msg_iovlen m) (drop (msg_iov m) (iov s))).

End WithEnv.

(** A socket for the examples: its state is the number of bytes it takes
    per call; no SSL; the pipe is its read offset. *)
Definition example_env : Env :=
  {| Pipe := Z;
     rdata_data := InPipe;
     consumed := Z.add;
     Net := Z;
     ssl_isEnabled := fun _ => false;
     ssl_drainBioSendPipe := fun n => n;
     ssl_morePendingOutput := fun _ => false;
     ssl_hasError := fun _ => false;
     sslWrite := fun n _ len => (Z.min n len, n);
     net_sendmsg := fun n es => (Z.min n (bytes_of es), n);
     is_blocking := fun _ => false;
     updateEvent := fun n => (true, n) |}.

(** A list of one header with a 24 byte packet in the pipe and a 5 byte
    value, in an array of four entries. *)
Definition example_list : MsgList.t :=
  {| iov := [ {| iov_base := InPipe 0; iov_len := 24 |};
              {| iov_base := ItemValue 1 0; iov_len := 5 |};
              zero_iovec; zero_iovec ];
     iovused := 2;
     msglist := [ {| msg_iov := 0; msg_iovlen := 2 |} ];
     msgcurr := 0; msgbytes := 29 |}.

Definition example_conn (per_call : Z) : t (H := example_env) :=
  {| msgs := example_list;
     pipe := (0 : Pipe (Env := example_env));
     net := (per_call : Net (Env := example_env));
     closing := false; bytes_written := 0; totalSend := 0 |}.

End Transmit.

(* ===================================================================== *)
(** * KVBucket: what is assumed of collaborators, and examples *)
(* ===================================================================== *)

Module KVBucketAssumptions.
Import VB.

(** [vb'] differs from [vb] at most in what [updateFromManifest] is there
    to change (the manifest and what it queues for the flusher): the
    identity, the state, the failover table and the persisted positions
    are those of [vb]. *)
Definition manifest_update_only (vb vb' : VBucket) : Prop :=
  id vb' = id vb /\
  state vb' = state vb /\
  failovers vb' = failovers vb /\
  persistedSnapshot vb' = persistedSnapshot vb /\
  persistenceSeqno vb' = persistenceSeqno vb /\
  openCheckpointId (checkpointManager vb')
  = openCheckpointId (checkpointManager vb) /\
  bloomFilter vb' = bloomFilter vb.

(** Collaborators for the examples that know no collection at all. *)
Definition no_collection_deps : KVBucket.Deps :=
  {| KVBucket.collections_deps := Collections.example_deps;
     KVBucket.lockCollections := fun vb _ =>
       {| KVBucket.valid := false;
          KVBucket.handleManifestUid := manifestUid vb |};
     KVBucket.processExpiryTime := fun _ itm _ => itm;
     KVBucket.vb_set := fun vb _ _ => (ENGINE_SUCCESS, vb);
     KVBucket.vb_add := fun vb _ _ => (ENGINE_SUCCESS, vb);
     KVBucket.vb_replace := fun vb _ _ => (ENGINE_SUCCESS, vb);
     KVBucket.vb_deleteItem := fun vb _ _ _ => (ENGINE_SUCCESS, vb);
     KVBucket.resetSnapshotRange := fun cm => cm;
     KVBucket.makeVBucket := fun i s n =>
       with_failovers (Collections.example_vb i s 0)
                      {| max_entries := n; entries := [] |};
     KVBucket.random_uuid := fun n => 1000 + n |}.

(** A bucket of two partitions: one in state [s] at manifest 7, one
    replica; and one of two empty slots. *)
Definition two_partitions (s : vbucket_state_t) : KVBucket.t :=
  KVBucket.example_bucket
    [ Some (Collections.example_vb 0 s 7);
      Some (Collections.example_vb 1 vbucket_state_replica 0) ].

Definition empty_bucket : KVBucket.t := KVBucket.example_bucket [None; None].

Definition cas_item : KVBucket.Item :=
  {| KVBucket.itm_vbucket := 0; KVBucket.itm_key := "k1";
     KVBucket.itm_cas := 5; KVBucket.itm_exptime := 0;
     KVBucket.itm_value := "v1" |}.

End KVBucketAssumptions.

(* ===================================================================== *)
(** * KVBucket: reads, meta operations and key locks (kv_bucket.cc) *)
(* ===================================================================== *)

(** [getInternal], [getMetaData], [setWithMeta], [deleteWithMeta],
    [addBackfillItem], [getAndUpdateTtl], [getLocked], [unlockKey],
    [evictKey], [getKeyStats], [validateKey] and [forceMaxCas].  The
    arguments that a function only hands on to the partition are left to
    the partition-level operation. *)

Module KVBucketOps.
Import VB KVBucket.

Record GetValue : Type := {
  gv_item   : option Item;
  gv_status : ENGINE_ERROR_CODE
}.

(** [cb::mcbp::Status], the values [evictKey] can answer. *)
Inductive Status : Type :=
| StatusSuccess | StatusKeyEnoent | StatusKeyEexists
| StatusNotMyVbucket | StatusUnknownCollection.

Inductive item_eviction_policy_t : Type := VALUE_ONLY | FULL_EVICTION.

(** What the bucket reads of a [StoredValue]. *)
Record StoredValue : Type := {
  sv_cas      : Z;
  sv_flags    : Z;
  sv_resident : bool;
  sv_data     : list Byte.byte         (* getValue()->getData() *)
}.

(** The item read back from disk that [validateKey] is given. *)
Record DiskItem : Type := {
  d_flags : Z;
  d_data  : list Byte.byte             (* getData(), getNBytes() long *)
}.

(** Calls that leave the bucket and counters of a partition that are not
    part of [VBucket], in the order they are made. *)
Inductive Call : Type :=
| IncrOpsGet (vbid : nat)              (* vb->opsGet++ *)
| CheckAndMaybeFreeMemory.

Record t : Type := {
  kv              : KVBucket.t;
  calls           : list Call;
  eviction_policy : item_eviction_policy_t
}.

Definition with_kv (s : t) (k : KVBucket.t) : t :=
  {| kv := k; calls := calls s; eviction_policy := eviction_policy s |}.

Definition call (s : t) (c : Call) : t :=
  {| kv := kv s; calls := calls s ++ [c];
     eviction_policy := eviction_policy s |}.

(** [++stats.numNotMyVBuckets]. *)
Definition countNotMyVBucket (s : t) : t := with_kv s (incrNotMyVBuckets (kv s)).

(** A change made through the partition handle. *)
Definition put (s : t) (vbid : nat) (vb : VBucket) : t :=
  with_kv s (store (kv s) vbid vb).

(** [engine.setErrorContext(cookie, getUnknownCollectionErrorContext(uid))]. *)
Definition setErrorContext (s : t) (cookie : nat) (uid : Z) : t :=
  with_kv s (emit (kv s) (SetErrorContext cookie uid)).

#[export] Instance byte_eq_decision : EqDecision Byte.byte := Byte.byte_eq_dec.

(** [memcmp(a, b, n) != 0]; reading past the end of a buffer is undefined. *)
Definition memcmp_differs (a b : list Byte.byte) (n : nat) : option bool :=
  if (n <=? length a)%nat && (n <=? length b)%nat
  then Some (negb (bool_decide (take n a = take n b)))
  else None.

(** The partition-level operations, the hash-table accessors and the
    constants that the bucket uses from other files. *)
Class Deps : Type := {
  kv_deps :: KVBucket.Deps;
  HONOR_STATES     : Z;                (* get_options_t *)
  TRACK_STATISTICS : Z;
  isValidCas : Z -> bool;              (* Item::isValidCas *)
  processExpiryTime_t : VBucket -> Z -> Z -> Z;
  vb_getInternal     : VBucket -> string -> nat -> Z -> GetValue * VBucket;
  vb_getMetaData     : VBucket -> string -> nat -> ENGINE_ERROR_CODE * VBucket;
  vb_setWithMeta     : VBucket -> Item -> Z -> nat -> ENGINE_ERROR_CODE * VBucket;
  vb_deleteWithMeta  : VBucket -> string -> Z -> nat -> ENGINE_ERROR_CODE * VBucket;
  vb_addBackfillItem : VBucket -> Item -> ENGINE_ERROR_CODE * VBucket;
  vb_getAndUpdateTtl : VBucket -> string -> nat -> Z -> GetValue * VBucket;
  vb_getLocked       : VBucket -> string -> Z -> Z -> nat -> GetValue * VBucket;
  vb_evictKey        : VBucket -> string -> Status * VBucket;
  vb_getKeyStats     : VBucket -> string -> nat -> ENGINE_ERROR_CODE * VBucket;
  vb_forceMaxCas     : VBucket -> Z -> VBucket;
  fetchValidValue    : VBucket -> string -> option StoredValue * VBucket;
  isLogicallyNonExistent : StoredValue -> bool;
  cleanupIfTemporaryItem : VBucket -> string -> VBucket;
  isLocked : StoredValue -> Z -> bool;
  unlock   : VBucket -> string -> VBucket
}.

Section WithDeps.
Context `{Deps}.

Definition not_my_vbucket : GetValue :=
  {| gv_item := None; gv_status := ENGINE_NOT_MY_VBUCKET |}.

Definition failed (code : ENGINE_ERROR_CODE) : GetValue :=
  {| gv_item := None; gv_status := code |}.

(** The collections read scope of the operations that set an error
    context: [unknown] is what an unknown collection is answered with. *)
Definition collections_read_scope {R : Type} (s : t) (vbid : nat)
    (vb : VBucket) (key : string) (cookie : nat) (unknown : R)
    (op : VBucket -> R * VBucket) : R * t :=
  let cHandle := lockCollections vb key in
  if negb (valid cHandle) then
    (unknown, setErrorContext s cookie (handleManifestUid cHandle))
  else
    let '(r, vb') := op vb in (r, put s vbid vb').

Definition getInternal (s : t) (key : string) (vbucket : nat) (cookie : nat)
    (allowedState : vbucket_state_t) (options : Z) : GetValue * t :=
  let disallowedState :=
    if bool_decide (allowedState = vbucket_state_active)
    then vbucket_state_replica else vbucket_state_active in
  match getVBucket (kv s) vbucket with
  | None => (not_my_vbucket, countNotMyVBucket s)
  | Some vb =>
      let honorStates := negb (Z.land options HONOR_STATES =? 0) in
      let continue (s : t) (vb : VBucket) :=
        collections_read_scope s vbucket vb key cookie
          (failed ENGINE_UNKNOWN_COLLECTION)
          (fun vb => vb_getInternal vb key cookie options) in
      if honorStates then
        let vbState := getState vb in
        if bool_decide (vbState = vbucket_state_dead) then
          (not_my_vbucket, countNotMyVBucket s)
        else if bool_decide (vbState = disallowedState) then
          (not_my_vbucket, countNotMyVBucket s)
        else if bool_decide (vbState = vbucket_state_pending) then
          let '(queued, vb') := addPendingOp vb cookie in
          let s' := put s vbucket vb' in
          if queued then
            (failed ENGINE_EWOULDBLOCK,
             if negb (Z.land options TRACK_STATISTICS =? 0)
             then call s' (IncrOpsGet vbucket) else s')
          else continue s' vb'
        else continue s vb
      else continue s vb
  end.

Definition getMetaData (s : t) (key : string) (vbucket : nat) (cookie : nat)
  : ENGINE_ERROR_CODE * t :=
  match getVBucket (kv s) vbucket with
  | None => (ENGINE_NOT_MY_VBUCKET, countNotMyVBucket s)
  | Some vb =>
      if bool_decide (getState vb = vbucket_state_dead)
         || bool_decide (getState vb = vbucket_state_replica) then
        (ENGINE_NOT_MY_VBUCKET, countNotMyVBucket s)
      else
        collections_read_scope s vbucket vb key cookie
          ENGINE_UNKNOWN_COLLECTION
          (fun vb => vb_getMetaData vb key cookie)
  end.

(** The admission that [setWithMeta] and [deleteWithMeta] share, word for
    word; [continue] is the rest of the function. *)
Definition with_meta_admission (s : t) (vbucket : nat) (cookie : nat)
    (permittedVBStates : vbucket_state_t -> bool)
    (continue : t -> VBucket -> ENGINE_ERROR_CODE * t)
  : ENGINE_ERROR_CODE * t :=
  match getVBucket (kv s) vbucket with
  | None => (ENGINE_NOT_MY_VBUCKET, countNotMyVBucket s)
  | Some vb =>
      if negb (permittedVBStates (getState vb)) then
        if bool_decide (getState vb = vbucket_state_pending) then
          let '(queued, vb') := addPendingOp vb cookie in
          let s' := put s vbucket vb' in
          if queued then (ENGINE_EWOULDBLOCK, s')
          else continue s' vb'
        else (ENGINE_NOT_MY_VBUCKET, countNotMyVBucket s)
      else if isTakeoverBackedUp vb then
        (ENGINE_TMPFAIL, s)
      else continue s vb
  end.

Definition setWithMeta (s : t) (itm : Item) (cas : Z) (cookie : nat)
    (permittedVBStates : vbucket_state_t -> bool) : ENGINE_ERROR_CODE * t :=
  with_meta_admission s (itm_vbucket itm) cookie permittedVBStates
    (fun s vb =>
       (* check for the incoming item's CAS validity *)
       if negb (isValidCas (itm_cas itm)) then (ENGINE_KEY_EEXISTS, s)
       else
         let '(rv, s1) :=
           let cHandle := lockCollections vb (itm_key itm) in
           if negb (valid cHandle) then
             (ENGINE_UNKNOWN_COLLECTION,
              setErrorContext s cookie (handleManifestUid cHandle))
           else
             let '(rv, vb') :=
               vb_setWithMeta vb
                 (processExpiryTime vb itm (maxTtl (config (kv s))))
                 cas cookie in
             (rv, put s (itm_vbucket itm) vb') in
         if bool_decide (rv = ENGINE_SUCCESS)
         then (rv, call s1 CheckAndMaybeFreeMemory)
         else (rv, s1)).

Definition deleteWithMeta (s : t) (key : string) (cas : Z) (vbucket : nat)
    (cookie : nat) (permittedVBStates : vbucket_state_t -> bool)
    (itemMeta_cas : Z) : ENGINE_ERROR_CODE * t :=
  with_meta_admission s vbucket cookie permittedVBStates
    (fun s vb =>
       (* check for the incoming item's CAS validity *)
       if negb (isValidCas itemMeta_cas) then (ENGINE_KEY_EEXISTS, s)
       else
         collections_read_scope s vbucket vb key cookie
           ENGINE_UNKNOWN_COLLECTION
           (fun vb => vb_deleteWithMeta vb key cas cookie)).

Definition addBackfillItem (s : t) (itm : Item) : ENGINE_ERROR_CODE * t :=
  match getVBucket (kv s) (itm_vbucket itm) with
  | None => (ENGINE_NOT_MY_VBUCKET, countNotMyVBucket s)
  | Some vb =>
      if bool_decide (getState vb = vbucket_state_dead)
         || bool_decide (getState vb = vbucket_state_active) then
        (ENGINE_NOT_MY_VBUCKET, countNotMyVBucket s)
      else if negb (isValidCas (itm_cas itm)) then
        (ENGINE_KEY_EEXISTS, s)
      else
        let '(rc, vb') := vb_addBackfillItem vb itm in
        (rc, put s (itm_vbucket itm) vb')
  end.

Definition getAndUpdateTtl (s : t) (key : string) (vbucket : nat)
    (cookie : nat) (exptime : Z) : GetValue * t :=
  match getVBucket (kv s) vbucket with
  | None => (not_my_vbucket, countNotMyVBucket s)
  | Some vb =>
      let continue (s : t) (vb : VBucket) :=
        collections_read_scope s vbucket vb key cookie
          (failed ENGINE_UNKNOWN_COLLECTION)
          (fun vb => vb_getAndUpdateTtl vb key cookie
                       (processExpiryTime_t vb exptime
                                            (maxTtl (config (kv s))))) in
      if bool_decide (getState vb = vbucket_state_dead) then
        (not_my_vbucket, countNotMyVBucket s)
      else if bool_decide (getState vb = vbucket_state_replica) then
        (not_my_vbucket, countNotMyVBucket s)
      else if bool_decide (getState vb = vbucket_state_pending) then
        let '(queued, vb') := addPendingOp vb cookie in
        let s' := put s vbucket vb' in
        if queued then (failed ENGINE_EWOULDBLOCK, s')
        else continue s' vb'
      else continue s vb
  end.

Definition getLocked (s : t) (key : string) (vbucket : nat)
    (currentTime lockTimeout : Z) (cookie : nat) : GetValue * t :=
  match getVBucket (kv s) vbucket with
  | None => (not_my_vbucket, countNotMyVBucket s)
  | Some vb =>
      if bool_decide (getState vb <> vbucket_state_active) then
        (not_my_vbucket, countNotMyVBucket s)
      else
        collections_read_scope s vbucket vb key cookie
          (failed ENGINE_UNKNOWN_COLLECTION)
          (fun vb => vb_getLocked vb key currentTime lockTimeout cookie)
  end.

Definition unlockKey (s : t) (key : string) (vbucket : nat) (cas : Z)
    (currentTime : Z) (cookie : nat) : ENGINE_ERROR_CODE * t :=
  match getVBucket (kv s) vbucket with
  | None => (ENGINE_NOT_MY_VBUCKET, countNotMyVBucket s)
  | Some vb =>
      if bool_decide (getState vb <> vbucket_state_active) then
        (ENGINE_NOT_MY_VBUCKET, countNotMyVBucket s)
      else
        let cHandle := lockCollections vb key in
        if negb (valid cHandle) then
          (ENGINE_UNKNOWN_COLLECTION,
           setErrorContext s cookie (handleManifestUid cHandle))
        else
          let '(v, vb1) := fetchValidValue vb key in
          match v with
          | Some v =>
              if isLogicallyNonExistent v then
                (ENGINE_KEY_ENOENT,
                 put s vbucket (cleanupIfTemporaryItem vb1 key))
              else if isLocked v currentTime then
                if sv_cas v =? cas then
                  (ENGINE_SUCCESS, put s vbucket (unlock vb1 key))
                else (ENGINE_LOCKED_TMPFAIL, put s vbucket vb1)
              else (ENGINE_TMPFAIL, put s vbucket vb1)
          | None =>
              match eviction_policy s with
              | VALUE_ONLY => (ENGINE_KEY_ENOENT, put s vbucket vb1)
              | FULL_EVICTION =>
                  (* an item's lock is released when it is evicted *)
                  (ENGINE_TMPFAIL, put s vbucket vb1)
              end
          end
  end.

Definition evictKey (s : t) (key : string) (vbucket : nat) : Status * t :=
  match getVBucket (kv s) vbucket with
  | None => (StatusNotMyVbucket, s)
  | Some vb =>
      if bool_decide (getState vb <> vbucket_state_active) then
        (StatusNotMyVbucket, s)
      else
        let cHandle := lockCollections vb key in
        if negb (valid cHandle) then (StatusUnknownCollection, s)
        else let '(r, vb') := vb_evictKey vb key in (r, put s vbucket vb')
  end.

Definition getKeyStats (s : t) (key : string) (vbucket : nat) (cookie : nat)
  : ENGINE_ERROR_CODE * t :=
  match getVBucket (kv s) vbucket with
  | None => (ENGINE_NOT_MY_VBUCKET, s)
  | Some vb =>
      collections_read_scope s vbucket vb key cookie
        ENGINE_UNKNOWN_COLLECTION
        (fun vb => vb_getKeyStats vb key cookie)
  end.

(** [validateKey]; [None] is the undefined behaviour of [vb->...] on a
    null handle and of a [memcmp] that reads past the value in memory. *)
Definition validateKey (s : t) (key : string) (vbucket : nat)
    (diskItem : DiskItem) : option (string * t) :=
  match getVBucket (kv s) vbucket with
  | None => None
  | Some vb =>
      let cHandle := lockCollections vb key in
      if negb (valid cHandle) then Some ("collection_unknown"%string, s)
      else
        let '(v, vb1) := fetchValidValue vb key in
        match v with
        | Some v =>
            if isLogicallyNonExistent v then
              Some ("item_deleted"%string,
                    put s vbucket (cleanupIfTemporaryItem vb1 key))
            else if negb (d_flags diskItem =? sv_flags v) then
              Some ("flags_mismatch"%string, put s vbucket vb1)
            else if sv_resident v then
              match memcmp_differs (d_data diskItem) (sv_data v)
                                   (length (d_data diskItem)) with
              | None => None
              | Some true => Some ("data_mismatch"%string, put s vbucket vb1)
              | Some false => Some ("valid"%string, put s vbucket vb1)
              end
            else Some ("valid"%string, put s vbucket vb1)
        | None => Some ("item_deleted"%string, put s vbucket vb1)
        end
  end.

Definition forceMaxCas (s : t) (vbucket : nat) (cas : Z)
  : ENGINE_ERROR_CODE * t :=
  match getBucket (vbMap (kv s)) vbucket with
  | Some vb => (ENGINE_SUCCESS, put s vbucket (vb_forceMaxCas vb cas))
  | None => (ENGINE_NOT_MY_VBUCKET, s)
  end.

End WithDeps.

(** Collaborators for the examples: every key is in a known collection,
    every partition-level operation succeeds without changing the
    partition, every key has the value [example_value], locked until time
    100; HONOR_STATES and TRACK_STATISTICS are two distinct bits. *)
Definition example_value : StoredValue :=
  {| sv_cas := 77; sv_flags := 0; sv_resident := true;
     sv_data := [Byte.x61; Byte.x62; Byte.x63] |}.

Definition example_get : GetValue :=
  {| gv_item := Some example_item; gv_status := ENGINE_SUCCESS |}.

Definition example_deps : Deps :=
  {| kv_deps := KVBucket.example_deps;
     HONOR_STATES := 4;
     TRACK_STATISTICS := 1;
     isValidCas := fun c => negb (c =? 0);
     processExpiryTime_t := fun _ e _ => e;
     vb_getInternal := fun vb _ _ _ => (example_get, vb);
     vb_getMetaData := fun vb _ _ => (ENGINE_SUCCESS, vb);
     vb_setWithMeta := fun vb _ _ _ => (ENGINE_SUCCESS, vb);
     vb_deleteWithMeta := fun vb _ _ _ => (ENGINE_SUCCESS, vb);
     vb_addBackfillItem := fun vb _ => (ENGINE_SUCCESS, vb);
     vb_getAndUpdateTtl := fun vb _ _ _ => (example_get, vb);
     vb_getLocked := fun vb _ _ _ _ => (example_get, vb);
     vb_evictKey := fun vb _ => (StatusSuccess, vb);
     vb_getKeyStats := fun vb _ _ => (ENGINE_SUCCESS, vb);
     vb_forceMaxCas := fun vb _ => vb;
     fetchValidValue := fun vb _ => (Some example_value, vb);
     isLogicallyNonExistent := fun _ => false;
     cleanupIfTemporaryItem := fun vb _ => vb;
     isLocked := fun _ now => now <=? 100;
     unlock := fun vb _ => vb |}.

(** A bucket with partition 0 in state [st] and an empty slot 1. *)
Definition example_state (st : vbucket_state_t) : t :=
  {| kv := example_bucket [Some (Collections.example_vb 0 st 7); None];
     calls := []; eviction_policy := VALUE_ONLY |}.

End KVBucketOps.

(* ===================================================================== *)
(** * KVBucket: deleting, resetting, rolling back and visiting partitions *)
(* ===================================================================== *)

(** [deleteVBucket], [resetVBucket_UNLOCKED], [rollback],
    [pauseResumeVisit] and [VBCBAdaptor::run] of kv_bucket.cc. *)

Module KVBucketAdmin.
Import VB KVBucket.

Inductive TaskStatus : Type := Reschedule | Complete | Abort.

Record RollbackResult : Type := { success : bool; highSeqno : Z }.

(** Calls that leave the bucket, in the order they are made. *)
Inductive Call : Type :=
| DecVBStateCount (st : vbucket_state_t)   (* vbMap.decVBStateCount *)
| DcpVbucketDead (vbid : nat)   (* vbucketStateChanged(vbid, vbucket_state_dead) *)
| CloseStreamsDueToRollback (vbid : nat).

Record t : Type := {
  kv    : KVBucket.t;
  calls : list Call
}.

Definition with_kv (s : t) (k : KVBucket.t) : t :=
  {| kv := k; calls := calls s |}.

Definition call (s : t) (c : Call) : t :=
  {| kv := kv s; calls := calls s ++ [c] |}.

Definition put (s : t) (vbid : nat) (vb : VBucket) : t :=
  with_kv s (store (kv s) vbid vb).

(** What these functions call in vbucketmap.cc, vbucket.cc,
    checkpoint_manager.cc and the storage layer. *)
Class Deps : Type := {
  kv_deps :: KVBucket.Deps;
  dropVBucketAndSetupDeferredDeletion : VBucketMap -> nat -> option nat -> VBucketMap;
  vb_setState : VBucket -> vbucket_state_t -> VBucket;
  takeAndResetCursors : CheckpointManager -> CheckpointManager -> CheckpointManager;
  getHighSeqno : CheckpointManager -> Z;
  doRollback : nat -> Z -> RollbackResult;
  rollbackUnpersistedItems : VBucket -> Z -> VBucket;
  postProcessRollback : VBucket -> RollbackResult -> Z -> VBucket;
  collectionsRolledBack : VBucket -> VBucket;
  incrRollbackItemCount : VBucket -> Z -> VBucket
}.

Section WithDeps.
Context `{Deps}.

(** [deleteVBucket(vbid, c)]; [c] is [None] for a null cookie. *)
Definition deleteVBucket (s : t) (vbid : nat) (c : option nat)
  : ENGINE_ERROR_CODE * t :=
  match getBucket (vbMap (kv s)) vbid with
  | None => (ENGINE_NOT_MY_VBUCKET, s)
  | Some lockedVB =>
      let s1 := call s (DecVBStateCount (getState lockedVB)) in
      let s2 := put s1 vbid (vb_setState lockedVB vbucket_state_dead) in
      let s3 := call s2 (DcpVbucketDead vbid) in
      (* Drop the VB to begin the delete *)
      let s4 := with_kv s3
                  (with_vbMap (kv s3)
                     (dropVBucketAndSetupDeferredDeletion (vbMap (kv s3)) vbid c)) in
      (match c with
       | Some _ => ENGINE_EWOULDBLOCK
       | None => ENGINE_SUCCESS
       end, s4)
  end.

(** [resetVBucket_UNLOCKED(vb, vbset)]; [None] is the use of a null
    [newvb]. *)
Definition resetVBucket_UNLOCKED (s : t) (vb : option VBucket)
  : option (bool * t) :=
  match vb with
  | Some vb =>
      let vbstate := getState vb in
      let kv1 := with_vbMap (kv s)
                   (dropVBucketAndSetupDeferredDeletion (vbMap (kv s)) (id vb)
                                                        None) in
      (* Delete and recreate the vbucket database file *)
      let '(_, kv2) :=
        setVBucketState_UNLOCKED kv1 (id vb) vbstate JNull TransferNo true in
      (* Move the cursors from the old vbucket into the new vbucket *)
      match getBucket (vbMap kv2) (id vb) with
      | None => None
      | Some newvb =>
          Some (true,
                with_kv s
                  (store kv2 (id vb)
                     (with_checkpointManager newvb
                        (takeAndResetCursors (checkpointManager newvb)
                                             (checkpointManager vb)))))
      end
  | None => Some (false, s)
  end.

(** [rollback(vbid, rollbackSeqno)]; [owns_lock] is what
    [getLockedVBucket(vbid, std::try_to_lock)] achieved. *)
Definition rollback (s : t) (vbid : nat) (rollbackSeqno : Z)
    (owns_lock : bool) : option (TaskStatus * t) :=
  if negb owns_lock then Some (Reschedule, s)
  else
    match getBucket (vbMap (kv s)) vbid with
    | None => Some (Abort, s)
    | Some vb =>
        if bool_decide (getState vb = vbucket_state_replica)
           || bool_decide (getState vb = vbucket_state_pending) then
          let prevHighSeqno := getHighSeqno (checkpointManager vb) in
          let reset (_ : unit) :=
            '(ok, s1) ← resetVBucket_UNLOCKED s (Some vb);
            if ok : bool then
              newVb ← getBucket (vbMap (kv s1)) vbid;
              Some (Complete,
                    call (put s1 vbid (incrRollbackItemCount newVb prevHighSeqno))
                         (CloseStreamsDueToRollback vbid))
            else Some (Abort, s1) in
          if negb (rollbackSeqno =? 0) then
            let result := doRollback vbid rollbackSeqno in
            if success result && (0 <? highSeqno result) then
              let vb1 := rollbackUnpersistedItems vb (highSeqno result) in
              let vb2 := postProcessRollback vb1 result prevHighSeqno in
              (* And update collections post rollback *)
              let vb3 := collectionsRolledBack vb2 in
              Some (Complete,
                    call (put s vbid vb3) (CloseStreamsDueToRollback vbid))
            else reset tt
          else reset tt
        else Some (Abort, s)
    end.

End WithDeps.

(** ** Visitors *)

(** [PauseResumeVBVisitor] and [VBucketVisitor]: the visitor's own state
    is [V]; a visit may change the partition. *)
Class Visitor (V : Type) : Type := {
  visit        : V -> VBucket -> bool * V * VBucket;   (* false: pause *)
  pauseVisitor : V -> bool * V;
  visitBucket  : V -> VBucket -> V * VBucket;
  complete     : V -> V
}.

Section WithVisitor.
Context {V : Type} `{Visitor V}.

(** The loop of [pauseResumeVisit] over the slots from [vbid] on; the
    partition ids fit [Vbid::id_type], so that [++vbid] does not wrap. *)
Fixpoint visit_from (slots : list (option VBucket)) (vbid : nat) (v : V)
  : nat * V * list (option VBucket) :=
  match slots with
  | [] => (vbid, v, [])
  | slot :: rest =>
      match slot with
      | Some vb =>
          let '(continue, v', vb') := visit v vb in
          let paused := negb continue in
          if paused then (vbid, v', Some vb' :: rest)
          else
            let '(pos, v'', rest') := visit_from rest (S vbid) v' in
            (pos, v'', Some vb' :: rest')
      | None =>
          let '(pos, v'', rest') := visit_from rest (S vbid) v in
          (pos, v'', None :: rest')
      end
  end.

Definition pauseResumeVisit (m : VBucketMap) (v : V) (start_pos : nat)
  : nat * V * VBucketMap :=
  let '(pos, v', rest') := visit_from (drop start_pos m) start_pos v in
  (pos, v', take start_pos m ++ rest').

Definition startPosition : nat := 0.

Definition endPosition (m : VBucketMap) : nat := getSize m.

(** What a run of the adaptor does with its visitor, in order. *)
Inductive Step : Type :=
| Snooze
| VisitBucket (vbid : nat)
| CompleteCall.

Record VBCBAdaptor : Type := {
  visitor   : V;
  vbList    : list nat;        (* std::queue<Vbid>, front first *)
  currentvb : nat;
  steps     : list Step
}.

(** [VBCBAdaptor::run]: whether the task is to run again, the adaptor and
    the partitions. *)
Definition run (a : VBCBAdaptor) (m : VBucketMap)
  : bool * VBCBAdaptor * VBucketMap :=
  let finish (a : VBCBAdaptor) (m : VBucketMap) :=
    let isdone := bool_decide (vbList a = []) in
    let a' := if isdone
              then {| visitor := complete (visitor a); vbList := vbList a;
                      currentvb := currentvb a;
                      steps := steps a ++ [CompleteCall] |}
              else a in
    (negb isdone, a', m) in
  match vbList a with
  | front :: queue =>
      let a1 := {| visitor := visitor a; vbList := vbList a;
                   currentvb := front; steps := steps a |} in
      let pop (a : VBCBAdaptor) :=
        {| visitor := visitor a; vbList := queue; currentvb := currentvb a;
           steps := steps a |} in
      match getBucket m front with
      | Some vb =>
          let '(pause, v1) := pauseVisitor (visitor a1) in
          if pause then
            (true,
             {| visitor := v1; vbList := vbList a1; currentvb := front;
                steps := steps a1 ++ [Snooze] |}, m)
          else
            let '(v2, vb') := visitBucket v1 vb in
            finish (pop {| visitor := v2; vbList := vbList a1;
                           currentvb := front;
                           steps := steps a1 ++ [VisitBucket front] |})
                   (putBucket m front vb')
      | None => finish (pop a1) m
      end
  | [] => finish a m
  end.

(** The task run again for as long as it asks to, [fuel] times at most:
    the number of runs it took, the adaptor and the partitions; [None]
    when it still asks after [fuel] runs. *)
Fixpoint run_task (fuel : nat) (a : VBCBAdaptor) (m : VBucketMap)
  : option (nat * VBCBAdaptor * VBucketMap) :=
  match fuel with
  | O => None
  | S fuel' =>
      let '(again, a', m') := run a m in
      if again then
        match run_task fuel' a' m' with
        | Some (runs, a'', m'') => Some (S runs, a'', m'')
        | None => None
        end
      else Some (1%nat, a', m')
  end.

(** The partitions of a list of ids that the map holds. *)
Definition held (m : VBucketMap) (ids : list nat) : list nat :=
  List.filter (fun i => bool_decide (is_Some (getBucket m i))) ids.

End WithVisitor.

(** Collaborators for the examples: a partition leaves the map when it is
    dropped, and the storage rolls back to half the seqno asked for. *)
Definition example_deps : Deps :=
  {| kv_deps := KVBucket.example_deps;
     dropVBucketAndSetupDeferredDeletion := fun m vbid _ =>
       if (vbid <? length m)%nat then <[vbid := None]> m else m;
     vb_setState := fun vb st => with_state vb st (state_meta vb);
     takeAndResetCursors := fun new _ => new;
     getHighSeqno := snap_end;
     doRollback := fun _ seqno =>
       {| success := true; highSeqno := seqno / 2 |};
     rollbackUnpersistedItems := fun vb _ => vb;
     postProcessRollback := fun vb _ _ => vb;
     collectionsRolledBack := fun vb => vb;
     incrRollbackItemCount := fun vb _ => vb |}.

Definition example_state (st : vbucket_state_t) : t :=
  {| kv := example_bucket [Some (Collections.example_vb 0 st 7); None];
     calls := [] |}.

(** A visitor that counts its visits and pauses on the partitions in
    state pending. *)
Definition counting_visitor : Visitor nat :=
  {| visit := fun n vb =>
       (negb (bool_decide (state vb = vbucket_state_pending)), S n, vb);
     pauseVisitor := fun n => (false, n);
     visitBucket := fun n vb => (S n, vb);
     complete := fun n => n |}.

Definition example_map : VBucketMap :=
  [ Some (Collections.example_vb 0 vbucket_state_active 7);
    None;
    Some (Collections.example_vb 2 vbucket_state_pending 7);
    Some (Collections.example_vb 3 vbucket_state_replica 7) ].

(** An adaptor that is to visit partitions 0, 1 and 3. *)
Definition example_adaptor : VBCBAdaptor (V := nat) :=
  {| visitor := 0%nat; vbList := [0; 1; 3]%nat; currentvb := 0%nat;
     steps := [] |}.

End KVBucketAdmin.

(* ===================================================================== *)
(** * Properties *)
(* ===================================================================== *)

(** ** Connection *)

Section ConnectionFacts.
Import Connection.

(** C5.  remapErrorCode is the identity for a client with extended errors;
    for a client without, Locked becomes KeyExists, LockedTempFailure and
    SyncWriteInProgress become TempFailure, and each of the eighteen
    whitelisted codes is returned unchanged. *)
Theorem remapErrorCode_policy (c : Connection.t) :
  (xerror_support c = true ->
     forall code, remapErrorCode c code = code) /\
  (xerror_support c = false ->
     remapErrorCode c ENGINE_LOCKED = ENGINE_KEY_EEXISTS /\
     remapErrorCode c ENGINE_LOCKED_TMPFAIL = ENGINE_TMPFAIL /\
     remapErrorCode c ENGINE_SYNC_WRITE_IN_PROGRESS = ENGINE_TMPFAIL /\
     forall code, In code whitelist -> remapErrorCode c code = code).
Proof.
  unfold remapErrorCode. split; intros Hx; rewrite Hx.
  - reflexivity.
  - repeat split.
    intros code Hin. unfold whitelist in Hin. simpl in Hin.
    repeat (destruct Hin as [<- | Hin]; [reflexivity |]).
    contradiction.
Qed.

Lemma remapErrorCode_policy_witness :
  remapErrorCode xerror_client ENGINE_LOCKED = ENGINE_LOCKED /\
  remapErrorCode legacy_client ENGINE_LOCKED = ENGINE_KEY_EEXISTS /\
  remapErrorCode legacy_client ENGINE_NOT_MY_VBUCKET = ENGINE_NOT_MY_VBUCKET.
Proof.
  split; [| split].
  - apply (proj1 (remapErrorCode_policy xerror_client)). reflexivity.
  - apply (proj2 (remapErrorCode_policy legacy_client)). reflexivity.
  - apply (proj2 (remapErrorCode_policy legacy_client)); [reflexivity |].
    unfold whitelist. simpl. tauto.
Defined.

(** What is left of the switch: collection errors depend on the
    collections feature, everything else disconnects the client. *)
Lemma remapErrorCode_others (c : Connection.t) (code : ENGINE_ERROR_CODE) :
  xerror_support c = false ->
  ~ In code whitelist ->
  code <> ENGINE_LOCKED -> code <> ENGINE_LOCKED_TMPFAIL ->
  code <> ENGINE_SYNC_WRITE_IN_PROGRESS ->
  remapErrorCode c code =
    if bool_decide (code = ENGINE_UNKNOWN_COLLECTION
                    \/ code = ENGINE_COLLECTIONS_MANIFEST_IS_AHEAD)
    then (if isCollectionsSupported c then code else ENGINE_EINVAL)
    else ENGINE_DISCONNECT.
Proof.
  intros Hx Hw H1 H2 H3. unfold remapErrorCode. rewrite Hx.
  destruct code; try reflexivity; try congruence;
    exfalso; apply Hw; unfold whitelist; simpl; tauto.
Qed.

(** C8.  After addCpuTime(ns), min_sched_time is the minimum of its old
    value and ns, and max_sched_time is max(new min_sched_time, ns): it is
    ns whatever it held before, so it is not the maximum of the samples
    seen (10 then 3 leaves 3). *)
Theorem addCpuTime_min_max (c : Connection.t) (ns : Z) :
  min_sched_time (addCpuTime c ns) = Z.min (min_sched_time c) ns /\
  max_sched_time (addCpuTime c ns)
    = Z.max (min_sched_time (addCpuTime c ns)) ns /\
  max_sched_time (addCpuTime c ns) = ns /\
  max_sched_time (addCpuTime (addCpuTime legacy_client 10) 3) = 3.
Proof.
  unfold addCpuTime. simpl. repeat split; lia.
Qed.

Lemma addCpuTime_total (c : Connection.t) (ns : Z) :
  total_cpu_time (addCpuTime c ns) = wrap_i64 (total_cpu_time c + ns).
Proof. reflexivity. Qed.

Section PrepareFacts.
Variable bucket_get_item_info : Connection.t -> nat -> option item_info.
Variable reserveItem : Connection.t -> nat -> bool * Connection.t.
Variable makeDocKeyWithoutCollectionID : list Byte.byte -> list Byte.byte.
Variable sizeof_extras : Z.

Lemma narrow_fits (w x : Z) : 0 <= x < 2 ^ w -> narrow w x = Some x.
Proof.
  intros Hx. unfold narrow. rewrite Z.mod_small by exact Hx.
  rewrite Z.eqb_refl. reflexivity.
Qed.

Lemma narrowM_fits (w x : Z) (c : Connection.t) :
  0 <= x < 2 ^ w -> narrowM w x c = (c, inl x).
Proof. intros Hx. unfold narrowM. rewrite narrow_fits by exact Hx. reflexivity. Qed.

Lemma addIov_falls_through (src : IovSource) (len : Z) (c : Connection.t) :
  exists c', addIov src len c = (c', inl tt)
             /\ write_avail c' = write_avail c.
Proof. unfold addIov. destruct (len =? 0); eexists; split; reflexivity. Qed.

(** Settles the two parts of the statement that hold for every way of
    leaving the function. *)
Ltac prepare_exit :=
  split;
  [ intros ?site ?code Heq;
    first [ discriminate
          | inversion Heq; subst; split;
            [ discriminate
            | try discriminate;
              match goal with
              | |- context [if ?b then _ else _] => destruct b; discriminate
              end ] ]
  | split; [ intros ?u; discriminate | ] ].

(** C9.  prepare never leaves through the trailing [return ENGINE_ENOTSUP;]
    and never returns NotSupported; it does not fall off its end either.
    Without item info or without a reservation it returns Failed; otherwise,
    when the frame fields hold their values, it leaves through
    [return ret;] with TooBig if the pipe cannot take header and extras and
    Success if it can. *)
Theorem prepare_never_not_supported (c : Connection.t)
    (opaque : Z) (it : nat) (vbucket by_seqno rev_seqno lock_time nru : Z)
    (document_state : DocumentState) (durability : Requirements) :
  let r := snd (prepare bucket_get_item_info reserveItem
                        makeDocKeyWithoutCollectionID sizeof_extras
                        opaque it vbucket by_seqno rev_seqno lock_time nru
                        document_state durability c) in
  (forall site code, r = inr (Returned site code) ->
     site <> RetTrailing /\ code <> ENGINE_ENOTSUP) /\
  (forall u, r <> inl u) /\
  match bucket_get_item_info c it with
  | None => r = inr (Returned RetItemInfoFailed ENGINE_FAILED)
  | Some info =>
      if fst (reserveItem c it) then
        fits_frame makeDocKeyWithoutCollectionID sizeof_extras
                   (snd (reserveItem c it)) info ->
        r = inr (Returned RetRet
                   (if write_avail (snd (reserveItem c it))
                       <? sizeof_extras + sizeof_req
                    then ENGINE_E2BIG else ENGINE_SUCCESS))
      else r = inr (Returned RetReserveFailed ENGINE_FAILED)
  end.
Proof.
  cbv zeta.
  unfold prepare, mbind, M_bind, gets, reserveItemM, return_, when_, narrowM.
  destruct (bucket_get_item_info c it) as [info |]; simpl.
  2: { prepare_exit. reflexivity. }
  destruct (reserveItem c it) as [reserved c1]; simpl.
  destruct reserved; simpl.
  2: { prepare_exit. reflexivity. }
  destruct (narrow 32 (info_exptime info)) as [exptime |] eqn:Hexp; simpl.
  2: { prepare_exit.
       intros (Hx & _). rewrite narrow_fits in Hexp by exact Hx. discriminate. }
  destruct (narrow 8 sizeof_extras) as [extlen |] eqn:Hext; simpl.
  2: { prepare_exit.
       intros (_ & Hx & _). rewrite narrow_fits in Hext by exact Hx. discriminate. }
  match goal with |- context [narrow 16 ?k] =>
    destruct (narrow 16 k) as [keylen |] eqn:Hkey end; simpl.
  2: { prepare_exit.
       intros (_ & _ & Hx & _). unfold wire_key in Hx.
       rewrite narrow_fits in Hkey; [discriminate |].
       destruct (isCollectionsSupported c1); simpl; lia. }
  match goal with |- context [narrow 32 ?k] =>
    destruct (narrow 32 k) as [bodylen |] eqn:Hbody end; simpl.
  2: { prepare_exit.
       intros (_ & _ & _ & Hx). unfold wire_key in Hx.
       rewrite narrow_fits in Hbody; [discriminate |].
       destruct (isCollectionsSupported c1); simpl; exact Hx. }
  unfold produce, addIov, mret, M_ret.
  destruct (write_avail c1 <? sizeof_extras + sizeof_req) eqn:Hsz; simpl.
  - prepare_exit. reflexivity.
  - repeat (match goal with
            | |- context [if ?x =? 0 then _ else _] => destruct (x =? 0)
            end; simpl);
      (prepare_exit; reflexivity).
Qed.

End PrepareFacts.

Lemma prepare_never_not_supported_witness :
  snd (prepare example_get_item_info example_reserveItem example_strip 31
               7 0%nat 0 1 1 0 0 Alive {| level := 1; timeout := 0 |}
               legacy_client)
    = inr (Returned RetRet ENGINE_SUCCESS) /\
  snd (prepare example_get_item_info example_reserveItem example_strip 31
               7 0%nat 0 1 1 0 0 Alive {| level := 1; timeout := 0 |}
               xerror_client)
    = inr (Returned RetRet ENGINE_E2BIG).
Proof.
  split.
  - apply (prepare_never_not_supported
             example_get_item_info example_reserveItem example_strip 31
             legacy_client 7 0%nat 0 1 1 0 0 Alive {| level := 1; timeout := 0 |}).
    unfold fits_frame. simpl. lia.
  - apply (prepare_never_not_supported
             example_get_item_info example_reserveItem example_strip 31
             xerror_client 7 0%nat 0 1 1 0 0 Alive {| level := 1; timeout := 0 |}).
    unfold fits_frame. simpl. lia.
Defined.

End ConnectionFacts.


(** ** vbucket_state *)

Section VBucketStateFacts.
Import VBucketState.

Lemma compare_ne_0_spec (a b : string) : compare_ne_0 a b = true <-> a <> b.
Proof.
  unfold compare_ne_0.
  destruct (String.compare a b) eqn:Hc.
  - apply String.compare_eq_iff in Hc. split; [discriminate | congruence].
  - split; [| reflexivity]. intros _ ->.
    pose proof (String.compare_antisym b b) as Ha.
    rewrite Hc in Ha. discriminate.
  - split; [| reflexivity]. intros _ ->.
    pose proof (String.compare_antisym b b) as Ha.
    rewrite Hc in Ha. discriminate.
Qed.

(** C7, as amended.  needsToBePersisted answers true exactly when the state
    or the failovers string differs between the two records; whatever the
    other ten fields of the second record are (the snapshot window among
    them), it answers false when those two agree. *)
Theorem needsToBePersisted_state_or_failovers (this vbstate : vbucket_state) :
  (needsToBePersisted this vbstate = true <->
     state this <> state vbstate \/ failovers this <> failovers vbstate) /\
  (forall chk mds hs ps lss lse mc hlc : Z, forall xa sc : bool,
     needsToBePersisted this
       {| state := state this; checkpointId := chk; maxDeletedSeqno := mds;
          highSeqno := hs; purgeSeqno := ps; lastSnapStart := lss;
          lastSnapEnd := lse; maxCas := mc; hlcCasEpochSeqno := hlc;
          mightContainXattrs := xa; failovers := failovers this;
          supportsCollections := sc |} = false).
Proof.
  assert (Hiff : forall a b : vbucket_state,
             needsToBePersisted a b = true <->
             state a <> state b \/ failovers a <> failovers b).
  { intros a b. unfold needsToBePersisted.
    destruct (bool_decide (state a <> state b)) eqn:Hs; simpl.
    - apply bool_decide_eq_true in Hs. tauto.
    - apply bool_decide_eq_false in Hs.
      destruct (compare_ne_0 (failovers a) (failovers b)) eqn:Hf.
      + apply compare_ne_0_spec in Hf. tauto.
      + split; [discriminate |]. intros [Hd | Hd]; [tauto |].
        apply compare_ne_0_spec in Hd. congruence. }
  split; [apply Hiff |].
  intros. destruct (needsToBePersisted this _) eqn:Hn; [| reflexivity].
  apply Hiff in Hn. simpl in Hn. tauto.
Qed.

(** C7, as stated, fails: a flush that only advances the snapshot window
    (from [1,5] to [6,9]) leaves needsToBePersisted false. *)
Lemma needsToBePersisted_ignores_snapshot_window :
  ~ (forall this vbstate : vbucket_state,
       needsToBePersisted this vbstate = true <->
       state this <> state vbstate \/ failovers this <> failovers vbstate
       \/ snapshot_window_advanced this vbstate).
Proof.
  intros Hstated.
  assert (Hn : needsToBePersisted flushed_before flushed_after = true).
  { apply Hstated. right. right. left. simpl. lia. }
  vm_compute in Hn. discriminate.
Qed.

End VBucketStateFacts.


(** ** Collections::Manager *)

Section CollectionsFacts.
Import VB Collections.
Context `{Deps}.

(** When no active partition refuses, the loop visits every slot. *)
Lemma updateAllVBuckets_accepted (vbs : VBucketMap) (m : Manifest) :
  existsb (refuses m) vbs = false ->
  updateAllVBuckets vbs m = (None, map (apply_slot m) vbs).
Proof.
  induction vbs as [| slot rest IH]; simpl; [reflexivity |].
  intros Hex. apply orb_false_iff in Hex as [Hslot Hrest].
  specialize (IH Hrest).
  destruct slot as [vb |]; simpl in *.
  - destruct (bool_decide (getState vb = vbucket_state_active)); simpl in *.
    + destruct (updateFromManifest vb m) as [ok vb']; simpl in *.
      apply negb_false_iff in Hslot. subst ok. simpl.
      rewrite IH. reflexivity.
    + rewrite IH. reflexivity.
  - rewrite IH. reflexivity.
Qed.

(** When some active partition refuses, the loop reports a partition. *)
Lemma updateAllVBuckets_refused (vbs : VBucketMap) (m : Manifest) :
  existsb (refuses m) vbs = true ->
  exists vbid, fst (updateAllVBuckets vbs m) = Some vbid.
Proof.
  induction vbs as [| slot rest IH]; simpl; [discriminate |].
  intros Hex.
  destruct slot as [vb |]; simpl in *.
  - destruct (bool_decide (getState vb = vbucket_state_active)); simpl in *.
    + destruct (updateFromManifest vb m) as [ok vb']; simpl in *.
      destruct ok; simpl in *.
      * destruct (IH Hex) as [vbid Hv].
        destruct (updateAllVBuckets rest m) as [r rest']. simpl in *. eauto.
      * eauto.
    + destruct (IH Hex) as [vbid Hv].
      destruct (updateAllVBuckets rest m) as [r rest']. simpl in *. eauto.
  - destruct (IH Hex) as [vbid Hv].
    destruct (updateAllVBuckets rest m) as [r rest']. simpl in *. eauto.
Qed.

(** A pass that reports nothing has updated every active partition. *)
Lemma updateAllVBuckets_complete (vbs : VBucketMap) (m : Manifest) :
  fst (updateAllVBuckets vbs m) = None ->
  snd (updateAllVBuckets vbs m) = map (apply_slot m) vbs.
Proof.
  intros Hnone.
  destruct (existsb (refuses m) vbs) eqn:Hex.
  - destruct (updateAllVBuckets_refused vbs m Hex) as [vbid Hv]. congruence.
  - rewrite updateAllVBuckets_accepted by exact Hex. reflexivity.
Qed.

(** The exits of update that are defined.  (1) While the lock is held the
    update fails and neither the current manifest nor any partition
    changes.  (2) When the new manifest is valid, some active partition
    refuses it and there is a current manifest, that manifest is applied
    again by a second pass over the partitions, the update fails with
    cannot_apply_collections_manifest and the current manifest stays; if
    that second pass is not refused it has reached every active partition.
    (3) When no active partition refuses, every active partition has been
    updated and the new manifest becomes current.  (4) Whenever the update
    fails, the manager is unchanged. *)
Lemma collections_update_outcomes (m : Manager) (vbs : VBucketMap)
    (manifest : string) (maxSize : Z) :
  (lock m = true ->
     update m vbs manifest maxSize = Some (plain temporary_failure, m, vbs)) /\
  (forall newManifest cur,
     lock m = false ->
     parseManifest manifest maxSize = Some newManifest ->
     current m = Some cur ->
     existsb (refuses newManifest) vbs = true ->
     exists vbid rolledback,
       fst (updateAllVBuckets vbs newManifest) = Some vbid /\
       let vbs1 := snd (updateAllVBuckets vbs newManifest) in
       let vbs2 := snd (updateAllVBuckets vbs1 cur) in
       update m vbs manifest maxSize
         = Some ({| code := cannot_apply_collections_manifest;
                    aborted_on := Some vbid;
                    rolledback_success := Some rolledback |}, m, vbs2) /\
       (rolledback = true -> vbs2 = map (apply_slot cur) vbs1)) /\
  (forall newManifest,
     lock m = false ->
     parseManifest manifest maxSize = Some newManifest ->
     existsb (refuses newManifest) vbs = false ->
     update m vbs manifest maxSize
       = Some (plain success,
               {| lock := false; current := Some newManifest |},
               map (apply_slot newManifest) vbs)) /\
  (forall e m' vbs',
     update m vbs manifest maxSize = Some (e, m', vbs') ->
     code e <> success -> m' = m).
Proof.
  unfold update. split; [| split; [| split]].
  - intros ->. reflexivity.
  - intros newManifest cur Hl Hp Hc Hex. rewrite Hl, Hp, Hc.
    destruct (updateAllVBuckets_refused vbs newManifest Hex) as [vbid Hv].
    destruct (updateAllVBuckets vbs newManifest) as [updated vbs1] eqn:Hu.
    simpl in Hv. subst updated. simpl.
    destruct (updateAllVBuckets vbs1 cur) as [rolledback vbs2] eqn:Hr.
    exists vbid, (negb (bool_decide (is_Some rolledback))).
    split; [reflexivity |]. split; [reflexivity |].
    intros Hok. apply negb_true_iff, bool_decide_eq_false in Hok.
    assert (Hnone : rolledback = None).
    { destruct rolledback; [exfalso; apply Hok; eauto | reflexivity]. }
    pose proof (updateAllVBuckets_complete vbs1 cur) as Hall.
    rewrite Hr in Hall. simpl in Hall. apply Hall. exact Hnone.
  - intros newManifest Hl Hp Hex. rewrite Hl, Hp.
    rewrite updateAllVBuckets_accepted by exact Hex. reflexivity.
  - intros e m' vbs' Hup Hfail.
    destruct (lock m); [congruence |].
    destruct (parseManifest manifest maxSize) as [newManifest |];
      [| congruence].
    destruct (updateAllVBuckets vbs newManifest) as [[vbid |] vbs1].
    + destruct (current m) as [cur |]; [| discriminate].
      destruct (updateAllVBuckets vbs1 cur) as [rolledback vbs2]. congruence.
    + inversion Hup; subst. simpl in Hfail. congruence.
Qed.

(** C6.  On a manager that has no current manifest yet (as constructed),
    the update by a valid manifest that some active partition refuses goes
    on to the roll-back pass, [updateAllVBuckets(bucket, *current)], with
    the empty pointer: there is no previous manifest to apply again and the
    call has no defined result, where the claim has it fail with
    cannot_apply_collections_manifest and leave the manager as it was.  The
    two other readers of [current], getManifest and update(VBucket&), test
    the pointer first. *)
Theorem update_refused_first_manifest (m : Manager) (vbs : VBucketMap)
    (manifest : string) (maxSize : Z) (newManifest : Manifest) :
  lock m = false ->
  current m = None ->
  parseManifest manifest maxSize = Some newManifest ->
  existsb (refuses newManifest) vbs = true ->
  update m vbs manifest maxSize = None /\
  getManifest m = (no_collections_manifest, None) /\
  (forall vb, update_vb m vb = vb).
Proof.
  intros Hl Hc Hp Hex. unfold update, getManifest, update_vb.
  rewrite Hl, Hp, Hc.
  destruct (updateAllVBuckets_refused vbs newManifest Hex) as [vbid Hv].
  destruct (updateAllVBuckets vbs newManifest) as [updated vbs1].
  simpl in Hv. subst updated. auto.
Qed.

End CollectionsFacts.

Example collections_update_examples :
  Collections.update (H := Collections.example_deps)
    (Collections.example_manager true) Collections.example_vbs "abc" 100
    = Some (Collections.plain Collections.temporary_failure,
            Collections.example_manager true, Collections.example_vbs) /\
  Collections.code
    (fst (fst (default (Collections.plain Collections.success,
                        Collections.example_manager false, [])
                 (Collections.update (H := Collections.example_deps)
                    (Collections.example_manager false)
                    Collections.example_vbs "abc" 100))))
    = Collections.cannot_apply_collections_manifest /\
  Collections.current
    (snd (fst (default (Collections.plain Collections.success,
                        Collections.example_manager false, [])
                 (Collections.update (H := Collections.example_deps)
                    (Collections.example_manager false)
                    Collections.example_vbs "abcdefgh" 100))))
    = Some {| Collections.uid := 8; Collections.members := [] |}.
Proof.
  pose proof (collections_update_outcomes (H := Collections.example_deps)
                (Collections.example_manager true)
                Collections.example_vbs "abc" 100) as (H1 & _ & _ & _).
  pose proof (collections_update_outcomes (H := Collections.example_deps)
                (Collections.example_manager false)
                Collections.example_vbs "abc" 100) as (_ & H2 & _ & _).
  pose proof (collections_update_outcomes (H := Collections.example_deps)
                (Collections.example_manager false)
                Collections.example_vbs "abcdefgh" 100) as (_ & _ & H3 & _).
  split; [| split].
  - apply H1. reflexivity.
  - destruct (H2 {| Collections.uid := 3; Collections.members := [] |}
                 {| Collections.uid := 1; Collections.members := [] |}
                 eq_refl eq_refl eq_refl eq_refl)
      as (vbid & rb & _ & Hup & _).
    cbv zeta in Hup. rewrite Hup. reflexivity.
  - rewrite (H3 {| Collections.uid := 8; Collections.members := [] |}
                eq_refl eq_refl eq_refl).
    reflexivity.
Qed.

Lemma update_refused_first_manifest_witness :
  Collections.update (H := Collections.example_deps)
    Collections.fresh_manager Collections.example_vbs "abc" 100 = None /\
  Collections.getManifest Collections.fresh_manager
    = (Collections.no_collections_manifest, None).
Proof.
  destruct (update_refused_first_manifest (H := Collections.example_deps)
              Collections.fresh_manager Collections.example_vbs "abc" 100
              {| Collections.uid := 3; Collections.members := [] |}
              eq_refl eq_refl eq_refl eq_refl) as (Hup & Hget & _).
  split; [exact Hup | exact Hget].
Defined.

(** The first manifest of a manager is applied when every active partition
    takes it. *)
Example update_accepted_first_manifest :
  Collections.code
    (fst (fst (default (Collections.plain Collections.temporary_failure,
                        Collections.fresh_manager, [])
                 (Collections.update (H := Collections.example_deps)
                    Collections.fresh_manager
                    Collections.example_vbs "abcdefgh" 100))))
    = Collections.success.
Proof. vm_compute. reflexivity. Qed.


(** ** KVBucket: partition state changes *)

Section KVBucketFacts.
Import VB KVBucket.
Context `{Deps}.

(** C10.  For an existing partition, asking for the state it already has,
    with empty metadata, returns Success and leaves the whole bucket as it
    was: the partition (failover table, checkpoint manager, pending
    operations) is the same and no call left the bucket, so no failover
    entry was created and DCP was not notified. *)
Theorem setVBucketState_same_state_noop (kv : KVBucket.t) (vbid : nat)
    (vb : VBucket) (meta : json) (transfer : TransferVB) (notify_dcp : bool) :
  getVBucket kv vbid = Some vb ->
  json_empty meta = true ->
  let r := setVBucketState_UNLOCKED kv vbid (getState vb) meta transfer notify_dcp in
  r = (ENGINE_SUCCESS, kv) /\
  getVBucket (snd r) vbid = Some vb /\
  events (snd r) = events kv.
Proof.
  intros Hvb Hmeta. cbv zeta.
  assert (Hr : setVBucketState_UNLOCKED kv vbid (getState vb) meta transfer
                 notify_dcp = (ENGINE_SUCCESS, kv)).
  { unfold setVBucketState_UNLOCKED. unfold getVBucket in Hvb. rewrite Hvb.
    rewrite bool_decide_eq_true_2 by reflexivity. rewrite Hmeta. reflexivity. }
  rewrite Hr. simpl. auto.
Qed.

End KVBucketFacts.

Lemma setVBucketState_same_state_noop_witness :
  KVBucket.setVBucketState_UNLOCKED (H := KVBucket.example_deps)
    KVBucket.backed_up_bucket 0 vbucket_state_active VB.JNull
    KVBucket.TransferNo true
  = (ENGINE_SUCCESS, KVBucket.backed_up_bucket).
Proof.
  apply (setVBucketState_same_state_noop (H := KVBucket.example_deps)
           KVBucket.backed_up_bucket 0 KVBucket.backed_up_vb VB.JNull
           KVBucket.TransferNo true); reflexivity.
Defined.

(** The guard matters: the same request with metadata goes through the
    whole transition, which creates a failover entry and queues a
    set_vbucket_state item. *)
Example setVBucketState_same_state_with_meta :
  let r := KVBucket.setVBucketState_UNLOCKED (H := KVBucket.example_deps)
             KVBucket.backed_up_bucket 0 vbucket_state_active
             (VB.JObject [("topology", VB.JArray [VB.JArray [VB.JString "active"]])])
             KVBucket.TransferNo true in
  fst r = ENGINE_SUCCESS /\
  (VB.entries ∘ VB.failovers <$> KVBucket.getVBucket (snd r) 0)
    = Some [ {| VB.vb_uuid := 1000; VB.by_seqno := 0 |} ] /\
  (VB.ckpt_items ∘ VB.checkpointManager <$> KVBucket.getVBucket (snd r) 0)
    = Some [VB.op_set_vbucket_state] /\
  KVBucket.events (snd r) = [].
Proof. vm_compute. auto. Qed.


(** ** KVBucket: admission of client writes *)

Section AdmissionFacts.
Import VB KVBucket.
Context `{Deps}.

Lemma addPendingOp_pending (vb : VBucket) (cookie : nat) :
  state vb = vbucket_state_pending ->
  addPendingOp vb cookie = (true, with_pendingOps vb (pendingOps vb ++ [cookie])).
Proof.
  intros Hp. unfold addPendingOp.
  rewrite bool_decide_eq_true_2 by exact Hp. reflexivity.
Qed.

(** Splits on the state of the partition and on the takeover flag. *)
Ltac admission_cases vb :=
  unfold spec_admission, getState, isTakeoverBackedUp, addPendingOp;
  destruct (state vb) eqn:Hst; destruct (takeoverBackedUp vb) eqn:Hto;
  simpl;
  repeat match goal with
         | |- context [bool_decide ?P] =>
             first [ rewrite (bool_decide_eq_true_2 P) by (auto; congruence)
                   | rewrite (bool_decide_eq_false_2 P)
                       by (intuition congruence) ]
         end;
  simpl.

(** set applies steps 2 to 4 as the specification lists them. *)
Lemma set_admission (kv : KVBucket.t) (itm : Item) (cookie : nat)
    (vb : VBucket) (e : ENGINE_ERROR_CODE) :
  getVBucket kv (itm_vbucket itm) = Some vb ->
  spec_admission vb = Some e ->
  fst (set kv itm cookie) = e.
Proof.
  intros Hvb. unfold set. rewrite Hvb. admission_cases vb; congruence.
Qed.

Lemma add_admission (kv : KVBucket.t) (itm : Item) (cookie : nat)
    (vb : VBucket) (e : ENGINE_ERROR_CODE) :
  getVBucket kv (itm_vbucket itm) = Some vb ->
  spec_admission vb = Some e ->
  fst (add kv itm cookie) = e.
Proof.
  intros Hvb. unfold add. rewrite Hvb. admission_cases vb; congruence.
Qed.

Lemma deleteItem_admission (kv : KVBucket.t) (key : string) (cas : Z)
    (vbucket cookie : nat) (vb : VBucket) (e : ENGINE_ERROR_CODE) :
  getVBucket kv vbucket = Some vb ->
  spec_admission vb = Some e ->
  fst (deleteItem kv key cas vbucket cookie) = e.
Proof.
  intros Hvb. unfold deleteItem. rewrite Hvb. admission_cases vb; congruence.
Qed.

(** A pending partition queues the cookie of the write it turns away. *)
Lemma set_pending_enqueues (kv : KVBucket.t) (itm : Item) (cookie : nat)
    (vb : VBucket) :
  getVBucket kv (itm_vbucket itm) = Some vb ->
  state vb = vbucket_state_pending ->
  set kv itm cookie
    = (ENGINE_EWOULDBLOCK,
       store kv (itm_vbucket itm)
             (with_pendingOps vb (pendingOps vb ++ [cookie]))).
Proof.
  intros Hvb Hp. unfold set. rewrite Hvb. unfold getState.
  rewrite Hp. simpl.
  rewrite addPendingOp_pending by exact Hp. reflexivity.
Qed.

(** replace applies steps 2 and 3 only: on an active partition it goes on
    to the collections scope whether or not the takeover is backed up. *)
Lemma replace_admission (kv : KVBucket.t) (itm : Item) (cookie : nat)
    (vb : VBucket) :
  getVBucket kv (itm_vbucket itm) = Some vb ->
  (state vb = vbucket_state_dead \/ state vb = vbucket_state_replica ->
     fst (replace kv itm cookie) = ENGINE_NOT_MY_VBUCKET) /\
  (state vb = vbucket_state_pending ->
     fst (replace kv itm cookie) = ENGINE_EWOULDBLOCK) /\
  (state vb = vbucket_state_active ->
     replace kv itm cookie
       = collections_scope kv (itm_vbucket itm) vb (itm_key itm) cookie
           (fun vb => vb_replace vb
                        (processExpiryTime vb itm (maxTtl (config kv))) cookie)).
Proof.
  intros Hvb. unfold replace. rewrite Hvb. unfold getState, addPendingOp.
  repeat split.
  - intros [-> | ->]; reflexivity.
  - intros ->. reflexivity.
  - intros ->. reflexivity.
Qed.

End AdmissionFacts.

(** C2 at the input where the code departs from it: partition 0 is active
    and its takeover is backed up.  set, add and deleteItem fail with
    TempFailure as the admission policy says; replace does not look at the
    flag and performs the write. *)
Theorem replace_skips_takeover_check :
  KVBucket.spec_admission KVBucket.backed_up_vb = Some ENGINE_TMPFAIL /\
  fst (KVBucket.set (H := KVBucket.example_deps)
         KVBucket.backed_up_bucket KVBucket.example_item 1) = ENGINE_TMPFAIL /\
  fst (KVBucket.add (H := KVBucket.example_deps)
         KVBucket.backed_up_bucket KVBucket.example_item 1) = ENGINE_TMPFAIL /\
  fst (KVBucket.deleteItem (H := KVBucket.example_deps)
         KVBucket.backed_up_bucket "k1" 0 0 1) = ENGINE_TMPFAIL /\
  fst (KVBucket.replace (H := KVBucket.example_deps)
         KVBucket.backed_up_bucket KVBucket.example_item 1) = ENGINE_SUCCESS.
Proof. vm_compute. auto. Qed.


(** ** DurabilityMonitor *)

Section DurabilityMonitorFacts.
Import DurabilityMonitor.

(** *** The chain as a map from nodes to positions *)

Lemma lookupNode_setNode (chain : list (string * NodePosition))
    (node : string) (p p' : NodePosition) :
  lookupNode chain node = Some p ->
  lookupNode (setNode chain node p') node = Some p'.
Proof.
  induction chain as [| [n q] rest IH]; simpl; [discriminate |].
  destruct (String.eqb n node) eqn:Hn; simpl; rewrite Hn.
  - reflexivity.
  - exact IH.
Qed.


(** *** The write cursor *)

Lemma lastTrackedUpTo_fold (ws : list SyncWrite) (ackSeqno : Z)
    (acc : option Z) :
  match fold_left
          (fun best w =>
             if seqno w <=? ackSeqno then
               match best with
               | Some b => if b <? seqno w then Some (seqno w) else best
               | None => Some (seqno w)
               end
             else best)
          ws acc with
  | Some s =>
      (acc = Some s \/ exists w, In w ws /\ seqno w = s /\ s <= ackSeqno) /\
      (forall b, acc = Some b -> b <= s) /\
      (forall w, In w ws -> seqno w <= ackSeqno -> seqno w <= s)
  | None => acc = None /\ forall w, In w ws -> ackSeqno < seqno w
  end.
Proof.
  revert acc. induction ws as [| w rest IH]; intros acc; simpl.
  - destruct acc as [b |].
    + split; [auto |]. split; [intros ? [= <-]; lia | tauto].
    + tauto.
  - match goal with |- context [fold_left _ rest ?a] => specialize (IH a) end.
    destruct (fold_left _ rest _) as [s |].
    + destruct IH as (Hfrom & Hacc & Hmax).
      destruct (Z.leb_spec (seqno w) ackSeqno) as [Hle | Hgt].
      * destruct acc as [b |].
        -- destruct (Z.ltb_spec b (seqno w)) as [Hlt | Hge].
           ++ split; [| split].
              ** destruct Hfrom as [[= <-] | (w' & Hin & Hs & Hl)]; eauto 6.
              ** intros b' [= <-]. specialize (Hacc _ eq_refl). lia.
              ** intros w' [<- | Hin] Hl; [apply Hacc; reflexivity | auto].
           ++ split; [| split].
              ** destruct Hfrom as [Heq | (w' & Hin & Hs & Hl)]; eauto 6.
              ** exact Hacc.
              ** intros w' [<- | Hin] Hl;
                   [specialize (Hacc _ eq_refl); lia | auto].
        -- split; [| split].
           ++ destruct Hfrom as [[= <-] | (w' & Hin & Hs & Hl)]; eauto 6.
           ++ discriminate.
           ++ intros w' [<- | Hin] Hl; [apply Hacc; reflexivity | auto].
      * split; [| split].
        -- destruct Hfrom as [Heq | (w' & Hin & Hs & Hl)]; eauto 6.
        -- exact Hacc.
        -- intros w' [<- | Hin] Hl; [lia | auto].
    + destruct IH as (Hnone & Hall).
      destruct (Z.leb_spec (seqno w) ackSeqno) as [Hle | Hgt].
      * destruct acc as [b |];
          [destruct (b <? seqno w) |]; discriminate.
      * split; [exact Hnone |]. intros w' [<- | Hin]; auto.
Qed.

Lemma lastTrackedUpTo_Some (ws : list SyncWrite) (ackSeqno s : Z) :
  lastTrackedUpTo ws ackSeqno = Some s -> is_largest_upto ws ackSeqno s.
Proof.
  unfold lastTrackedUpTo. intros Hs.
  pose proof (lastTrackedUpTo_fold ws ackSeqno None) as Hf.
  rewrite Hs in Hf. destruct Hf as ([Hf | (w & Hin & Hw & Hle)] & _ & Hmax);
    [discriminate |].
  unfold is_largest_upto. eauto.
Qed.

Lemma lastTrackedUpTo_None (ws : list SyncWrite) (ackSeqno : Z) :
  lastTrackedUpTo ws ackSeqno = None ->
  forall w, In w ws -> ackSeqno < seqno w.
Proof.
  unfold lastTrackedUpTo. intros Hs.
  pose proof (lastTrackedUpTo_fold ws ackSeqno None) as Hf.
  rewrite Hs in Hf. apply Hf.
Qed.

Lemma is_largest_upto_unique (ws : list SyncWrite) (ackSeqno s1 s2 : Z) :
  is_largest_upto ws ackSeqno s1 -> is_largest_upto ws ackSeqno s2 -> s1 = s2.
Proof.
  intros ((w1 & Hin1 & <-) & Hle1 & Hmax1) ((w2 & Hin2 & <-) & Hle2 & Hmax2).
  specialize (Hmax1 w2 Hin2 Hle2). specialize (Hmax2 w1 Hin1 Hle1). lia.
Qed.

Lemma advanceNodePosition_ack (ws : list SyncWrite) (tr : Tracking)
    (ackSeqno : Z) (p : NodePosition) :
  lastAckSeqno (advanceNodePosition ws tr ackSeqno p) = lastAckSeqno p.
Proof. unfold advanceNodePosition. destruct (lastTrackedUpTo ws ackSeqno); reflexivity. Qed.

Lemma advanceNodePosition_other (ws : list SyncWrite) (tr tr' : Tracking)
    (ackSeqno : Z) (p : NodePosition) :
  tr <> tr' ->
  chan tr' (lastWriteSeqno (advanceNodePosition ws tr ackSeqno p))
    = chan tr' (lastWriteSeqno p).
Proof.
  intros Hne. unfold advanceNodePosition.
  destruct (lastTrackedUpTo ws ackSeqno); [| reflexivity].
  destruct tr, tr'; simpl; congruence.
Qed.

Lemma advanceNodePosition_same (ws : list SyncWrite) (tr : Tracking)
    (ackSeqno : Z) (p : NodePosition) :
  chan tr (lastWriteSeqno (advanceNodePosition ws tr ackSeqno p))
    = match lastTrackedUpTo ws ackSeqno with
      | Some s => s
      | None => chan tr (lastWriteSeqno p)
      end.
Proof.
  unfold advanceNodePosition.
  destruct (lastTrackedUpTo ws ackSeqno); [| reflexivity].
  destruct tr; reflexivity.
Qed.

(** *** seqnoAckReceived *)

#[local] Arguments commitSatisfied : simpl never.


Lemma updateNodeAck_Some (tr : Tracking) (seqno : Z) (p p1 : NodePosition) :
  updateNodeAck tr seqno p = Some p1 ->
  lastWriteSeqno p1 = lastWriteSeqno p /\
  lastAckSeqno p1 = set_chan tr seqno (lastAckSeqno p) /\
  chan tr (lastAckSeqno p) <= seqno.
Proof.
  unfold updateNodeAck.
  destruct (Z.ltb_spec seqno (chan tr (lastAckSeqno p))); [discriminate |].
  intros [= <-]. simpl. auto.
Qed.


(** What a successful call went through. *)
Lemma seqnoAckReceived_Ok (dm dm' : t) (node : string) (memSeqno diskSeqno : Z)
    (committed : list SyncWrite) :
  seqnoAckReceived dm node memSeqno diskSeqno = (dm', Ok committed) ->
  exists p p1 p2,
    lookupNode (firstChain dm) node = Some p /\
    updateNodeAck Memory memSeqno p = Some p1 /\
    updateNodeAck Disk diskSeqno p1 = Some p2 /\
    firstChain dm'
      = setNode (firstChain dm) node
          (advanceNodePosition (trackedWrites dm) Disk diskSeqno
             (advanceNodePosition (trackedWrites dm) Memory memSeqno p2)) /\
    commitSatisfied (firstChain dm') (trackedWrites dm)
      = (committed, trackedWrites dm').
Proof.
  unfold seqnoAckReceived. intros Hr.
  destruct (memSeqno <? diskSeqno); [discriminate |].
  destruct (trackedWrites dm) as [| w0 ws0] eqn:Hws; [discriminate |].
  destruct (lookupNode (firstChain dm) node) as [p |]; [| discriminate].
  destruct (updateNodeAck Memory memSeqno p) as [p1 |] eqn:Hup1;
    [| discriminate].
  destruct (updateNodeAck Disk diskSeqno p1) as [p2 |] eqn:Hup2;
    [| discriminate].
  destruct (commitSatisfied _ (w0 :: ws0)) as [toCommit kept] eqn:Hc.
  inversion Hr; subst. exists p, p1, p2.
  split; [reflexivity |]. split; [exact Hup1 |]. split; [exact Hup2 |].
  split; [reflexivity |]. exact Hc.
Qed.




(** The scenario of the counterexample, as the accessors show it. *)
Example seqnoAckReceived_refused_disk_seqno :
  let r := seqnoAckReceived fixture_acked "replica" 2 0 in
  getNodeAckSeqnos fixture_acked "replica" = Some {| memory := 1; disk := 1 |} /\
  snd r = LogicError Monotonic /\
  getNodeAckSeqnos (fst r) "replica" = Some {| memory := 2; disk := 1 |} /\
  getNodeWriteSeqnos (fst r) "replica" = Some {| memory := 1; disk := 1 |} /\
  getNumTracked (fst r) = 1%nat.
Proof. vm_compute. auto 6. Qed.

(** C4.  After a successful seqnoAckReceived the node's ack seqnos are the
    acknowledged ones, and on each channel its write cursor is the largest
    tracked seqno that is at most the acknowledged seqno of that channel,
    wherever that seqno falls among the tracked ones; when every tracked
    seqno is above the acknowledged one the cursor stays where it was. *)
Theorem seqnoAckReceived_write_cursor (dm dm' : t) (node : string)
    (memSeqno diskSeqno : Z) (committed : list SyncWrite) :
  seqnoAckReceived dm node memSeqno diskSeqno = (dm', Ok committed) ->
  exists p p',
    lookupNode (firstChain dm) node = Some p /\
    lookupNode (firstChain dm') node = Some p' /\
    lastAckSeqno p' = {| memory := memSeqno; disk := diskSeqno |} /\
    forall tr : Tracking,
      let ackSeqno := chan tr {| memory := memSeqno; disk := diskSeqno |} in
      ((exists w, In w (trackedWrites dm) /\ seqno w <= ackSeqno) ->
         is_largest_upto (trackedWrites dm) ackSeqno
                         (chan tr (lastWriteSeqno p'))) /\
      ((forall w, In w (trackedWrites dm) -> ackSeqno < seqno w) ->
         chan tr (lastWriteSeqno p') = chan tr (lastWriteSeqno p)).
Proof.
  intros Hr.
  destruct (seqnoAckReceived_Ok _ _ _ _ _ _ Hr)
    as (p & p1 & p2 & Hp & Hup1 & Hup2 & Hch & _).
  destruct (updateNodeAck_Some _ _ _ _ Hup1) as (Hw1 & Ha1 & _).
  destruct (updateNodeAck_Some _ _ _ _ Hup2) as (Hw2 & Ha2 & _).
  eexists p, _. split; [exact Hp |]. split.
  { rewrite Hch. eapply lookupNode_setNode. exact Hp. }
  split.
  { rewrite !advanceNodePosition_ack. rewrite Ha2, Ha1. reflexivity. }
  assert (Hcur : forall tr,
    chan tr (lastWriteSeqno
               (advanceNodePosition (trackedWrites dm) Disk diskSeqno
                  (advanceNodePosition (trackedWrites dm) Memory memSeqno p2)))
    = match lastTrackedUpTo (trackedWrites dm)
              (chan tr {| memory := memSeqno; disk := diskSeqno |}) with
      | Some s => s
      | None => chan tr (lastWriteSeqno p)
      end).
  { intros [|].
    - rewrite advanceNodePosition_other by discriminate.
      rewrite advanceNodePosition_same, Hw2, Hw1. reflexivity.
    - rewrite advanceNodePosition_same.
      rewrite advanceNodePosition_other by discriminate.
      rewrite Hw2, Hw1. reflexivity. }
  intros tr. cbv zeta. rewrite Hcur.
  destruct (lastTrackedUpTo (trackedWrites dm) _) as [s |] eqn:Hl.
  - split.
    + intros _. apply lastTrackedUpTo_Some. exact Hl.
    + intros Hall. apply lastTrackedUpTo_Some in Hl.
      destruct Hl as ((w & Hin & <-) & Hle & _).
      specialize (Hall w Hin). lia.
  - split.
    + intros (w & Hin & Hle).
      pose proof (lastTrackedUpTo_None _ _ Hl w Hin). lia.
    + reflexivity.
Qed.

Lemma seqnoAckReceived_write_cursor_witness :
  exists p p',
    lookupNode (firstChain fixture_sparse) "replica" = Some p /\
    lookupNode (firstChain (fst (seqnoAckReceived fixture_sparse "replica" 4 0)))
               "replica" = Some p' /\
    lastAckSeqno p' = {| memory := 4; disk := 0 |} /\
    forall tr : Tracking,
      let ackSeqno := chan tr {| memory := 4; disk := 0 |} in
      ((exists w, In w (trackedWrites fixture_sparse) /\ seqno w <= ackSeqno) ->
         is_largest_upto (trackedWrites fixture_sparse) ackSeqno
                         (chan tr (lastWriteSeqno p'))) /\
      ((forall w, In w (trackedWrites fixture_sparse) -> ackSeqno < seqno w) ->
         chan tr (lastWriteSeqno p') = chan tr (lastWriteSeqno p)).
Proof.
  apply (seqnoAckReceived_write_cursor fixture_sparse
           (fst (seqnoAckReceived fixture_sparse "replica" 4 0)) "replica" 4 0
           [testWrite 1 Majority; testWrite 3 Majority]).
  vm_compute. reflexivity.
Defined.

(** The scenario of the sparse-seqno test: the cursor is 3, the ack is 4. *)
Example seqnoAckReceived_sparse :
  let dm' := fst (seqnoAckReceived fixture_sparse "replica" 4 0) in
  getNodeWriteSeqnos dm' "replica" = Some {| memory := 3; disk := 0 |} /\
  getNodeAckSeqnos dm' "replica" = Some {| memory := 4; disk := 0 |} /\
  getNumTracked dm' = 1%nat.
Proof. vm_compute. auto. Qed.

(** *** Commit *)



Lemma countReached_mono (chain : list (string * NodePosition))
    (tr : Tracking) (s s' : Z) :
  s' <= s -> (countReached chain tr s <= countReached chain tr s')%nat.
Proof.
  intros Hle. unfold countReached.
  induction chain as [| np rest IH]; simpl; [lia |].
  destruct (Z.leb_spec s (chan tr (lastWriteSeqno (snd np))));
    destruct (Z.leb_spec s' (chan tr (lastWriteSeqno (snd np)))); simpl; lia.
Qed.



Lemma majority_chain_sizes :
  map majority [1; 2; 3; 4]%nat = [1; 2; 2; 3]%nat.
Proof. reflexivity. Qed.





(** A Majority write is committed behind a write that is still waiting for
    its own requirement: with seqno 1 (PersistToMajority) and seqno 2
    (Majority) tracked on the chain {active, replica}, the replica's ack of
    memory seqno 2 commits seqno 2 and leaves seqno 1 tracked. *)
Example seqnoAckReceived_mixed_levels :
  seqnoAckReceived fixture_mixed "replica" 2 0
  = ({| firstChain := firstChain (fst (seqnoAckReceived fixture_mixed "replica" 2 0));
        trackedWrites := [testWrite 1 PersistToMajority] |},
     Ok [testWrite 2 Majority]).
Proof. vm_compute. reflexivity. Qed.

(** *** The scenarios of durability_monitor_test.cc *)

Example test_SeqnoAckReceivedNoTrackedSyncWrite :
  observe "replica" (run fixture [CallAck "replica" 1 0])
  = Some (0%nat, seqnos 0 0, seqnos 0 0, Some NoTrackedSyncWrite).
Proof. vm_compute. reflexivity. Qed.

Example test_SeqnoAckReceivedSmallerThanLastAcked :
  observe "replica"
    (run fixture [CallAdd 1 Majority; CallAdd 2 Majority; CallAck "replica" 1 0])
  = Some (1%nat, seqnos 1 0, seqnos 1 0, None) /\
  observe "replica"
    (run fixture [CallAdd 1 Majority; CallAdd 2 Majority; CallAck "replica" 1 0;
                  CallAck "replica" 0 0])
  = Some (1%nat, seqnos 1 0, seqnos 1 0, Some Monotonic).
Proof. vm_compute. auto. Qed.

Example test_SeqnoAckReceivedGreaterThanPending_SparseSeqnos :
  observe "replica"
    (run fixture [CallAdd 1 Majority; CallAdd 3 Majority; CallAdd 5 Majority;
                  CallAck "replica" 4 0])
  = Some (1%nat, seqnos 3 0, seqnos 4 0, None).
Proof. vm_compute. reflexivity. Qed.

Example test_SeqnoAckReceivedGreaterThanLastTracked_SparseSeqnos :
  observe "replica"
    (run fixture [CallAdd 1 Majority; CallAdd 3 Majority; CallAdd 5 Majority;
                  CallAck "replica" 10 0])
  = Some (0%nat, seqnos 5 0, seqnos 10 0, None) /\
  observe "replica"
    (run fixture [CallAdd 1 Majority; CallAdd 3 Majority; CallAdd 5 Majority;
                  CallAck "replica" 10 0; CallAck "replica" 20 0])
  = Some (0%nat, seqnos 5 0, seqnos 10 0, Some NoTrackedSyncWrite).
Proof. vm_compute. auto. Qed.

Example test_SeqnoAckReceived_MemorySeqnoSmallerThanDiskSeqno :
  observe "replica" (run fixture [CallAdd 1 Majority; CallAck "replica" 0 1])
  = Some (1%nat, seqnos 0 0, seqnos 0 0, Some MemorySeqnoSmallerThanDiskSeqno).
Proof. vm_compute. reflexivity. Qed.

Example test_SeqnoAckReceived_PersistToMajority :
  observe "replica"
    (run fixture [CallAdd 1 PersistToMajority; CallAdd 3 PersistToMajority;
                  CallAdd 5 PersistToMajority; CallAck "replica" 10 10])
  = Some (3%nat, seqnos 5 5, seqnos 10 10, None) /\
  observe "active"
    (run fixture [CallAdd 1 PersistToMajority; CallAdd 3 PersistToMajority;
                  CallAdd 5 PersistToMajority; CallAck "replica" 10 10;
                  CallAck "active" 10 10])
  = Some (0%nat, seqnos 5 5, seqnos 10 10, None).
Proof. vm_compute. auto. Qed.

Example test_RegisterChain :
  snd (registerReplicationChain empty []) = LogicError EmptyChain /\
  snd (registerReplicationChain empty
         ["active"; "replica1"; "replica2"; "replica3"; "replica4"])
    = LogicError TooManyNodes /\
  snd (registerReplicationChain empty ["node1"; "node1"])
    = LogicError DuplicateNode.
Proof. vm_compute. auto. Qed.

Example test_SeqnoAckReceived_MultipleReplica :
  let chain := CallRegister ["active"; "replica1"; "replica2"; "replica3"] in
  observe "active" (run empty [chain; CallAdd 1 Majority])
  = Some (1%nat, seqnos 1 0, seqnos 1 0, None) /\
  observe "replica2"
    (run empty [chain; CallAdd 1 Majority; CallAck "replica2" 1 0])
  = Some (1%nat, seqnos 1 0, seqnos 1 0, None) /\
  observe "replica3"
    (run empty [chain; CallAdd 1 Majority; CallAck "replica2" 1 0;
                CallAck "replica3" 1 0])
  = Some (0%nat, seqnos 1 0, seqnos 1 0, None) /\
  observe "replica1"
    (run empty [chain; CallAdd 1 Majority; CallAck "replica2" 1 0;
                CallAck "replica3" 1 0])
  = Some (0%nat, seqnos 0 0, seqnos 0 0, None).
Proof. vm_compute. auto. Qed.

(** vbucket_durability_test.cc, SyncWrites_SparseSeqnos: the replica's ack
    of the last seqno commits all five writes. *)
Example test_SyncWrites_SparseSeqnos :
  observe "replica"
    (run fixture [CallAdd 1 Majority; CallAdd 3 Majority; CallAdd 10 Majority;
                  CallAdd 20 Majority; CallAdd 30 Majority;
                  CallAck "replica" 30 0])
  = Some (0%nat, seqnos 30 0, seqnos 30 0, None).
Proof. vm_compute. reflexivity. Qed.

End DurabilityMonitorFacts.

(* ===================================================================== *)
(** * Further properties *)
(* ===================================================================== *)

(** ** The scatter/gather list *)

Section MsgListFacts.
Import MsgList.
Variable IOV_MAX : nat.

Lemma contiguous_app (start : nat) (xs ys : list msghdr) :
  contiguous start (xs ++ ys) <->
  contiguous start xs /\ contiguous (start + entries xs) ys.
Proof.
  revert start. induction xs as [| m xs IH]; intros start; simpl.
  - rewrite Nat.add_0_r. tauto.
  - rewrite IH, Nat.add_assoc. tauto.
Qed.

Lemma entries_app (xs ys : list msghdr) :
  entries (xs ++ ys) = (entries xs + entries ys)%nat.
Proof. induction xs as [| m xs IH]; simpl; [reflexivity | rewrite IH; lia]. Qed.

Lemma repoint_contiguous (start : nat) (ms : list msghdr) :
  contiguous start ms -> repoint start ms = ms.
Proof.
  revert start. induction ms as [| m ms IH]; intros start; simpl; [reflexivity |].
  intros [Hm Hrest]. rewrite IH by exact Hrest.
  destruct m as [o n]. simpl in *. subst o. reflexivity.
Qed.

Lemma bump_back_snoc (xs : list msghdr) (m : msghdr) :
  bump_back (xs ++ [m])
  = xs ++ [ {| msg_iov := msg_iov m; msg_iovlen := S (msg_iovlen m) |} ].
Proof.
  induction xs as [| x xs IH]; simpl; [reflexivity |].
  rewrite IH. destruct (xs ++ [m]) eqn:Hx; [| reflexivity].
  destruct xs; discriminate.
Qed.

Lemma ensureIovSpace_room (s : t) :
  contiguous 0 (msglist s) ->
  (iovused s <= length (iov s))%nat ->
  (1 <= length (iov s))%nat ->
  msglist (ensureIovSpace s) = msglist s /\
  iovused (ensureIovSpace s) = iovused s /\
  msgcurr (ensureIovSpace s) = msgcurr s /\
  msgbytes (ensureIovSpace s) = msgbytes s /\
  (iovused s < length (iov (ensureIovSpace s)))%nat /\
  take (iovused s) (iov (ensureIovSpace s)) = take (iovused s) (iov s).
Proof.
  intros Hc Hu Hl. unfold ensureIovSpace.
  destruct (Nat.ltb_spec (iovused s) (length (iov s))) as [Hlt | Hge]; simpl.
  - repeat split; auto.
  - rewrite repoint_contiguous by exact Hc.
    rewrite length_app, length_replicate.
    repeat split; try reflexivity; [lia |].
    apply take_app_le. exact Hu.
Qed.

(** The body of addIov once the last header is known to have room. *)
Lemma addIov_room (s : t) (init : list msghdr) (m : msghdr)
    (buf : ptr) (len : Z) :
  msglist s = init ++ [m] ->
  contiguous 0 (msglist s) ->
  entries (msglist s) = iovused s ->
  Forall (fun m => (msg_iovlen m <= IOV_MAX)%nat) (msglist s) ->
  (msg_iovlen m < IOV_MAX)%nat ->
  (iovused s <= length (iov s))%nat ->
  (1 <= length (iov s))%nat ->
  len <> 0 ->
  exists s',
    addIov IOV_MAX buf len s = Some s' /\
    wf IOV_MAX s' /\
    used s' = used s ++ [ {| iov_base := buf; iov_len := len |} ] /\
    msgbytes s' = msgbytes s + len /\
    length (msglist s') = length (msglist s).
Proof.
  intros Hms Hc He Hmax Hroom Hu Hl Hlen.
  unfold addIov. rewrite (proj2 (Z.eqb_neq len 0) Hlen).
  rewrite Hms, last_snoc.
  rewrite (proj2 (Nat.eqb_neq (msg_iovlen m) IOV_MAX)) by lia.
  destruct (ensureIovSpace_room s Hc Hu Hl)
    as (Hms2 & Hu2 & Hcur2 & Hb2 & Hlt2 & Htake2).
  rewrite Hms2, Hms, last_snoc.
  rewrite Hms in Hc, He, Hmax.
  apply contiguous_app in Hc. destruct Hc as [Hci [Hcm _]]. simpl in Hcm.
  rewrite entries_app in He. simpl in He.
  assert (Hslot : (msg_iov m + msg_iovlen m)%nat = iovused s) by lia.
  rewrite Hslot.
  rewrite (proj2 (Nat.ltb_lt _ _) Hlt2).
  eexists. split; [reflexivity |].
  rewrite Hu2, Hb2, bump_back_snoc.
  split; [| split; [| split]].
  - unfold wf. simpl. rewrite length_insert.
    split; [destruct init; discriminate |].
    split. { apply contiguous_app. simpl. auto. }
    split. { rewrite entries_app. simpl. lia. }
    split. { apply Forall_app in Hmax. destruct Hmax as [Hi _].
             apply Forall_app. split; [exact Hi |].
             constructor; [simpl; lia | constructor]. }
    lia.
  - unfold used. simpl.
    rewrite (take_S_r _ _ {| iov_base := buf; iov_len := len |}).
    + rewrite take_insert_ge by lia. rewrite Htake2. reflexivity.
    + apply list_lookup_insert_eq. exact Hlt2.
  - reflexivity.
  - simpl. rewrite !length_app. reflexivity.
Qed.

(** addIov on a list under construction, with or without a new header. *)
Lemma addIov_step (s : t) (buf : ptr) (len : Z) :
  wf IOV_MAX s -> (1 <= IOV_MAX)%nat -> len <> 0 ->
  exists s' m,
    addIov IOV_MAX buf len s = Some s' /\
    wf IOV_MAX s' /\
    used s' = used s ++ [ {| iov_base := buf; iov_len := len |} ] /\
    last (msglist s) = Some m /\
    msgbytes s'
      = (if (msg_iovlen m =? IOV_MAX)%nat then 0 else msgbytes s) + len /\
    length (msglist s')
      = (length (msglist s)
         + if (msg_iovlen m =? IOV_MAX)%nat then 1 else 0)%nat.
Proof.
  intros (Hne & Hc & He & Hmax & Hu & Hl) Hpos Hlen.
  apply last_is_Some in Hne. destruct Hne as [m Hlast].
  pose proof Hlast as Hms. apply last_Some in Hms. destruct Hms as [init Hms].
  destruct (Nat.eqb_spec (msg_iovlen m) IOV_MAX) as [Hfull | Hfree].
  - (* a new header is opened first *)
    destruct (addIov_room (addMsgHdr false s) (init ++ [m])
                {| msg_iov := iovused s; msg_iovlen := 0 |} buf len)
      as (s' & Hadd & Hwf & Hused & Hbytes & Hlen').
    + simpl. rewrite Hms. reflexivity.
    + simpl. apply contiguous_app. split; [exact Hc |].
      simpl. rewrite He. auto.
    + simpl. rewrite entries_app. simpl. lia.
    + simpl. apply Forall_app. split; [exact Hmax |].
      constructor; [simpl; lia | constructor].
    + simpl. lia.
    + exact Hu.
    + exact Hl.
    + exact Hlen.
    + exists s', m. split.
      * unfold addIov in *. rewrite (proj2 (Z.eqb_neq len 0) Hlen) in *.
        rewrite Hlast. rewrite (proj2 (Nat.eqb_eq _ _) Hfull).
        simpl in Hadd. rewrite last_snoc in Hadd. simpl in Hadd.
        destruct IOV_MAX as [| k]; [lia |]. simpl in Hadd. exact Hadd.
      * rewrite (proj2 (Nat.eqb_eq _ _) Hfull).
        split; [exact Hwf |]. split; [exact Hused |].
        split; [exact Hlast |]. split; [exact Hbytes |].
        rewrite Hlen'. simpl. rewrite length_app. reflexivity.
  - destruct (addIov_room s init m buf len Hms Hc He Hmax) as
        (s' & Hadd & Hwf & Hused & Hbytes & Hlen'); try assumption.
    + rewrite Hms in Hmax. apply Forall_app in Hmax.
      destruct Hmax as [_ Hm]. inversion Hm; subst. lia.
    + exists s', m. rewrite (proj2 (Nat.eqb_neq _ _) Hfree).
      split; [exact Hadd |]. split; [exact Hwf |]. split; [exact Hused |].
      split; [exact Hlast |]. split; [exact Hbytes |]. lia.
Qed.

(** X1.  On a list under construction addIov of a non-empty buffer is
    defined, keeps the list well formed (no header over IOV_MAX entries,
    the used entries inside the array) and appends exactly one entry to the
    entries queued so far; msgbytes grows by the length, restarting from 0
    when a new header had to be opened. *)
Theorem addIov_appends (s : t) (buf : ptr) (len : Z) :
  wf IOV_MAX s -> (1 <= IOV_MAX)%nat -> len <> 0 ->
  exists s' m,
    addIov IOV_MAX buf len s = Some s' /\
    wf IOV_MAX s' /\
    used s' = used s ++ [ {| iov_base := buf; iov_len := len |} ] /\
    last (msglist s) = Some m /\
    msgbytes s'
      = (if (msg_iovlen m =? IOV_MAX)%nat then 0 else msgbytes s) + len /\
    length (msglist s')
      = (length (msglist s)
         + if (msg_iovlen m =? IOV_MAX)%nat then 1 else 0)%nat.
Proof. exact (addIov_step s buf len). Qed.

(** X2.  addMsgHdr(true) on any connection whose iov array is not empty
    starts a well-formed list with nothing queued; addMsgHdr(false) on a
    well-formed list keeps it well formed and keeps what is queued. *)
Theorem addMsgHdr_wf (s : t) :
  ((1 <= length (iov s))%nat ->
     wf IOV_MAX (addMsgHdr true s) /\ used (addMsgHdr true s) = []
     /\ msgbytes (addMsgHdr true s) = 0) /\
  (wf IOV_MAX s ->
     wf IOV_MAX (addMsgHdr false s) /\ used (addMsgHdr false s) = used s
     /\ msgbytes (addMsgHdr false s) = 0).
Proof.
  split.
  - intros Hl. unfold wf, used, addMsgHdr. simpl.
    repeat split; auto; try lia.
    constructor; [simpl; lia | constructor].
  - intros (Hne & Hc & He & Hmax & Hu & Hl). unfold wf, used, addMsgHdr. simpl.
    split; [| split; reflexivity].
    split; [destruct (msglist s); discriminate |].
    split. { apply contiguous_app. split; [exact Hc |]. simpl. rewrite He. auto. }
    split. { rewrite entries_app. simpl. lia. }
    split. { apply Forall_app. split; [exact Hmax |].
             constructor; [simpl; lia | constructor]. }
    auto.
Qed.

End MsgListFacts.

Lemma fresh_wf : MsgList.wf 2 MsgList.fresh.
Proof.
  unfold MsgList.wf, MsgList.fresh. simpl.
  split; [discriminate |]. split; [auto |]. split; [reflexivity |].
  split; [constructor; [simpl; lia | constructor] |]. lia.
Qed.

Lemma addIov_appends_witness :
  exists s' m,
    MsgList.addIov 2 (MsgList.InPipe 0) 24 MsgList.fresh = Some s' /\
    MsgList.wf 2 s' /\
    MsgList.used s'
      = MsgList.used MsgList.fresh
        ++ [ {| MsgList.iov_base := MsgList.InPipe 0; MsgList.iov_len := 24 |} ] /\
    last (MsgList.msglist MsgList.fresh) = Some m /\
    MsgList.msgbytes s'
      = (if (MsgList.msg_iovlen m =? 2)%nat then 0
         else MsgList.msgbytes MsgList.fresh) + 24 /\
    length (MsgList.msglist s')
      = (length (MsgList.msglist MsgList.fresh)
         + if (MsgList.msg_iovlen m =? 2)%nat then 1 else 0)%nat.
Proof.
  apply (addIov_appends 2 MsgList.fresh (MsgList.InPipe 0) 24 fresh_wf);
    [lia | discriminate].
Defined.

Lemma addMsgHdr_wf_witness :
  MsgList.wf 2 (MsgList.addMsgHdr true MsgList.fresh) /\
  MsgList.wf 2 (MsgList.addMsgHdr false MsgList.fresh).
Proof.
  split.
  - apply (proj1 (addMsgHdr_wf 2 MsgList.fresh)). simpl. lia.
  - apply (proj2 (addMsgHdr_wf 2 MsgList.fresh)). exact fresh_wf.
Defined.

(** Five buffers on a fresh connection with IOV_MAX = 2: the array of four
    entries has doubled and the entries are spread over three headers. *)
Example addIov_five_buffers :
  let add n s := s ≫= MsgList.addIov 2 (MsgList.InPipe n) 8 in
  let s5 := add 4 (add 3 (add 2 (add 1 (add 0 (Some MsgList.fresh))))) in
  (length ∘ MsgList.iov <$> s5) = Some 8%nat /\
  (MsgList.iovused <$> s5) = Some 5%nat /\
  (map MsgList.msg_iovlen ∘ MsgList.msglist <$> s5) = Some [2; 2; 1]%nat /\
  (map MsgList.msg_iov ∘ MsgList.msglist <$> s5) = Some [0; 2; 4]%nat /\
  (MsgList.msgbytes <$> s5) = Some 8.
Proof. vm_compute. auto 10. Qed.

(** ** The DCP message producers *)

Section ProducerFacts.
Import MsgList Producer.
Context `{Env}.

Lemma narrow_in_range (w x : Z) :
  0 <= x < 2 ^ w -> Connection.narrow w x = Some x.
Proof.
  intros Hx. unfold Connection.narrow. rewrite Z.mod_small by exact Hx.
  rewrite Z.eqb_refl. reflexivity.
Qed.

Lemma queued_bytes_snoc (m m' : MsgList.t) (v : iovec) :
  used m' = used m ++ [v] -> queued_bytes m' = queued_bytes m + iov_len v.
Proof.
  unfold queued_bytes. intros ->.
  induction (used m) as [| x xs IH]; simpl; [lia | rewrite IH; lia].
Qed.

(** addIov under the monad: on a well-formed list it is defined, keeps
    the list well formed and queues exactly [len] more bytes. *)
Lemma addIovM_ok (s : Producer.t) (buf : ptr) (len : Z) :
  MsgList.wf IOV_MAX (msgs s) -> (1 <= IOV_MAX)%nat ->
  exists m',
    Producer.addIov buf len s = Normal tt (with_msgs s m') /\
    MsgList.wf IOV_MAX m' /\
    used m' = used (msgs s)
              ++ buffers [ {| iov_base := buf; iov_len := len |} ] /\
    queued_bytes m' = queued_bytes (msgs s) + len.
Proof.
  intros Hwf Hpos. unfold Producer.addIov, buffers. simpl.
  destruct (Z.eqb_spec len 0) as [-> | Hlen]; simpl.
  - exists (msgs s). unfold MsgList.addIov. simpl.
    split; [reflexivity |]. split; [exact Hwf |].
    split; [rewrite app_nil_r; reflexivity | lia].
  - destruct (addIov_step IOV_MAX (msgs s) buf len Hwf Hpos Hlen)
      as (m' & m & Hadd & Hwf' & Hused & _).
    exists m'. rewrite Hadd.
    split; [reflexivity |]. split; [exact Hwf' |]. split; [exact Hused |].
    rewrite (queued_bytes_snoc _ _ _ Hused). reflexivity.
Qed.

Lemma buffers_app (xs ys : list iovec) :
  buffers (xs ++ ys) = buffers xs ++ buffers ys.
Proof. apply List.filter_app. Qed.

Lemma with_pipe_same (s : Producer.t) :
  with_pipe s (pipe_free s - 0) (pipe_produced s + 0) (sent s ++ []) = s.
Proof.
  destruct s. unfold with_pipe. simpl.
  rewrite Z.sub_0_r, Z.add_0_r, app_nil_r. reflexivity.
Qed.

Lemma bindM (A B : Type) (m : M A) (k : A -> M B) (s : Producer.t) :
  (m ≫= k) s = match m s with
               | Normal a s' => k a s'
               | Return code s' => Return code s'
               | Throw s' => Throw s'
               | Undefined => Undefined
               end.
Proof. reflexivity. Qed.

(** X3.  add_packet_to_send_pipe answers E2BIG, and leaves the connection
    as it was, when the packet is larger than the free space of the write
    pipe; otherwise it succeeds, consumes exactly the packet's size of the
    pipe and queues one entry that points at the old write head. *)
Theorem add_packet_to_send_pipe_outcome (s : Producer.t)
    (packet : list Request) (size : Z) :
  MsgList.wf IOV_MAX (msgs s) -> (1 <= IOV_MAX)%nat ->
  (pipe_free s < size ->
     add_packet_to_send_pipe packet size s = Normal ENGINE_E2BIG s) /\
  (size <= pipe_free s ->
     exists s',
       add_packet_to_send_pipe packet size s = Normal ENGINE_SUCCESS s' /\
       pipe_free s' = pipe_free s - size /\
       pipe_produced s' = pipe_produced s + size /\
       sent s' = sent s ++ packet /\
       MsgList.wf IOV_MAX (msgs s') /\
       used (msgs s')
       = used (msgs s)
         ++ buffers [ {| iov_base := InPipe (pipe_produced s);
                         iov_len := size |} ]).
Proof.
  intros Hwf Hpos. unfold add_packet_to_send_pipe, produce. split.
  - intros Hbig. rewrite (proj2 (Z.ltb_lt _ _) Hbig). simpl.
    rewrite with_pipe_same. reflexivity.
  - intros Hfit. rewrite (proj2 (Z.ltb_ge _ _) Hfit).
    destruct (addIovM_ok s (wbuf_data s) size Hwf Hpos)
      as (m' & Hadd & Hwf' & Hused & _).
    rewrite bindM, Hadd. simpl.
    eexists. split; [reflexivity |]. simpl.
    repeat (split; [reflexivity |]). split; [exact Hwf' | exact Hused].
Qed.

(** One addIov in a sequence: the call is replaced by its result. *)
Ltac addIov_next Hwf Hpos m' Hwf' Hused Hq :=
  match goal with
  | |- context [Producer.addIov ?buf ?len ?s] =>
      let Hadd := fresh "Hadd" in
      destruct (addIovM_ok s buf len Hwf Hpos) as (m' & Hadd & Hwf' & Hused & Hq);
      rewrite Hadd; clear Hadd; cbn [msgs with_msgs] in *
  end.

Lemma deletionInner_step (s : Producer.t) (it : nat) (info : item_info)
    (req : Request) (packet_size extendedMeta_size : Z) (key : DocKey) :
  MsgList.wf IOV_MAX (msgs s) -> (1 <= IOV_MAX)%nat ->
  0 <= info_nbytes info -> 0 <= extendedMeta_size ->
  (pipe_free s < packet_size + leb128_max_size + extendedMeta_size ->
     deletionInner it info req packet_size extendedMeta_size key s
     = Normal ENGINE_E2BIG s) /\
  (packet_size + leb128_max_size + extendedMeta_size <= pipe_free s ->
     exists s',
       deletionInner it info req packet_size extendedMeta_size key s
       = Normal ENGINE_SUCCESS s' /\
       pipe_free s' = pipe_free s - (packet_size + extendedMeta_size) /\
       pipe_produced s'
       = pipe_produced s + (packet_size + extendedMeta_size) /\
       sent s' = sent s ++ [req] /\
       MsgList.wf IOV_MAX (msgs s') /\
       used (msgs s')
       = used (msgs s)
         ++ buffers
              [ {| iov_base := InPipe (pipe_produced s);
                   iov_len := packet_size |};
                {| iov_base := dk_data key; iov_len := dk_size key |};
                {| iov_base := ItemValue it 0; iov_len := info_nbytes info |};
                {| iov_base := InPipe (pipe_produced s + packet_size);
                   iov_len := extendedMeta_size |} ] /\
       queued_bytes (msgs s')
       = queued_bytes (msgs s) + packet_size + dk_size key
         + info_nbytes info + extendedMeta_size /\
       collections s' = collections s /\
       reservedItems s' = reservedItems s /\
       released s' = released s).
Proof.
  intros Hwf Hpos Hnb Hmeta. unfold deletionInner, produce. split.
  - intros Hbig. rewrite (proj2 (Z.ltb_lt _ _) Hbig). simpl.
    rewrite with_pipe_same. reflexivity.
  - intros Hfit. rewrite (proj2 (Z.ltb_ge _ _) Hfit).
    rewrite bindM. addIov_next Hwf Hpos m1 Hwf1 Hu1 Hq1.
    rewrite bindM. addIov_next Hwf1 Hpos m2 Hwf2 Hu2 Hq2.
    assert (Hvalue : exists m3,
      when_ (0 <? info_nbytes info)
            (Producer.addIov (ItemValue it 0) (info_nbytes info))
            (with_msgs (with_msgs s m1) m2)
      = Normal tt (with_msgs (with_msgs (with_msgs s m1) m2) m3) /\
      MsgList.wf IOV_MAX m3 /\
      used m3 = used m2
                ++ buffers [ {| iov_base := ItemValue it 0;
                                iov_len := info_nbytes info |} ] /\
      queued_bytes m3 = queued_bytes m2 + info_nbytes info).
    { destruct (Z.ltb_spec 0 (info_nbytes info)) as [Hval | Hval]; simpl.
      - exact (addIovM_ok (with_msgs (with_msgs s m1) m2) _ _ Hwf2 Hpos).
      - assert (Hz : info_nbytes info = 0) by lia.
        exists m2. rewrite Hz. unfold buffers. simpl.
        split; [destruct s; reflexivity |]. split; [exact Hwf2 |].
        split; [rewrite app_nil_r; reflexivity | lia]. }
    destruct Hvalue as (m3 & Hadd3 & Hwf3 & Hu3 & Hq3).
    rewrite bindM, Hadd3.
    set (s3 := with_msgs (with_msgs (with_msgs s m1) m2) m3).
    assert (Hmeta' : exists m4,
      when_ (0 <? extendedMeta_size)
            (Producer.addIov (ptr_add (wbuf_data s) packet_size)
                             extendedMeta_size) s3
      = Normal tt (with_msgs s3 m4) /\
      MsgList.wf IOV_MAX m4 /\
      used m4 = used m3
                ++ buffers [ {| iov_base := ptr_add (wbuf_data s) packet_size;
                                iov_len := extendedMeta_size |} ] /\
      queued_bytes m4 = queued_bytes m3 + extendedMeta_size).
    { destruct (Z.ltb_spec 0 extendedMeta_size) as [Hval | Hval]; simpl.
      - exact (addIovM_ok s3 _ _ Hwf3 Hpos).
      - assert (Hz : extendedMeta_size = 0) by lia.
        exists m3. rewrite Hz. unfold buffers. simpl.
        split; [destruct s; reflexivity |]. split; [exact Hwf3 |].
        split; [rewrite app_nil_r; reflexivity | lia]. }
    destruct Hmeta' as (m4 & Hadd4 & Hwf4 & Hu4 & Hq4).
    rewrite bindM, Hadd4. simpl.
    eexists. split; [reflexivity |]. simpl.
    repeat (split; [reflexivity |]). split; [exact Hwf4 |].
    split; [| split; [lia | repeat split]].
    rewrite Hu4, Hu3, Hu2, Hu1, <- !app_assoc, <- !buffers_app. reflexivity.
Qed.

(** X4.  deletionInner: E2BIG, with the connection untouched, when the free
    pipe is smaller than packet + largest leb128 collection id + meta, so
    also for some packets that would fit; otherwise the pipe takes packet
    and meta, and the queue gets packet, key, value and meta in this order,
    the empty ones left out; the key entry is [data()] and [size()] of the
    key the caller passes. *)
Theorem deletionInner_outcome (s : Producer.t) (it : nat) (info : item_info)
    (req : Request) (packet_size extendedMeta_size : Z) (key : DocKey) :
  MsgList.wf IOV_MAX (msgs s) -> (1 <= IOV_MAX)%nat ->
  0 <= info_nbytes info -> 0 <= extendedMeta_size ->
  (pipe_free s < packet_size + leb128_max_size + extendedMeta_size ->
     deletionInner it info req packet_size extendedMeta_size key s
     = Normal ENGINE_E2BIG s) /\
  (packet_size + leb128_max_size + extendedMeta_size <= pipe_free s ->
     exists s',
       deletionInner it info req packet_size extendedMeta_size key s
       = Normal ENGINE_SUCCESS s' /\
       pipe_free s' = pipe_free s - (packet_size + extendedMeta_size) /\
       pipe_produced s'
       = pipe_produced s + (packet_size + extendedMeta_size) /\
       sent s' = sent s ++ [req] /\
       MsgList.wf IOV_MAX (msgs s') /\
       used (msgs s')
       = used (msgs s)
         ++ buffers
              [ {| iov_base := InPipe (pipe_produced s);
                   iov_len := packet_size |};
                {| iov_base := dk_data key; iov_len := dk_size key |};
                {| iov_base := ItemValue it 0; iov_len := info_nbytes info |};
                {| iov_base := InPipe (pipe_produced s + packet_size);
                   iov_len := extendedMeta_size |} ] /\
       queued_bytes (msgs s')
       = queued_bytes (msgs s) + packet_size + dk_size key
         + info_nbytes info + extendedMeta_size /\
       collections s' = collections s /\
       reservedItems s' = reservedItems s /\
       released s' = released s).
Proof. exact (deletionInner_step s it info req _ _ _). Qed.

#[local] Arguments buffers : simpl never.
#[local] Arguments wire_key : simpl never.
#[local] Arguments wire_DocKey : simpl never.
#[local] Arguments dk_size : simpl never.

Lemma dk_size_wire_DocKey (supported : bool) (info : item_info) :
  dk_size (wire_DocKey supported info)
  = Z.of_nat (length (wire_key supported info)).
Proof. reflexivity. Qed.

Lemma wire_DocKey_cases (supported : bool) (info : item_info) :
  wire_DocKey supported info
  = if supported then info_key info
    else makeDocKeyWithoutCollectionID (info_key info).
Proof. destruct supported; reflexivity. Qed.

(** The part of the three producers up to the first narrowing. *)
Ltac producer_prologue Hinfo Hres :=
  rewrite bindM; unfold gets at 1; rewrite Hinfo;
  rewrite bindM; unfold reserveItemM at 1; rewrite Hres;
  cbn [negb when_]; rewrite bindM; unfold mret at 1, M_ret at 1.

(** The size of the key that is sent, as the length of its bytes. *)
Ltac key_length :=
  cbv beta iota;
  repeat match goal with
  | |- context [dk_size (wire_DocKey ?b ?i)] =>
      change (dk_size (wire_DocKey b i))
        with (Z.of_nat (length (wire_key b i)))
  end.

Ltac narrow_next :=
  rewrite bindM; unfold narrowM at 1;
  rewrite narrow_in_range by (try assumption; try lia).

(** X5.  mutation, when the item can be had and reserved and the sizes fit
    their header fields: with room in the pipe for the header it succeeds,
    the pipe takes the header, the queue gets header, key and value, and
    the bytes queued are the 24 of the request plus the body length that
    the request announces; the item stays with the reserved items.  The
    key entry is [data()] and [size()] of the key as it is sent: [info.key]
    on a connection with collections, that key without its collection id
    otherwise. *)
Theorem mutation_queues_announced_body (s s1 : Producer.t) (info : item_info)
    (opaque_ : Z) (it : nat) (vbucket_ by_seqno rev_seqno lock_time : Z)
    (nmeta nru : Z) (sid : option Z) :
  bucket_get_item_info s it = Some info ->
  reserveItem s it = (true, s1) ->
  MsgList.wf IOV_MAX (msgs s1) -> (1 <= IOV_MAX)%nat ->
  0 <= info_exptime info < 2 ^ 32 ->
  0 <= sizeof_DcpMutationPayload < 2 ^ 8 ->
  Z.of_nat (length (wire_key (collections s1) info)) < 2 ^ 16 ->
  0 <= sizeof_DcpMutationPayload
       + Z.of_nat (length (wire_key (collections s1) info))
       + nmeta + info_value_len info + frame_len sid < 2 ^ 32 ->
  sizeof_DcpMutationPayload + sizeof_Request + nmeta + frame_len sid
  <= pipe_free s1 ->
  exists s' req,
    mutation opaque_ it vbucket_ by_seqno rev_seqno lock_time nmeta nru sid s
    = Return ENGINE_SUCCESS s' /\
    sent s' = sent s1 ++ [req] /\
    opcode req = DcpMutation /\
    extlen req = sizeof_DcpMutationPayload /\
    keylen req = Z.of_nat (length (wire_key (collections s1) info)) /\
    bodylen req
    = sizeof_DcpMutationPayload
      + Z.of_nat (length (wire_key (collections s1) info))
      + nmeta + info_value_len info + frame_len sid /\
    queued_bytes (msgs s')
    = queued_bytes (msgs s1) + sizeof_Request + bodylen req /\
    used (msgs s')
    = used (msgs s1)
      ++ buffers
           [ {| iov_base := InPipe (pipe_produced s1);
                iov_len := sizeof_DcpMutationPayload + sizeof_Request
                           + nmeta + frame_len sid |};
             {| iov_base := dk_data (wire_DocKey (collections s1) info);
                iov_len := Z.of_nat (length (wire_key (collections s1) info)) |};
             {| iov_base := ItemValue it 0; iov_len := info_value_len info |} ] /\
    wire_DocKey (collections s1) info
    = (if collections s1 then info_key info
       else makeDocKeyWithoutCollectionID (info_key info)) /\
    wire_key (collections s1) info
    = dk_bytes (wire_DocKey (collections s1) info) /\
    pipe_free s'
    = pipe_free s1
      - (sizeof_DcpMutationPayload + sizeof_Request + nmeta + frame_len sid) /\
    MsgList.wf IOV_MAX (msgs s') /\
    reservedItems s' = reservedItems s1 /\
    released s' = released s1.
Proof.
  intros Hinfo Hres Hwf Hpos Hexp Hext Hkey Hbody Hfit.
  unfold mutation.
  producer_prologue Hinfo Hres.
  rewrite bindM. unfold gets at 1. key_length.
  narrow_next. narrow_next. narrow_next. narrow_next.
  rewrite bindM. unfold produce.
  rewrite (proj2 (Z.ltb_ge _ _) Hfit).
  rewrite bindM. addIov_next Hwf Hpos m1 Hwf1 Hu1 Hq1.
  rewrite bindM. addIov_next Hwf1 Hpos m2 Hwf2 Hu2 Hq2.
  rewrite bindM. addIov_next Hwf2 Hpos m3 Hwf3 Hu3 Hq3.
  simpl. eexists. eexists. split; [reflexivity |]. simpl.
  repeat (split; [reflexivity |]).
  split; [simpl; unfold sizeof_Request in *; lia |].
  split; [rewrite Hu3, Hu2, Hu1, <- !app_assoc, <- !buffers_app; reflexivity |].
  split; [apply wire_DocKey_cases |].
  split; [reflexivity |].
  split; [reflexivity | split; [exact Hwf3 | split; reflexivity]].
Qed.

(** X6.  mutation answers E2BIG exactly when the free pipe is smaller than
    the header (request, frame info, extras and meta; key and value take no
    pipe space), and then leaves the connection as reserveItem left it:
    nothing queued, nothing produced, the item still reserved. *)
Theorem mutation_e2big_iff (s s1 : Producer.t) (info : item_info)
    (opaque_ : Z) (it : nat) (vbucket_ by_seqno rev_seqno lock_time : Z)
    (nmeta nru : Z) (sid : option Z) :
  bucket_get_item_info s it = Some info ->
  reserveItem s it = (true, s1) ->
  MsgList.wf IOV_MAX (msgs s1) -> (1 <= IOV_MAX)%nat ->
  0 <= info_exptime info < 2 ^ 32 ->
  0 <= sizeof_DcpMutationPayload < 2 ^ 8 ->
  Z.of_nat (length (wire_key (collections s1) info)) < 2 ^ 16 ->
  0 <= sizeof_DcpMutationPayload
       + Z.of_nat (length (wire_key (collections s1) info))
       + nmeta + info_value_len info + frame_len sid < 2 ^ 32 ->
  (pipe_free s1
   < sizeof_DcpMutationPayload + sizeof_Request + nmeta + frame_len sid
   <-> exists s',
         mutation opaque_ it vbucket_ by_seqno rev_seqno lock_time nmeta nru
                  sid s
         = Return ENGINE_E2BIG s') /\
  (forall s',
     mutation opaque_ it vbucket_ by_seqno rev_seqno lock_time nmeta nru sid s
     = Return ENGINE_E2BIG s' -> s' = s1).
Proof.
  intros Hinfo Hres Hwf Hpos Hexp Hext Hkey Hbody.
  assert (Hsmall :
    pipe_free s1
    < sizeof_DcpMutationPayload + sizeof_Request + nmeta + frame_len sid ->
    mutation opaque_ it vbucket_ by_seqno rev_seqno lock_time nmeta nru sid s
    = Return ENGINE_E2BIG s1).
  { intros Hbig. unfold mutation.
    producer_prologue Hinfo Hres.
    rewrite bindM. unfold gets at 1. key_length.
    narrow_next. narrow_next. narrow_next. narrow_next.
    rewrite bindM. unfold produce.
    rewrite (proj2 (Z.ltb_lt _ _) Hbig). simpl.
    rewrite with_pipe_same. reflexivity. }
  assert (Hlarge :
    sizeof_DcpMutationPayload + sizeof_Request + nmeta + frame_len sid
    <= pipe_free s1 ->
    forall s',
    mutation opaque_ it vbucket_ by_seqno rev_seqno lock_time nmeta nru sid s
    <> Return ENGINE_E2BIG s').
  { intros Hfit s' Heq. unfold mutation in Heq. revert Heq.
    producer_prologue Hinfo Hres.
    rewrite bindM. unfold gets at 1. key_length.
    narrow_next. narrow_next. narrow_next. narrow_next.
    rewrite bindM. unfold produce.
    rewrite (proj2 (Z.ltb_ge _ _) Hfit).
    rewrite bindM. addIov_next Hwf Hpos m1 Hwf1 Hu1 Hq1.
    rewrite bindM. addIov_next Hwf1 Hpos m2 Hwf2 Hu2 Hq2.
    rewrite bindM. addIov_next Hwf2 Hpos m3 Hwf3 Hu3 Hq3.
    simpl. discriminate. }
  split; [split |].
  - intros Hbig. exists s1. exact (Hsmall Hbig).
  - intros [s' Heq].
    destruct (Z.lt_ge_cases (pipe_free s1)
                (sizeof_DcpMutationPayload + sizeof_Request + nmeta
                 + frame_len sid)) as [Hlt | Hge]; [exact Hlt |].
    exfalso. exact (Hlarge Hge s' Heq).
  - intros s' Heq.
    destruct (Z.lt_ge_cases (pipe_free s1)
                (sizeof_DcpMutationPayload + sizeof_Request + nmeta
                 + frame_len sid)) as [Hlt | Hge].
    + rewrite (Hsmall Hlt) in Heq. congruence.
    + exfalso. exact (Hlarge Hge s' Heq).
Qed.

(** X7.  deletion (the first version) on a connection without collections,
    when the item can be had and reserved and the sizes fit their header
    fields: with room in the pipe it succeeds, the request it sends is a
    DcpDeletion whose key length is the size of the key without its
    collection id, the pipe takes packet and meta, the queue gets packet,
    that key ([data()] and [size()] of the key without its collection id),
    the value and the meta in this order, and the bytes queued are the 24
    of the request plus the body length that the request announces. *)
Theorem deletion_queues_announced_body (s s1 : Producer.t) (info : item_info)
    (opaque_ : Z) (it : nat) (vbucket_ by_seqno rev_seqno nmeta : Z)
    (sid : option Z) :
  bucket_get_item_info s it = Some info ->
  reserveItem s it = (true, s1) ->
  collections s1 = false ->
  MsgList.wf IOV_MAX (msgs s1) -> (1 <= IOV_MAX)%nat ->
  0 <= sizeof_DcpDeletionV1Payload < 2 ^ 8 ->
  Z.of_nat (length (wire_key false info)) < 2 ^ 16 ->
  0 <= info_nbytes info -> 0 <= nmeta ->
  0 <= sizeof_DcpDeletionV1Payload + Z.of_nat (length (wire_key false info))
       + nmeta + info_nbytes info + frame_len sid < 2 ^ 32 ->
  sizeof_Request + sizeof_DcpDeletionV1Payload + frame_len sid
  + leb128_max_size + nmeta <= pipe_free s1 ->
  let key := makeDocKeyWithoutCollectionID (info_key info) in
  let packet_size :=
    sizeof_Request + sizeof_DcpDeletionV1Payload + frame_len sid in
  exists s' req,
    deletion opaque_ it vbucket_ by_seqno rev_seqno nmeta sid s
    = Return ENGINE_SUCCESS s' /\
    sent s' = sent s1 ++ [req] /\
    opcode req = DcpDeletion /\
    keylen req = Z.of_nat (length (dk_bytes key)) /\
    bodylen req
    = sizeof_DcpDeletionV1Payload + Z.of_nat (length (dk_bytes key))
      + nmeta + info_nbytes info + frame_len sid /\
    queued_bytes (msgs s')
    = queued_bytes (msgs s1) + sizeof_Request + bodylen req /\
    used (msgs s')
    = used (msgs s1)
      ++ buffers
           [ {| iov_base := InPipe (pipe_produced s1);
                iov_len := packet_size |};
             {| iov_base := dk_data key;
                iov_len := Z.of_nat (length (dk_bytes key)) |};
             {| iov_base := ItemValue it 0; iov_len := info_nbytes info |};
             {| iov_base := InPipe (pipe_produced s1 + packet_size);
                iov_len := nmeta |} ] /\
    pipe_free s' = pipe_free s1 - (packet_size + nmeta) /\
    reservedItems s' = reservedItems s1 /\
    released s' = released s1.
Proof.
  intros Hinfo Hres Hcoll Hwf Hpos Hext Hkey Hnb Hmeta Hbody Hfit.
  cbv zeta.
  change (Z.of_nat (length (dk_bytes
            (makeDocKeyWithoutCollectionID (info_key info)))))
    with (Z.of_nat (length (wire_key false info))).
  change (makeDocKeyWithoutCollectionID (info_key info))
    with (wire_DocKey false info).
  unfold deletion.
  producer_prologue Hinfo Hres.
  rewrite bindM. unfold gets at 1. rewrite Hcoll. cbn [when_].
  rewrite bindM. unfold mret at 1, M_ret at 1.
  rewrite bindM. unfold gets at 1. rewrite Hcoll. key_length.
  narrow_next. narrow_next. narrow_next.
  rewrite bindM.
  match goal with
  | |- context [deletionInner it info ?req ?p ?m ?k s1] =>
      destruct (deletionInner_step s1 it info req p m k Hwf Hpos Hnb Hmeta)
        as [_ Hok];
      destruct Hok
        as (s' & Hdel & Hfree & _ & Hsent & _ & Hused & Hq & _ & Hitems & Hrel);
        [lia |];
      rewrite Hdel; exists s', req
  end.
  rewrite dk_size_wire_DocKey in Hused, Hq.
  split; [reflexivity |]. split; [exact Hsent |].
  split; [reflexivity |]. split; [reflexivity |]. split; [reflexivity |].
  split; [rewrite Hq; simpl; lia |].
  split; [exact Hused |].
  split; [exact Hfree |]. split; [exact Hitems | exact Hrel].
Qed.

(** X8.  deletion_v2 and expiration (deletionOrExpirationV2), when the item
    can be had and reserved and the sizes fit their header fields: with
    room in the pipe the call succeeds, the request sent is a DcpDeletion
    for an explicit delete and a DcpExpiration for a TTL, and the bytes
    queued are the 24 of the request plus the body length it announces. *)
Theorem deletionOrExpirationV2_queues_announced_body (s s1 : Producer.t)
    (info : item_info) (opaque_ : Z) (it : nat)
    (vbucket_ by_seqno rev_seqno delete_time : Z)
    (deleteSource : DeleteSource) (sid : option Z) :
  bucket_get_item_info s it = Some info ->
  reserveItem s it = (true, s1) ->
  MsgList.wf IOV_MAX (msgs s1) -> (1 <= IOV_MAX)%nat ->
  0 <= payloadLen deleteSource < 2 ^ 8 ->
  Z.of_nat (length (wire_key (collections s1) info)) < 2 ^ 16 ->
  0 <= info_nbytes info ->
  0 <= payloadLen deleteSource
       + Z.of_nat (length (wire_key (collections s1) info))
       + info_nbytes info + frame_len sid < 2 ^ 32 ->
  sizeof_Request + frame_len sid + payloadLen deleteSource + leb128_max_size
  <= pipe_free s1 ->
  exists s' req,
    deletionOrExpirationV2 opaque_ it vbucket_ by_seqno rev_seqno delete_time
                           deleteSource sid s
    = Return ENGINE_SUCCESS s' /\
    sent s' = sent s1 ++ [req] /\
    opcode req = match deleteSource with
                 | Explicit => DcpDeletion
                 | TTL => DcpExpiration
                 end /\
    extlen req = payloadLen deleteSource /\
    bodylen req
    = payloadLen deleteSource
      + Z.of_nat (length (wire_key (collections s1) info))
      + info_nbytes info + frame_len sid /\
    queued_bytes (msgs s')
    = queued_bytes (msgs s1) + sizeof_Request + bodylen req /\
    pipe_free s'
    = pipe_free s1
      - (sizeof_Request + frame_len sid + payloadLen deleteSource) /\
    reservedItems s' = reservedItems s1 /\
    released s' = released s1.
Proof.
  intros Hinfo Hres Hwf Hpos Hext Hkey Hnb Hbody Hfit.
  unfold deletionOrExpirationV2.
  producer_prologue Hinfo Hres.
  rewrite bindM. unfold gets at 1. key_length.
  narrow_next. narrow_next. narrow_next. narrow_next.
  rewrite bindM.
  match goal with
  | |- context [deletionInner it info ?req ?p ?m ?k s1] =>
      destruct (deletionInner_step s1 it info req p m k Hwf Hpos Hnb
                  (Z.le_refl 0))
        as [_ Hok];
      destruct Hok as (s' & Hdel & Hfree & _ & Hsent & _ & _ & Hq & _ & Hitems & Hrel);
        [lia |];
      rewrite Hdel; exists s', req
  end.
  rewrite dk_size_wire_DocKey in Hq.
  split; [reflexivity |]. split; [exact Hsent |].
  split; [reflexivity |]. split; [reflexivity |]. split; [reflexivity |].
  split; [rewrite Hq; simpl; lia |].
  split; [rewrite Hfree; lia |]. split; [exact Hitems | exact Hrel].
Qed.

Lemma released_after_release (s : Producer.t) (it : nat) :
  count_occ Nat.eq_dec (released (releaseReservedItems s)) it
  = (count_occ Nat.eq_dec (released s) it
     + count_occ Nat.eq_dec (reservedItems s) it)%nat.
Proof. unfold releaseReservedItems. simpl. apply count_occ_app. Qed.

Lemma count_occ_snoc_same (l : list nat) (it : nat) :
  count_occ Nat.eq_dec (l ++ [it]) it = S (count_occ Nat.eq_dec l it).
Proof.
  rewrite count_occ_app. simpl.
  destruct (Nat.eq_dec it it) as [_ | Hne]; [lia | congruence].
Qed.

(** X9.  Whatever way mutation ends (success, FAILED, E2BIG or a narrowing
    error), it is defined and has handed the item over exactly once: the
    item is released by the deleter when it could not be had or reserved,
    and is left to releaseReservedItems otherwise. *)
Theorem mutation_hands_item_over_once (s s1 : Producer.t) (ok : bool)
    (opaque_ : Z) (it : nat) (vbucket_ by_seqno rev_seqno lock_time : Z)
    (nmeta nru : Z) (sid : option Z) :
  reserveItem s it = (ok, s1) ->
  released s1 = released s ->
  reservedItems s1 = reservedItems s ++ (if ok then [it] else []) ->
  MsgList.wf IOV_MAX (msgs s1) -> (1 <= IOV_MAX)%nat ->
  exists s',
    state_of (mutation opaque_ it vbucket_ by_seqno rev_seqno lock_time nmeta
                       nru sid s) = Some s' /\
    count_occ Nat.eq_dec (released (releaseReservedItems s')) it
    = S (count_occ Nat.eq_dec (released (releaseReservedItems s)) it).
Proof.
  intros Hres Hrel Hitems Hwf Hpos.
  assert (Hkept : ok = true ->
    count_occ Nat.eq_dec (released (releaseReservedItems s1)) it
    = S (count_occ Nat.eq_dec (released (releaseReservedItems s)) it)).
  { intros ->. rewrite !released_after_release, Hrel, Hitems.
    rewrite count_occ_snoc_same. lia. }
  unfold mutation. rewrite bindM. unfold gets at 1.
  destruct (bucket_get_item_info s it) as [info |].
  2: { rewrite bindM. unfold ItemDeleter at 1.
       eexists. split; [reflexivity |].
       rewrite !released_after_release. simpl.
       rewrite count_occ_snoc_same. lia. }
  rewrite bindM. unfold reserveItemM at 1. rewrite Hres.
  destruct ok; cbn [negb when_].
  2: { rewrite !bindM. unfold ItemDeleter at 1.
       eexists. split; [reflexivity |].
       rewrite !released_after_release. simpl.
       rewrite Hrel, Hitems, app_nil_r, count_occ_snoc_same. lia. }
  specialize (Hkept eq_refl).
  rewrite bindM. unfold mret at 1, M_ret at 1.
  rewrite bindM. unfold gets at 1.
  repeat (rewrite bindM; unfold narrowM at 1;
          match goal with
          | |- context [Connection.narrow ?w ?x] =>
              destruct (Connection.narrow w x);
              [| simpl; exists s1; split; [reflexivity | exact Hkept]]
          end).
  rewrite bindM. unfold produce.
  match goal with
  | |- context [if ?c then _ else _] => destruct c
  end.
  - eexists. split; [reflexivity |].
    rewrite released_after_release. simpl.
    rewrite <- released_after_release. exact Hkept.
  - rewrite bindM. addIov_next Hwf Hpos m1 Hwf1 Hu1 Hq1.
    rewrite bindM. addIov_next Hwf1 Hpos m2 Hwf2 Hu2 Hq2.
    rewrite bindM. addIov_next Hwf2 Hpos m3 Hwf3 Hu3 Hq3.
    eexists. split; [reflexivity |].
    rewrite released_after_release. simpl.
    rewrite <- released_after_release. exact Hkept.
Qed.

(** X10.  deletion (the first version) on a connection with collections
    answers FAILED after it has reserved the item and before it lets go of
    it: nothing is queued, and the item is handed over twice, once to the
    deleter and once to releaseReservedItems. *)
Theorem deletion_collections_releases_twice (s s1 : Producer.t)
    (info : item_info) (opaque_ : Z) (it : nat)
    (vbucket_ by_seqno rev_seqno nmeta : Z) (sid : option Z) :
  bucket_get_item_info s it = Some info ->
  reserveItem s it = (true, s1) ->
  released s1 = released s ->
  reservedItems s1 = reservedItems s ++ [it] ->
  collections s1 = true ->
  exists s',
    deletion opaque_ it vbucket_ by_seqno rev_seqno nmeta sid s
    = Return ENGINE_FAILED s' /\
    msgs s' = msgs s1 /\ sent s' = sent s1 /\ pipe_free s' = pipe_free s1 /\
    In it (reservedItems s') /\
    released s' = released s ++ [it] /\
    count_occ Nat.eq_dec (released (releaseReservedItems s')) it
    = S (S (count_occ Nat.eq_dec (released (releaseReservedItems s)) it)).
Proof.
  intros Hinfo Hres Hrel Hitems Hcoll.
  unfold deletion.
  producer_prologue Hinfo Hres.
  rewrite bindM. unfold gets at 1. rewrite Hcoll. cbn [when_].
  rewrite !bindM. unfold ItemDeleter at 1.
  eexists. split; [reflexivity |].
  rewrite !released_after_release. simpl.
  repeat (split; [reflexivity |]).
  split; [rewrite Hitems; apply in_or_app; right; left; reflexivity |].
  split; [rewrite Hrel; reflexivity |].
  rewrite Hrel, Hitems, !count_occ_snoc_same. lia.
Qed.

End ProducerFacts.

(** The hypotheses of the producers' theorems at the example connection. *)
Ltac example_hyp :=
  first [ reflexivity
        | exact fresh_wf
        | vm_compute; lia
        | vm_compute; repeat split; congruence ].

Lemma add_packet_to_send_pipe_outcome_witness :
  Producer.add_packet_to_send_pipe (H := Producer.example_env) [] 30
    (Producer.example_conn false 24)
  = Producer.Normal ENGINE_E2BIG (Producer.example_conn false 24).
Proof.
  apply (add_packet_to_send_pipe_outcome (H := Producer.example_env)
           (Producer.example_conn false 24) [] 30); example_hyp.
Defined.

Lemma deletionInner_outcome_witness :
  let key := Producer.makeDocKeyWithoutCollectionID (Env := Producer.example_env)
               (Producer.info_key (Producer.example_info 1)) in
  exists req s',
    Producer.deletionInner (H := Producer.example_env) 1
      (Producer.example_info 1) req 42 0 key (Producer.example_conn false 100)
    = Producer.Normal ENGINE_SUCCESS s' /\
    MsgList.used (Producer.msgs s')
    = [ {| MsgList.iov_base := MsgList.InPipe 0; MsgList.iov_len := 42 |};
        {| MsgList.iov_base := MsgList.ItemKey 1 1; MsgList.iov_len := 2 |};
        {| MsgList.iov_base := MsgList.ItemValue 1 0; MsgList.iov_len := 5 |} ].
Proof.
  cbv zeta.
  exists {| Producer.magic := Producer.ClientRequest;
            Producer.opcode := Producer.DcpDeletion;
            Producer.extlen := 18; Producer.keylen := 2;
            Producer.framingExtraslen := 0; Producer.bodylen := 25;
            Producer.opaque := 7; Producer.vbucket := 0;
            Producer.cas := 1234; Producer.datatype := 0 |}.
  match goal with
  | |- exists s', Producer.deletionInner ?it ?info ?req ?p ?m ?k ?s = _ /\ _ =>
      destruct (deletionInner_outcome (H := Producer.example_env)
                  s it info req p m k) as [_ Hok]; try example_hyp;
      destruct Hok as (s' & Hdel & _ & _ & _ & _ & Hused & _);
        [vm_compute; congruence |];
      exists s'; split; [exact Hdel | rewrite Hused; vm_compute; reflexivity]
  end.
Defined.

Lemma mutation_queues_announced_body_witness :
  exists s',
    Producer.mutation (H := Producer.example_env) 7 1 0 10 1 0 0 0 None
      (Producer.example_conn false 100)
    = Producer.Return ENGINE_SUCCESS s' /\
    MsgList.used (Producer.msgs s')
    = [ {| MsgList.iov_base := MsgList.InPipe 0; MsgList.iov_len := 55 |};
        {| MsgList.iov_base := MsgList.ItemKey 1 1; MsgList.iov_len := 2 |};
        {| MsgList.iov_base := MsgList.ItemValue 1 0; MsgList.iov_len := 5 |} ].
Proof.
  destruct (mutation_queues_announced_body (H := Producer.example_env)
              (Producer.example_conn false 100)
              (Producer.with_items (Producer.example_conn false 100) [1%nat] [])
              (Producer.example_info 1) 7 1 0 10 1 0 0 0 None)
    as (s' & req & Heq & _ & _ & _ & _ & _ & _ & Hused & _); try example_hyp.
  exists s'. split; [exact Heq |].
  rewrite Hused. vm_compute. reflexivity.
Defined.

Lemma mutation_e2big_iff_witness :
  exists s',
    Producer.mutation (H := Producer.example_env) 7 1 0 10 1 0 0 0 None
      (Producer.example_conn false 54)
    = Producer.Return ENGINE_E2BIG s'.
Proof.
  destruct (mutation_e2big_iff (H := Producer.example_env)
              (Producer.example_conn false 54)
              (Producer.with_items (Producer.example_conn false 54) [1%nat] [])
              (Producer.example_info 1) 7 1 0 10 1 0 0 0 None)
    as [[Hsmall _] _]; try example_hyp.
  apply Hsmall. example_hyp.
Defined.

Lemma deletion_queues_announced_body_witness :
  exists s',
    Producer.deletion (H := Producer.example_env) 7 1 0 10 1 0 (Some 3)
      (Producer.example_conn false 100)
    = Producer.Return ENGINE_SUCCESS s' /\
    MsgList.used (Producer.msgs s')
    = [ {| MsgList.iov_base := MsgList.InPipe 0; MsgList.iov_len := 45 |};
        {| MsgList.iov_base := MsgList.ItemKey 1 1; MsgList.iov_len := 2 |};
        {| MsgList.iov_base := MsgList.ItemValue 1 0; MsgList.iov_len := 5 |} ].
Proof.
  destruct (deletion_queues_announced_body (H := Producer.example_env)
              (Producer.example_conn false 100)
              (Producer.with_items (Producer.example_conn false 100) [1%nat] [])
              (Producer.example_info 1) 7 1 0 10 1 0 (Some 3))
    as (s' & req & Heq & _ & _ & _ & _ & _ & Hused & _); try example_hyp.
  exists s'. split; [exact Heq |].
  rewrite Hused. vm_compute. reflexivity.
Defined.

Lemma deletionOrExpirationV2_queues_announced_body_witness :
  exists s',
    Producer.expiration (H := Producer.example_env) 7 1 0 10 1 0 None
      (Producer.example_conn true 100)
    = Producer.Return ENGINE_SUCCESS s'.
Proof.
  destruct (deletionOrExpirationV2_queues_announced_body
              (H := Producer.example_env)
              (Producer.example_conn true 100)
              (Producer.with_items (Producer.example_conn true 100) [1%nat] [])
              (Producer.example_info 1) 7 1 0 10 1 0 Producer.TTL None)
    as (s' & req & Heq & _); try example_hyp.
  exists s'. exact Heq.
Defined.

Lemma mutation_hands_item_over_once_witness :
  exists s',
    Producer.state_of
      (Producer.mutation (H := Producer.example_env) 7 1 0 10 1 0 0 0 None
         (Producer.example_conn false 100)) = Some s' /\
    count_occ Nat.eq_dec
      (Producer.released (Producer.releaseReservedItems s')) 1%nat
    = 1%nat.
Proof.
  apply (mutation_hands_item_over_once (H := Producer.example_env)
           (Producer.example_conn false 100)
           (Producer.with_items (Producer.example_conn false 100) [1%nat] [])
           true 7 1 0 10 1 0 0 0 None); example_hyp.
Defined.

Lemma deletion_collections_releases_twice_witness :
  exists s',
    Producer.deletion (H := Producer.example_env) 7 1 0 10 1 0 None
      (Producer.example_conn true 100)
    = Producer.Return ENGINE_FAILED s' /\
    count_occ Nat.eq_dec
      (Producer.released (Producer.releaseReservedItems s')) 1%nat
    = 2%nat.
Proof.
  destruct (deletion_collections_releases_twice (H := Producer.example_env)
              (Producer.example_conn true 100)
              (Producer.with_items (Producer.example_conn true 100) [1%nat] [])
              (Producer.example_info 1) 7 1 0 10 1 0 None)
    as (s' & Heq & _ & _ & _ & _ & _ & Hcount); try example_hyp.
  exists s'. split; [exact Heq | exact Hcount].
Defined.

(** A mutation and an expiration of the example item on a connection
    without collections: 24 + 31 header bytes, then the key without its
    collection id and the value; and the expiration behind it. *)
Example test_mutation_then_expiration :
  let s0 := Producer.example_conn false 200 in
  let r1 := Producer.mutation (H := Producer.example_env) 7 1 0 10 1 0 0 0 None s0 in
  let r2 := Producer.state_of r1
            ≫= fun s => Producer.state_of
                 (Producer.expiration (H := Producer.example_env) 8 2 0 11 1 0 None s) in
  (MsgList.queued_bytes ∘ Producer.msgs <$> Producer.state_of r1) = Some 62 /\
  (MsgList.used ∘ Producer.msgs <$> Producer.state_of r1)
  = Some [ {| MsgList.iov_base := MsgList.InPipe 0; MsgList.iov_len := 55 |};
           {| MsgList.iov_base := MsgList.ItemKey 1 1; MsgList.iov_len := 2 |};
           {| MsgList.iov_base := MsgList.ItemValue 1 0; MsgList.iov_len := 5 |} ] /\
  (map Producer.bodylen ∘ Producer.sent <$> r2) = Some [38; 27] /\
  (MsgList.queued_bytes ∘ Producer.msgs <$> r2) = Some (62 + 24 + 27) /\
  (Producer.pipe_free <$> r2) = Some (200 - 55 - 44) /\
  (Producer.reservedItems <$> r2) = Some [1; 2]%nat.
Proof. vm_compute. auto 10. Qed.

(** ** Client writes of the bucket *)

Section ClientWriteFacts.
Import VB KVBucket.
Context `{KVBucket.Deps}.

Lemma getBucket_putBucket_ne (m : VBucketMap) (v v' : nat) (vb : VBucket) :
  v <> v' -> getBucket (putBucket m v vb) v' = getBucket m v'.
Proof.
  intros Hne. unfold getBucket, putBucket, VBucketMap in *.
  rewrite list_lookup_insert_ne by exact Hne. reflexivity.
Qed.

Lemma getBucket_Some_lt (m : VBucketMap) (v : nat) (vb : VBucket) :
  getBucket m v = Some vb -> (v < length m)%nat.
Proof.
  unfold getBucket, VBucketMap in *. intros Hget. apply lookup_lt_is_Some.
  destruct (m !! v); [eauto | discriminate].
Qed.

Lemma getBucket_putBucket_eq (m : VBucketMap) (v : nat) (vb : VBucket) :
  (v < length m)%nat -> getBucket (putBucket m v vb) v = Some vb.
Proof.
  intros Hlt. unfold getBucket, putBucket, VBucketMap in *.
  rewrite list_lookup_insert_eq by exact Hlt. reflexivity.
Qed.

Lemma getVBucket_store_ne (kv : KVBucket.t) (v v' : nat) (vb : VBucket) :
  v <> v' -> getVBucket (store kv v vb) v' = getVBucket kv v'.
Proof. intros Hne. apply getBucket_putBucket_ne. exact Hne. Qed.

Lemma getSize_store (kv : KVBucket.t) (v : nat) (vb : VBucket) :
  getSize (vbMap (store kv v vb)) = getSize (vbMap kv).
Proof.
  unfold store, getSize, putBucket, VBucketMap in *. simpl.
  apply length_insert.
Qed.

(** What the collections scope leaves alone. *)
Lemma collections_scope_frame (kv : KVBucket.t) (v : nat) (vb : VBucket)
    (key : string) (cookie : nat)
    (op : VBucket -> ENGINE_ERROR_CODE * VBucket) (v' : nat) :
  v <> v' ->
  getVBucket (snd (collections_scope kv v vb key cookie op)) v'
  = getVBucket kv v' /\
  getSize (vbMap (snd (collections_scope kv v vb key cookie op)))
  = getSize (vbMap kv) /\
  numNotMyVBuckets (snd (collections_scope kv v vb key cookie op))
  = numNotMyVBuckets kv.
Proof.
  intros Hne. unfold collections_scope.
  destruct (valid (lockCollections vb key)); simpl.
  - destruct (op vb) as [rc vb']. simpl.
    split; [apply getVBucket_store_ne; exact Hne |].
    split; [apply getSize_store | reflexivity].
  - repeat split.
Qed.

(** X11.  set, add, replace and deleteItem on a partition that the node does
    not hold, or holds dead or as a replica, answer NOT_MY_VBUCKET and
    change nothing but the count of such requests, which grows by one. *)
Theorem client_writes_count_not_my_vbucket (kv : KVBucket.t) (itm : Item)
    (key : string) (cas : Z) (cookie : nat) :
  match getVBucket kv (itm_vbucket itm) with
  | None => True
  | Some vb => state vb = vbucket_state_dead \/ state vb = vbucket_state_replica
  end ->
  set kv itm cookie = (ENGINE_NOT_MY_VBUCKET, incrNotMyVBuckets kv) /\
  add kv itm cookie = (ENGINE_NOT_MY_VBUCKET, incrNotMyVBuckets kv) /\
  replace kv itm cookie = (ENGINE_NOT_MY_VBUCKET, incrNotMyVBuckets kv) /\
  deleteItem kv key cas (itm_vbucket itm) cookie
  = (ENGINE_NOT_MY_VBUCKET, incrNotMyVBuckets kv).
Proof.
  unfold set, add, replace, deleteItem, getState.
  destruct (getVBucket kv (itm_vbucket itm)) as [vb |]; [| auto].
  intros [Hst | Hst]; rewrite Hst; simpl; auto.
Qed.

(** X12.  On an active partition without a backed-up takeover a key of an
    unknown collection is refused with UNKNOWN_COLLECTION by set, replace,
    deleteItem and (for an item without CAS) add: the manifest uid of the
    partition is put into the cookie's error context and no partition
    changes. *)
Theorem client_writes_unknown_collection (kv : KVBucket.t) (itm : Item)
    (cas : Z) (cookie : nat) (vb : VBucket) :
  getVBucket kv (itm_vbucket itm) = Some vb ->
  state vb = vbucket_state_active ->
  takeoverBackedUp vb = false ->
  valid (lockCollections vb (itm_key itm)) = false ->
  let refused :=
    (ENGINE_UNKNOWN_COLLECTION,
     emit kv (SetErrorContext cookie
                (handleManifestUid (lockCollections vb (itm_key itm))))) in
  set kv itm cookie = refused /\
  replace kv itm cookie = refused /\
  deleteItem kv (itm_key itm) cas (itm_vbucket itm) cookie = refused /\
  (itm_cas itm = 0 -> add kv itm cookie = refused) /\
  vbMap (snd refused) = vbMap kv.
Proof.
  intros Hvb Hst Hto Hinvalid. cbv zeta.
  unfold set, add, replace, deleteItem, getState, isTakeoverBackedUp,
    collections_scope.
  rewrite Hvb, Hst, Hto, Hinvalid. simpl.
  repeat split. intros ->. reflexivity.
Qed.

(** X13.  add of an item that carries a CAS never reaches the partition: it
    is refused as any write to the partition is (NOT_MY_VBUCKET for dead
    and replica, EWOULDBLOCK with the cookie queued for pending, TMPFAIL
    for a backed-up takeover) and with NOT_STORED on an admitted
    partition, before the collection of the key is looked at and with the
    bucket unchanged. *)
Theorem add_with_cas_not_stored (kv : KVBucket.t) (itm : Item) (cookie : nat)
    (vb : VBucket) :
  getVBucket kv (itm_vbucket itm) = Some vb ->
  itm_cas itm <> 0 ->
  fst (add kv itm cookie)
  = match state vb with
    | vbucket_state_dead | vbucket_state_replica => ENGINE_NOT_MY_VBUCKET
    | vbucket_state_pending => ENGINE_EWOULDBLOCK
    | vbucket_state_active =>
        if takeoverBackedUp vb then ENGINE_TMPFAIL else ENGINE_NOT_STORED
    end /\
  (state vb = vbucket_state_active -> takeoverBackedUp vb = false ->
   add kv itm cookie = (ENGINE_NOT_STORED, kv)).
Proof.
  intros Hvb Hcas. unfold add, getState, isTakeoverBackedUp, addPendingOp.
  rewrite Hvb. apply Z.eqb_neq in Hcas. rewrite Hcas.
  destruct (state vb); simpl; try (split; [reflexivity | discriminate]).
  destruct (takeoverBackedUp vb); simpl;
    (split; [reflexivity | intros _ Hto; try discriminate; reflexivity]).
Qed.

(** X14.  set, add, replace and deleteItem leave every other partition and
    the size of the partition map as they were. *)
Theorem client_writes_touch_one_partition (kv : KVBucket.t) (itm : Item)
    (key : string) (cas : Z) (cookie : nat) (v' : nat) :
  itm_vbucket itm <> v' ->
  (getVBucket (snd (set kv itm cookie)) v' = getVBucket kv v' /\
   getSize (vbMap (snd (set kv itm cookie))) = getSize (vbMap kv)) /\
  (getVBucket (snd (add kv itm cookie)) v' = getVBucket kv v' /\
   getSize (vbMap (snd (add kv itm cookie))) = getSize (vbMap kv)) /\
  (getVBucket (snd (replace kv itm cookie)) v' = getVBucket kv v' /\
   getSize (vbMap (snd (replace kv itm cookie))) = getSize (vbMap kv)) /\
  (getVBucket (snd (deleteItem kv key cas (itm_vbucket itm) cookie)) v'
   = getVBucket kv v' /\
   getSize (vbMap (snd (deleteItem kv key cas (itm_vbucket itm) cookie)))
   = getSize (vbMap kv)).
Proof.
  intros Hne.
  assert (Hscope : forall kv0 vb key0 op,
    getVBucket kv0 v' = getVBucket kv v' ->
    getSize (vbMap kv0) = getSize (vbMap kv) ->
    getVBucket (snd (collections_scope kv0 (itm_vbucket itm) vb key0 cookie op)) v'
    = getVBucket kv v' /\
    getSize (vbMap (snd (collections_scope kv0 (itm_vbucket itm) vb key0 cookie op)))
    = getSize (vbMap kv)).
  { intros kv0 vb key0 op Hg Hs.
    destruct (collections_scope_frame kv0 (itm_vbucket itm) vb key0 cookie op v' Hne)
      as (Hg' & Hs' & _).
    rewrite Hg', Hs'. auto. }
  unfold set, add, replace, deleteItem, getState, isTakeoverBackedUp,
    addPendingOp.
  destruct (getVBucket kv (itm_vbucket itm)) as [vb |]; [| simpl; auto 10].
  destruct (state vb); simpl; auto 10;
    repeat match goal with
    | |- context [if takeoverBackedUp vb then _ else _] =>
        destruct (takeoverBackedUp vb); simpl
    | |- context [if negb (itm_cas itm =? 0) then _ else _] =>
        destruct (itm_cas itm =? 0); simpl
    end;
    repeat split;
    first [ reflexivity
          | apply Hscope; reflexivity
          | apply getVBucket_store_ne; exact Hne
          | apply getSize_store ].
Qed.

End ClientWriteFacts.

(** ** Partition state changes *)

Section StateChangeFacts.
Import VB KVBucket KVBucketAssumptions.
Context `{KVBucket.Deps}.

Lemma scheduleVBStatePersist_store (kv : KVBucket.t) (vbid : nat)
    (vb0 vb : VBucket) :
  getVBucket kv vbid = Some vb0 ->
  scheduleVBStatePersist (store kv vbid vb) vbid
  = store (store kv vbid vb) vbid (queueSetVBState vb).
Proof.
  intros Hvb. unfold scheduleVBStatePersist.
  assert (Hget : getVBucket (store kv vbid vb) vbid = Some vb).
  { apply getBucket_putBucket_eq. eapply getBucket_Some_lt. exact Hvb. }
  rewrite Hget. reflexivity.
Qed.

Lemma update_vb_only (m : Collections.Manager) (vb : VBucket) :
  (forall vb0 mf,
     manifest_update_only vb0 (snd (Collections.updateFromManifest vb0 mf))) ->
  manifest_update_only vb (Collections.update_vb m vb).
Proof.
  intros Hkeep. unfold Collections.update_vb.
  destruct (Collections.current m) as [cur |]; [apply Hkeep |].
  unfold manifest_update_only. auto 10.
Qed.

(** X15.  A state change of a partition that the node holds (another state,
    or metadata given) succeeds and makes these calls, in this order: DCP
    is told when the state really changes and the caller asked for it,
    with inbound streams to be closed exactly for a promotion to active
    that is not a transfer; the pending operations are notified exactly
    for pending to active. *)
Theorem setVBucketState_events (kv : KVBucket.t) (vbid : nat) (vb : VBucket)
    (to : vbucket_state_t) (meta : json) (transfer : TransferVB)
    (notify_dcp : bool) :
  getVBucket kv vbid = Some vb ->
  to <> state vb \/ json_empty meta = false ->
  fst (setVBucketState_UNLOCKED kv vbid to meta transfer notify_dcp)
  = ENGINE_SUCCESS /\
  events (snd (setVBucketState_UNLOCKED kv vbid to meta transfer notify_dcp))
  = events kv
    ++ (if bool_decide (state vb <> to) && notify_dcp
        then [DcpVbucketStateChanged vbid to
                (bool_decide (to = vbucket_state_active)
                 && bool_decide (transfer = TransferNo))]
        else [])
    ++ (if bool_decide (state vb = vbucket_state_pending)
           && bool_decide (to = vbucket_state_active)
        then [SchedulePendingOpsNotification vbid]
        else []).
Proof.
  intros Hvb Hchange. unfold setVBucketState_UNLOCKED.
  unfold getVBucket in Hvb. rewrite Hvb. unfold setState. unfold getState.
  assert (Hsame : bool_decide (to = state vb) && json_empty meta = false).
  { destruct Hchange as [Hne | Hmeta].
    - rewrite bool_decide_eq_false_2 by exact Hne. reflexivity.
    - rewrite Hmeta. apply andb_false_r. }
  rewrite Hsame. cbv zeta.
  assert (Hev : forall kv0 v vb0, events (scheduleVBStatePersist (store kv0 v vb0) v)
                                  = events kv0).
  { intros kv0 v vb0. unfold scheduleVBStatePersist.
    destruct (getVBucket (store kv0 v vb0) v); reflexivity. }
  destruct (bool_decide (state vb <> to) && notify_dcp);
    destruct (bool_decide (to = vbucket_state_active)
              && bool_decide (transfer = TransferNo));
    destruct (bool_decide (state vb = vbucket_state_pending)
              && bool_decide (to = vbucket_state_active));
    simpl; (split; [reflexivity |]); rewrite Hev; simpl;
    rewrite ?app_nil_r, <- ?app_assoc; reflexivity.
Qed.

Lemma scheduleVBStatePersist_lookup (kv0 : KVBucket.t) (vbid : nat)
    (vb3 : VBucket) :
  (vbid < getSize (vbMap kv0))%nat ->
  getVBucket (scheduleVBStatePersist (store kv0 vbid vb3) vbid) vbid
  = Some (queueSetVBState vb3) /\
  next_uuid (scheduleVBStatePersist (store kv0 vbid vb3) vbid)
  = next_uuid kv0.
Proof.
  intros Hlt. unfold scheduleVBStatePersist.
  assert (Hget : getVBucket (store kv0 vbid vb3) vbid = Some vb3).
  { apply getBucket_putBucket_eq. exact Hlt. }
  rewrite Hget. split; [| reflexivity].
  apply getBucket_putBucket_eq. rewrite getSize_store. exact Hlt.
Qed.

(** X16.  After a state change of a partition that the node holds, the
    partition is in the requested state, a set_vbucket_state item is the
    last one queued for the flusher, and the failover table has one new
    entry exactly for a promotion to active that is not a transfer: with
    a fresh UUID, at the end of the persisted snapshot when that is the
    persisted seqno and at its start otherwise.  The partition's
    updateFromManifest is assumed to change collections data only. *)
Theorem setVBucketState_transition (kv : KVBucket.t) (vbid : nat)
    (vb : VBucket) (to : vbucket_state_t) (meta : json)
    (transfer : TransferVB) (notify_dcp : bool) :
  (forall vb0 mf,
     manifest_update_only vb0 (snd (Collections.updateFromManifest vb0 mf))) ->
  getVBucket kv vbid = Some vb ->
  to <> state vb \/ json_empty meta = false ->
  exists vb',
    getVBucket
      (snd (setVBucketState_UNLOCKED kv vbid to meta transfer notify_dcp)) vbid
    = Some vb' /\
    state vb' = to /\
    last (ckpt_items (checkpointManager vb')) = Some op_set_vbucket_state /\
    failovers vb'
    = (if bool_decide (to = vbucket_state_active)
          && bool_decide (transfer = TransferNo)
       then createEntry (random_uuid (next_uuid kv))
              (if range_end (persistedSnapshot vb) =? persistenceSeqno vb
               then range_end (persistedSnapshot vb)
               else range_start (persistedSnapshot vb))
              (failovers vb)
       else failovers vb) /\
    next_uuid
      (snd (setVBucketState_UNLOCKED kv vbid to meta transfer notify_dcp))
    = next_uuid kv
      + (if bool_decide (to = vbucket_state_active)
            && bool_decide (transfer = TransferNo)
         then 1 else 0).
Proof.
  intros Hkeep Hvb Hchange.
  pose proof (getBucket_Some_lt _ _ _ Hvb) as Hlt.
  unfold setVBucketState_UNLOCKED.
  unfold getVBucket in Hvb. rewrite Hvb. unfold setState. unfold getState.
  assert (Hsame : bool_decide (to = state vb) && json_empty meta = false).
  { destruct Hchange as [Hne | Hmeta].
    - rewrite bool_decide_eq_false_2 by exact Hne. reflexivity.
    - rewrite Hmeta. apply andb_false_r. }
  rewrite Hsame. cbv zeta.
  unfold getPersistedSnapshot, getPersistenceSeqno.
  set (kv2 := if bool_decide (state vb <> to) && notify_dcp then _ else _).
  assert (Hkv2 : getSize (vbMap kv2) = getSize (vbMap kv)
                 /\ next_uuid kv2 = next_uuid kv).
  { subst kv2. destruct (bool_decide (state vb <> to) && notify_dcp); simpl;
      (split; [apply (getSize_store kv vbid) | reflexivity]). }
  destruct Hkv2 as [Hsize2 Huuid2].
  set (vb2 := if bool_decide (to = vbucket_state_active)
                 && bool_decide (state vb = vbucket_state_replica)
              then _ else _).
  assert (Hvb2 : state vb2 = to /\ failovers vb2 = failovers vb /\
                 persistedSnapshot vb2 = persistedSnapshot vb /\
                 persistenceSeqno vb2 = persistenceSeqno vb).
  { subst vb2.
    destruct (bool_decide (to = vbucket_state_active)
              && bool_decide (state vb = vbucket_state_replica)).
    - destruct (update_vb_only (collectionsManager kv2)
                  (with_checkpointManager (with_state vb to meta)
                     (resetSnapshotRange
                        (checkpointManager (with_state vb to meta)))) Hkeep)
        as (_ & H2 & H3 & H4 & H5 & _).
      rewrite H2, H3, H4, H5. simpl. auto.
    - simpl. auto. }
  destruct Hvb2 as (Hst2 & Hfo2 & Hps2 & Hpq2).
  clearbody vb2. rewrite Hps2, Hpq2, Hfo2.
  destruct (bool_decide (to = vbucket_state_active)
            && bool_decide (transfer = TransferNo)).
  - set (kv4 := if bool_decide (state vb = vbucket_state_pending)
                   && bool_decide (to = vbucket_state_active)
                then _ else _).
    assert (Hkv4 : getSize (vbMap kv4) = getSize (vbMap kv)
                   /\ next_uuid kv4 = next_uuid kv + 1).
    { subst kv4.
      destruct (bool_decide (state vb = vbucket_state_pending)
                && bool_decide (to = vbucket_state_active)); simpl;
        rewrite Huuid2; auto. }
    destruct Hkv4 as [Hsize4 Huuid4]. clearbody kv4. simpl.
    match goal with
    | |- context [scheduleVBStatePersist (store kv4 vbid ?v) vbid] =>
        destruct (scheduleVBStatePersist_lookup kv4 vbid v) as [Hget Hnext];
          [rewrite Hsize4; exact Hlt |]
    end.
    eexists. split; [exact Hget |]. rewrite Hnext, Huuid4, Huuid2.
    simpl. rewrite last_snoc. auto.
  - set (kv4 := if bool_decide (state vb = vbucket_state_pending)
                   && bool_decide (to = vbucket_state_active)
                then _ else _).
    assert (Hkv4 : getSize (vbMap kv4) = getSize (vbMap kv)
                   /\ next_uuid kv4 = next_uuid kv).
    { subst kv4.
      destruct (bool_decide (state vb = vbucket_state_pending)
                && bool_decide (to = vbucket_state_active)); simpl; auto. }
    destruct Hkv4 as [Hsize4 Huuid4]. clearbody kv4. simpl.
    destruct (scheduleVBStatePersist_lookup kv4 vbid vb2) as [Hget Hnext];
      [rewrite Hsize4; exact Hlt |].
    eexists. split; [exact Hget |]. rewrite Hnext, Huuid4.
    simpl. rewrite last_snoc. split; [exact Hst2 |].
    split; [reflexivity |]. split; [exact Hfo2 | lia].
Qed.

(** The creation branch of setVBucketState_UNLOCKED. *)
Lemma setVBucketState_creation (kv : KVBucket.t) (vbid : nat)
    (to : vbucket_state_t) (meta : json) (transfer : TransferVB)
    (notify_dcp : bool) :
  (forall vb0 mf,
     manifest_update_only vb0 (snd (Collections.updateFromManifest vb0 mf))) ->
  id (makeVBucket vbid to (maxFailoverEntries (config kv))) = vbid ->
  getVBucket kv vbid = None ->
  ((getSize (vbMap kv) <= vbid)%nat ->
     setVBucketState_UNLOCKED kv vbid to meta transfer notify_dcp
     = (ENGINE_ERANGE, kv)) /\
  ((vbid < getSize (vbMap kv))%nat ->
     exists vb',
       fst (setVBucketState_UNLOCKED kv vbid to meta transfer notify_dcp)
       = ENGINE_SUCCESS /\
       getVBucket
         (snd (setVBucketState_UNLOCKED kv vbid to meta transfer notify_dcp))
         vbid = Some vb' /\
       bucketCreation vb' = true /\
       openCheckpointId (checkpointManager vb')
       = (if bool_decide (to = vbucket_state_active) then 2 else 0) /\
       bloomFilter vb'
       = (if bfilterEnabled (config kv)
          then Some (bfilterKeyCount (config kv), bfilterFpProb (config kv))
          else bloomFilter
                 (makeVBucket vbid to (maxFailoverEntries (config kv)))) /\
       last (ckpt_items (checkpointManager vb')) = Some op_set_vbucket_state /\
       events
         (snd (setVBucketState_UNLOCKED kv vbid to meta transfer notify_dcp))
       = events kv ++ [SetFreqSaturatedCallback vbid; IncrementRevision vbid]).
Proof.
  intros Hkeep Hmk Hnone. unfold setVBucketState_UNLOCKED.
  unfold getVBucket in Hnone. rewrite Hnone. split.
  - intros Hout. rewrite (proj2 (Nat.ltb_ge _ _) Hout). reflexivity.
  - intros Hin. rewrite (proj2 (Nat.ltb_lt _ _) Hin). cbv zeta.
    set (newvb := makeVBucket vbid to (maxFailoverEntries (config kv))) in *.
    set (newvb1 := if bfilterEnabled (config kv) then _ else newvb).
    set (newvb2 := setOpenCheckpointId newvb1 _).
    set (kv2 := emit (emit kv _) _).
    set (newvb3 := if bool_decide (to = vbucket_state_active) then _ else newvb2).
    assert (H3 : manifest_update_only newvb2 newvb3).
    { subst newvb3. destruct (bool_decide (to = vbucket_state_active)).
      - apply update_vb_only. exact Hkeep.
      - unfold manifest_update_only. auto 10. }
    destruct H3 as (Hid3 & _ & _ & _ & _ & Hchk3 & Hbf3).
    assert (Hid2 : id newvb2 = vbid).
    { subst newvb2 newvb1. destruct (bfilterEnabled (config kv)); exact Hmk. }
    unfold addBucket. rewrite Hid3, Hid2.
    assert (Hsize2 : getSize (vbMap kv2) = getSize (vbMap kv)) by reflexivity.
    rewrite Hsize2, (proj2 (Nat.ltb_lt _ _) Hin).
    match goal with
    | |- context [scheduleVBStatePersist (store ?k vbid ?v) vbid] =>
        destruct (scheduleVBStatePersist_lookup k vbid v) as [Hget _];
          [unfold with_vbMap, getSize, putBucket, VBucketMap in *; simpl;
           rewrite length_insert; exact Hin |];
        assert (Hev : events (scheduleVBStatePersist (store k vbid v) vbid)
                      = events kv2)
          by (unfold scheduleVBStatePersist;
              destruct (getVBucket (store k vbid v) vbid); reflexivity)
    end.
    eexists. split; [reflexivity |]. split; [exact Hget |].
    split; [reflexivity |].
    split; [simpl; rewrite Hchk3; reflexivity |].
    split; [simpl; rewrite Hbf3; subst newvb2 newvb1;
            destruct (bfilterEnabled (config kv)); reflexivity |].
    split; [simpl; rewrite last_snoc; reflexivity |].
    unfold snd. rewrite Hev. subst kv2. simpl. rewrite <- app_assoc. reflexivity.
Qed.

(** X17.  A state change for a partition that the node does not hold: with
    an id outside the partition map it answers ERANGE and changes nothing;
    inside, it creates the partition, whatever metadata, transfer flag and
    DCP flag were given: the frequency callback is set and the revision
    incremented, the open checkpoint id is 2 for an active partition and 0
    for any other, a bloom filter is created when the configuration
    enables it, the partition is marked as being created, and a
    set_vbucket_state item is queued.  makeVBucket is assumed to give the
    partition the id asked for, updateFromManifest to change collections
    data only. *)
Theorem setVBucketState_creates_partition (kv : KVBucket.t) (vbid : nat)
    (to : vbucket_state_t) (meta : json) (transfer : TransferVB)
    (notify_dcp : bool) :
  (forall vb0 mf,
     manifest_update_only vb0 (snd (Collections.updateFromManifest vb0 mf))) ->
  id (makeVBucket vbid to (maxFailoverEntries (config kv))) = vbid ->
  getVBucket kv vbid = None ->
  ((getSize (vbMap kv) <= vbid)%nat ->
     setVBucketState_UNLOCKED kv vbid to meta transfer notify_dcp
     = (ENGINE_ERANGE, kv)) /\
  ((vbid < getSize (vbMap kv))%nat ->
     exists vb',
       fst (setVBucketState_UNLOCKED kv vbid to meta transfer notify_dcp)
       = ENGINE_SUCCESS /\
       getVBucket
         (snd (setVBucketState_UNLOCKED kv vbid to meta transfer notify_dcp))
         vbid = Some vb' /\
       bucketCreation vb' = true /\
       openCheckpointId (checkpointManager vb')
       = (if bool_decide (to = vbucket_state_active) then 2 else 0) /\
       bloomFilter vb'
       = (if bfilterEnabled (config kv)
          then Some (bfilterKeyCount (config kv), bfilterFpProb (config kv))
          else bloomFilter
                 (makeVBucket vbid to (maxFailoverEntries (config kv)))) /\
       last (ckpt_items (checkpointManager vb')) = Some op_set_vbucket_state /\
       events
         (snd (setVBucketState_UNLOCKED kv vbid to meta transfer notify_dcp))
       = events kv ++ [SetFreqSaturatedCallback vbid; IncrementRevision vbid]).
Proof. exact (setVBucketState_creation kv vbid to meta transfer notify_dcp). Qed.

End StateChangeFacts.

Lemma example_updateFromManifest_only (vb0 : VB.VBucket)
    (mf : Collections.Manifest) :
  KVBucketAssumptions.manifest_update_only vb0
    (snd (Collections.updateFromManifest (Deps := Collections.example_deps)
            vb0 mf)).
Proof.
  unfold KVBucketAssumptions.manifest_update_only. simpl.
  unfold Collections.example_updateFromManifest.
  destruct (VB.manifestUid vb0 <=? Collections.uid mf); simpl; auto 10.
Qed.

Lemma client_writes_count_not_my_vbucket_witness :
  KVBucket.set (H := KVBucket.example_deps)
    (KVBucketAssumptions.two_partitions vbucket_state_dead)
    KVBucket.example_item 1
  = (ENGINE_NOT_MY_VBUCKET,
     KVBucket.incrNotMyVBuckets
       (KVBucketAssumptions.two_partitions vbucket_state_dead)).
Proof.
  apply (client_writes_count_not_my_vbucket (H := KVBucket.example_deps)
           (KVBucketAssumptions.two_partitions vbucket_state_dead)
           KVBucket.example_item "k1" 0 1).
  simpl. left. reflexivity.
Defined.

Lemma client_writes_unknown_collection_witness :
  KVBucket.set (H := KVBucketAssumptions.no_collection_deps)
    (KVBucketAssumptions.two_partitions vbucket_state_active)
    KVBucket.example_item 1
  = (ENGINE_UNKNOWN_COLLECTION,
     KVBucket.emit (KVBucketAssumptions.two_partitions vbucket_state_active)
       (KVBucket.SetErrorContext 1 7)).
Proof.
  apply (client_writes_unknown_collection
           (H := KVBucketAssumptions.no_collection_deps)
           (KVBucketAssumptions.two_partitions vbucket_state_active)
           KVBucket.example_item 0 1
           (Collections.example_vb 0 vbucket_state_active 7));
    reflexivity.
Defined.

Lemma add_with_cas_not_stored_witness :
  fst (KVBucket.add (H := KVBucket.example_deps)
         (KVBucketAssumptions.two_partitions vbucket_state_active)
         KVBucketAssumptions.cas_item 1)
  = ENGINE_NOT_STORED.
Proof.
  apply (proj1 (add_with_cas_not_stored (H := KVBucket.example_deps)
                  (KVBucketAssumptions.two_partitions vbucket_state_active)
                  KVBucketAssumptions.cas_item 1
                  (Collections.example_vb 0 vbucket_state_active 7)
                  eq_refl ltac:(discriminate))).
Defined.

Lemma client_writes_touch_one_partition_witness :
  KVBucket.getVBucket
    (snd (KVBucket.set (H := KVBucket.example_deps)
            (KVBucketAssumptions.two_partitions vbucket_state_pending)
            KVBucket.example_item 1)) 1
  = KVBucket.getVBucket
      (KVBucketAssumptions.two_partitions vbucket_state_pending) 1.
Proof.
  apply (client_writes_touch_one_partition (H := KVBucket.example_deps)
           (KVBucketAssumptions.two_partitions vbucket_state_pending)
           KVBucket.example_item "k1" 0 1 1).
  simpl. lia.
Defined.

Lemma setVBucketState_events_witness :
  KVBucket.events
    (snd (KVBucket.setVBucketState_UNLOCKED (H := KVBucket.example_deps)
            (KVBucketAssumptions.two_partitions vbucket_state_pending)
            0 vbucket_state_active VB.JNull KVBucket.TransferNo true))
  = [ KVBucket.DcpVbucketStateChanged 0 vbucket_state_active true;
      KVBucket.SchedulePendingOpsNotification 0 ].
Proof.
  apply (setVBucketState_events (H := KVBucket.example_deps)
           (KVBucketAssumptions.two_partitions vbucket_state_pending) 0
           (Collections.example_vb 0 vbucket_state_pending 7)
           vbucket_state_active VB.JNull KVBucket.TransferNo true);
    [reflexivity | left; discriminate].
Defined.

Lemma setVBucketState_transition_witness :
  exists vb',
    KVBucket.getVBucket
      (snd (KVBucket.setVBucketState_UNLOCKED (H := KVBucket.example_deps)
              (KVBucketAssumptions.two_partitions vbucket_state_active)
              1 vbucket_state_active VB.JNull KVBucket.TransferNo true)) 1
    = Some vb' /\
    VB.state vb' = vbucket_state_active /\
    VB.entries (VB.failovers vb')
    = [ {| VB.vb_uuid := 1000; VB.by_seqno := 0 |} ].
Proof.
  destruct (setVBucketState_transition (H := KVBucket.example_deps)
              (KVBucketAssumptions.two_partitions vbucket_state_active) 1
              (Collections.example_vb 1 vbucket_state_replica 0)
              vbucket_state_active VB.JNull KVBucket.TransferNo true
              example_updateFromManifest_only)
    as (vb' & Hget & Hst & _ & Hfo & _);
    [reflexivity | left; discriminate |].
  exists vb'. split; [exact Hget |]. split; [exact Hst |].
  rewrite Hfo. reflexivity.
Defined.

Lemma setVBucketState_creates_partition_witness :
  KVBucket.setVBucketState_UNLOCKED (H := KVBucket.example_deps)
    KVBucketAssumptions.empty_bucket 2 vbucket_state_replica VB.JNull
    KVBucket.TransferNo true
  = (ENGINE_ERANGE, KVBucketAssumptions.empty_bucket) /\
  exists vb',
    KVBucket.getVBucket
      (snd (KVBucket.setVBucketState_UNLOCKED (H := KVBucket.example_deps)
              KVBucketAssumptions.empty_bucket 1 vbucket_state_active
              VB.JNull KVBucket.TransferNo true)) 1
    = Some vb' /\
    VB.openCheckpointId (VB.checkpointManager vb') = 2.
Proof.
  split.
  - apply (setVBucketState_creates_partition (H := KVBucket.example_deps)
             KVBucketAssumptions.empty_bucket 2 vbucket_state_replica VB.JNull
             KVBucket.TransferNo true example_updateFromManifest_only);
      [reflexivity | reflexivity | simpl; lia].
  - destruct (setVBucketState_creates_partition (H := KVBucket.example_deps)
                KVBucketAssumptions.empty_bucket 1 vbucket_state_active
                VB.JNull KVBucket.TransferNo true
                example_updateFromManifest_only)
      as [_ Hin]; [reflexivity | reflexivity |].
    destruct Hin as (vb' & _ & Hget & _ & Hchk & _); [simpl; lia |].
    exists vb'. split; [exact Hget | exact Hchk].
Defined.

(** ** Reads, meta operations and key locks of the bucket *)

Section OpsFacts.
Import VB KVBucket KVBucketOps.
Context `{KVBucketOps.Deps}.

(** X18.  getInternal with HONOR_STATES: a dead partition and one in the
    state opposite to the allowed one (replica when active is allowed,
    active otherwise) are refused with NOT_MY_VBUCKET and counted; on a
    pending partition the cookie is queued, the answer is EWOULDBLOCK and
    opsGet is incremented exactly when TRACK_STATISTICS is set.  Without
    HONOR_STATES the state is not looked at: a key of a known collection
    is read from the partition whatever its state. *)
Theorem getInternal_honors_states (s : KVBucketOps.t) (key : string)
    (vbucket cookie : nat) (allowedState : vbucket_state_t) (options : Z)
    (vb : VBucket) :
  getVBucket (kv s) vbucket = Some vb ->
  (Z.land options HONOR_STATES <> 0 ->
     (state vb = vbucket_state_dead
      \/ state vb = (if bool_decide (allowedState = vbucket_state_active)
                     then vbucket_state_replica else vbucket_state_active) ->
        getInternal s key vbucket cookie allowedState options
        = (not_my_vbucket, countNotMyVBucket s)) /\
     (state vb = vbucket_state_pending ->
        getInternal s key vbucket cookie allowedState options
        = (failed ENGINE_EWOULDBLOCK,
           let s' := put s vbucket
                         (with_pendingOps vb (pendingOps vb ++ [cookie])) in
           if bool_decide (Z.land options TRACK_STATISTICS <> 0)
           then call s' (IncrOpsGet vbucket) else s'))) /\
  (Z.land options HONOR_STATES = 0 ->
     valid (lockCollections vb key) = true ->
     getInternal s key vbucket cookie allowedState options
     = (fst (vb_getInternal vb key cookie options),
        put s vbucket (snd (vb_getInternal vb key cookie options)))).
Proof.
  intros Hvb. unfold getInternal. rewrite Hvb. unfold getState. split.
  - intros Hhonor. apply Z.eqb_neq in Hhonor. rewrite Hhonor. simpl.
    split.
    + intros [Hst | Hst]; rewrite Hst.
      * reflexivity.
      * destruct (bool_decide (allowedState = vbucket_state_active)); reflexivity.
    + intros Hst. unfold addPendingOp. rewrite Hst. simpl.
      destruct (bool_decide (allowedState = vbucket_state_active)); simpl;
        destruct (Z.eqb_spec (Z.land options TRACK_STATISTICS) 0) as [He | He];
        simpl;
        [ rewrite bool_decide_eq_false_2 by (intros Hc; exact (Hc He))
        | rewrite bool_decide_eq_true_2 by exact He
        | rewrite bool_decide_eq_false_2 by (intros Hc; exact (Hc He))
        | rewrite bool_decide_eq_true_2 by exact He ];
        reflexivity.
  - intros Hoff Hvalid. rewrite Hoff. simpl.
    unfold collections_read_scope. rewrite Hvalid. simpl.
    destruct (vb_getInternal vb key cookie options). reflexivity.
Qed.

(** X19.  setWithMeta calls checkAndMaybeFreeMemory exactly when it answers
    SUCCESS, as its last call; deleteWithMeta never calls it. *)
Theorem with_meta_frees_memory_on_success (s : KVBucketOps.t) (itm : Item)
    (key : string) (cas itemMeta_cas : Z) (vbucket cookie : nat)
    (permittedVBStates : vbucket_state_t -> bool) :
  calls (snd (setWithMeta s itm cas cookie permittedVBStates))
  = calls s
    ++ (if bool_decide
             (fst (setWithMeta s itm cas cookie permittedVBStates)
              = ENGINE_SUCCESS)
        then [CheckAndMaybeFreeMemory] else []) /\
  calls (snd (deleteWithMeta s key cas vbucket cookie permittedVBStates
                             itemMeta_cas))
  = calls s.
Proof.
  split.
  - unfold setWithMeta, with_meta_admission, addPendingOp, getState.
    destruct (getVBucket (kv s) (itm_vbucket itm)) as [vb |]; simpl;
      [| rewrite app_nil_r; reflexivity].
    assert (Hcont : forall s0 vb0, calls s0 = calls s ->
      let r := (if negb (isValidCas (itm_cas itm)) then (ENGINE_KEY_EEXISTS, s0)
                else
                  let '(rv, s1) :=
                    if negb (valid (lockCollections vb0 (itm_key itm)))
                    then (ENGINE_UNKNOWN_COLLECTION,
                          setErrorContext s0 cookie
                            (handleManifestUid (lockCollections vb0 (itm_key itm))))
                    else
                      let '(rv, vb') :=
                        vb_setWithMeta vb0
                          (processExpiryTime vb0 itm (maxTtl (config (kv s0))))
                          cas cookie in
                      (rv, put s0 (itm_vbucket itm) vb') in
                  if bool_decide (rv = ENGINE_SUCCESS)
                  then (rv, call s1 CheckAndMaybeFreeMemory)
                  else (rv, s1)) in
      calls (snd r)
      = calls s ++ (if bool_decide (fst r = ENGINE_SUCCESS)
                    then [CheckAndMaybeFreeMemory] else [])).
    { intros s0 vb0 Hs0. cbv zeta.
      destruct (isValidCas (itm_cas itm)); simpl;
        [| rewrite app_nil_r; exact Hs0].
      destruct (valid (lockCollections vb0 (itm_key itm))); simpl;
        [| rewrite app_nil_r; exact Hs0].
      destruct (vb_setWithMeta vb0 _ cas cookie) as [rv vb'].
      destruct (bool_decide (rv = ENGINE_SUCCESS)) eqn:Hrv; simpl;
        rewrite Hrv, Hs0; [reflexivity | rewrite app_nil_r; reflexivity]. }
    destruct (permittedVBStates (state vb)); simpl.
    + destruct (isTakeoverBackedUp vb); simpl;
        [rewrite app_nil_r; reflexivity |].
      apply (Hcont s vb). reflexivity.
    + destruct (bool_decide (state vb = vbucket_state_pending)); simpl;
        rewrite app_nil_r; reflexivity.
  - unfold deleteWithMeta, with_meta_admission, addPendingOp, getState,
      collections_read_scope.
    destruct (getVBucket (kv s) vbucket) as [vb |]; simpl; [| reflexivity].
    destruct (permittedVBStates (state vb)); simpl.
    + destruct (isTakeoverBackedUp vb); simpl; [reflexivity |].
      destruct (isValidCas itemMeta_cas); simpl; [| reflexivity].
      destruct (valid (lockCollections vb key)); simpl; [| reflexivity].
      destruct (vb_deleteWithMeta vb key cas cookie). reflexivity.
    + destruct (bool_decide (state vb = vbucket_state_pending)); reflexivity.
Qed.

(** X20.  The admission of setWithMeta and deleteWithMeta: a partition whose
    state is not permitted is refused with NOT_MY_VBUCKET and counted,
    unless it is pending, when the cookie is queued and the answer is
    EWOULDBLOCK; in a permitted state (pending included) nothing is queued,
    a backed-up takeover is answered with TMPFAIL, and an invalid CAS with
    KEY_EEXISTS; in both cases nothing changes. *)
Theorem with_meta_admission_table (s : KVBucketOps.t) (itm : Item)
    (key : string) (cas itemMeta_cas : Z) (cookie : nat)
    (permittedVBStates : vbucket_state_t -> bool) (vb : VBucket) :
  getVBucket (kv s) (itm_vbucket itm) = Some vb ->
  let set_ := setWithMeta s itm cas cookie permittedVBStates in
  let del_ := deleteWithMeta s key cas (itm_vbucket itm) cookie
                             permittedVBStates itemMeta_cas in
  (permittedVBStates (state vb) = false ->
     state vb <> vbucket_state_pending ->
     set_ = (ENGINE_NOT_MY_VBUCKET, countNotMyVBucket s) /\
     del_ = (ENGINE_NOT_MY_VBUCKET, countNotMyVBucket s)) /\
  (permittedVBStates (state vb) = false ->
     state vb = vbucket_state_pending ->
     let queued := put s (itm_vbucket itm)
                       (with_pendingOps vb (pendingOps vb ++ [cookie])) in
     set_ = (ENGINE_EWOULDBLOCK, queued) /\
     del_ = (ENGINE_EWOULDBLOCK, queued)) /\
  (permittedVBStates (state vb) = true ->
     takeoverBackedUp vb = true ->
     set_ = (ENGINE_TMPFAIL, s) /\ del_ = (ENGINE_TMPFAIL, s)) /\
  (permittedVBStates (state vb) = true ->
     takeoverBackedUp vb = false ->
     (isValidCas (itm_cas itm) = false -> set_ = (ENGINE_KEY_EEXISTS, s)) /\
     (isValidCas itemMeta_cas = false -> del_ = (ENGINE_KEY_EEXISTS, s))).
Proof.
  intros Hvb. cbv zeta.
  unfold setWithMeta, deleteWithMeta, with_meta_admission, addPendingOp,
    getState, isTakeoverBackedUp.
  rewrite Hvb. split; [| split; [| split]].
  - intros Hperm Hnp. rewrite Hperm. simpl.
    rewrite bool_decide_eq_false_2 by exact Hnp. split; reflexivity.
  - intros Hperm Hp. rewrite Hperm, Hp. simpl. split; reflexivity.
  - intros Hperm Hto. rewrite Hperm, Hto. simpl. split; reflexivity.
  - intros Hperm Hto. rewrite Hperm, Hto. simpl.
    split; intros Hcas; rewrite Hcas; reflexivity.
Qed.

(** X21.  addBackfillItem takes items for replica and pending partitions
    only: a partition that is not held, dead or active is refused with
    NOT_MY_VBUCKET and counted; otherwise an invalid CAS is refused with
    KEY_EEXISTS and nothing changes, and a valid one goes to the partition,
    a pending partition included, without the cookie queue being used. *)
Theorem addBackfillItem_admission (s : KVBucketOps.t) (itm : Item) :
  match getVBucket (kv s) (itm_vbucket itm) with
  | None => addBackfillItem s itm = (ENGINE_NOT_MY_VBUCKET, countNotMyVBucket s)
  | Some vb =>
      match state vb with
      | vbucket_state_dead | vbucket_state_active =>
          addBackfillItem s itm
          = (ENGINE_NOT_MY_VBUCKET, countNotMyVBucket s)
      | vbucket_state_replica | vbucket_state_pending =>
          if isValidCas (itm_cas itm)
          then addBackfillItem s itm
               = (fst (vb_addBackfillItem vb itm),
                  put s (itm_vbucket itm) (snd (vb_addBackfillItem vb itm)))
          else addBackfillItem s itm = (ENGINE_KEY_EEXISTS, s)
      end
  end.
Proof.
  unfold addBackfillItem, getState.
  destruct (getVBucket (kv s) (itm_vbucket itm)) as [vb |]; [| reflexivity].
  destruct (state vb); simpl; try reflexivity;
    destruct (isValidCas (itm_cas itm)); simpl; try reflexivity;
    destruct (vb_addBackfillItem vb itm); reflexivity.
Qed.

(** X22.  unlockKey answers SUCCESS exactly when the partition is held and
    active, the key's collection is known, and the value found is there,
    is locked at the current time and carries the CAS that was given. *)
Theorem unlockKey_success_iff (s : KVBucketOps.t) (key : string)
    (vbucket : nat) (cas currentTime : Z) (cookie : nat) :
  fst (unlockKey s key vbucket cas currentTime cookie) = ENGINE_SUCCESS <->
  exists vb v,
    getVBucket (kv s) vbucket = Some vb /\
    state vb = vbucket_state_active /\
    valid (lockCollections vb key) = true /\
    fst (fetchValidValue vb key) = Some v /\
    isLogicallyNonExistent v = false /\
    isLocked v currentTime = true /\
    sv_cas v = cas.
Proof.
  unfold unlockKey, getState.
  destruct (getVBucket (kv s) vbucket) as [vb |]; simpl.
  2: { split; [discriminate | intros (? & ? & Hc & _); discriminate]. }
  destruct (decide (state vb = vbucket_state_active)) as [Hact | Hact].
  2: { rewrite bool_decide_eq_true_2 by exact Hact. simpl.
       split; [discriminate |].
       intros (vb0 & v & Hget & Hst & _). congruence. }
  rewrite bool_decide_eq_false_2 by (intros Hc; exact (Hc Hact)).
  destruct (valid (lockCollections vb key)) eqn:Hvalid; simpl.
  2: { split; [discriminate |].
       intros (vb0 & v & Hget & _ & Hv & _). congruence. }
  destruct (fetchValidValue vb key) as [[v |] vb1] eqn:Hfetch; simpl.
  2: { split.
       - destruct (eviction_policy s); discriminate.
       - intros (vb0 & v & Hget & _ & _ & Hf & _).
         injection Hget as <-. rewrite Hfetch in Hf. discriminate. }
  destruct (isLogicallyNonExistent v) eqn:Hgone; simpl.
  { split; [discriminate |].
    intros (vb0 & v0 & Hget & _ & _ & Hf & Hg & _).
    injection Hget as <-. rewrite Hfetch in Hf. simpl in Hf.
    injection Hf as <-. congruence. }
  destruct (isLocked v currentTime) eqn:Hlocked; simpl.
  2: { split; [discriminate |].
       intros (vb0 & v0 & Hget & _ & _ & Hf & _ & Hl & _).
       injection Hget as <-. rewrite Hfetch in Hf. simpl in Hf.
       injection Hf as <-. congruence. }
  destruct (Z.eqb_spec (sv_cas v) cas) as [Hcas | Hcas]; simpl.
  - split; [| reflexivity]. intros _. exists vb, v.
    rewrite Hfetch. auto 10.
  - split; [discriminate |].
    intros (vb0 & v0 & Hget & _ & _ & Hf & _ & _ & Hc).
    injection Hget as <-. rewrite Hfetch in Hf. simpl in Hf.
    injection Hf as <-. contradiction.
Qed.

(** X23.  validateKey does not test the partition handle: on a partition
    that is not held its behaviour is undefined.  For a resident value
    with the flags of the disk item it compares only as many bytes as the
    disk item has: a value in memory that is shorter is read past its end,
    and one that starts with the disk item's bytes is found valid, however
    long it is. *)
Theorem validateKey_compares_prefix (s : KVBucketOps.t) (key : string)
    (vbucket : nat) (diskItem : DiskItem) :
  (getVBucket (kv s) vbucket = None ->
     validateKey s key vbucket diskItem = None) /\
  (forall vb v vb1,
     getVBucket (kv s) vbucket = Some vb ->
     valid (lockCollections vb key) = true ->
     fetchValidValue vb key = (Some v, vb1) ->
     isLogicallyNonExistent v = false ->
     d_flags diskItem = sv_flags v ->
     sv_resident v = true ->
     ((length (sv_data v) < length (d_data diskItem))%nat ->
        validateKey s key vbucket diskItem = None) /\
     ((length (d_data diskItem) <= length (sv_data v))%nat ->
        fst <$> validateKey s key vbucket diskItem
        = Some (if bool_decide
                     (take (length (d_data diskItem)) (sv_data v)
                      = d_data diskItem)
                then "valid"%string else "data_mismatch"%string))).
Proof.
  unfold validateKey. split.
  - intros ->. reflexivity.
  - intros vb v vb1 Hvb Hvalid Hfetch Hgone Hflags Hres.
    rewrite Hvb, Hvalid, Hfetch, Hgone, Hflags, Z.eqb_refl, Hres. simpl.
    unfold memcmp_differs. rewrite Nat.leb_refl. simpl.
    rewrite firstn_all. split.
    + intros Hshort. rewrite (proj2 (Nat.leb_gt _ _) Hshort). reflexivity.
    + intros Hlong. rewrite (proj2 (Nat.leb_le _ _) Hlong).
      destruct (decide (d_data diskItem
                        = take (length (d_data diskItem)) (sv_data v)))
        as [Heq | Hne].
      * rewrite bool_decide_eq_true_2 by exact Heq.
        rewrite bool_decide_eq_true_2 by (symmetry; exact Heq). reflexivity.
      * rewrite bool_decide_eq_false_2 by exact Hne.
        rewrite bool_decide_eq_false_2 by (intros Hc; apply Hne; symmetry; exact Hc).
        reflexivity.
Qed.

(** X24.  What a pending partition does with a request: getAndUpdateTtl
    queues the cookie and answers EWOULDBLOCK; getLocked and unlockKey answer NOT_MY_VBUCKET and count
    it, evictKey answers NotMyVbucket without counting; getMetaData,
    getKeyStats and addBackfillItem go on to the partition. *)
Theorem pending_partition_handling (s : KVBucketOps.t) (key : string)
    (vbucket cookie : nat) (vb : VBucket) (exptime cas currentTime : Z)
    (lockTimeout : Z) (itm : Item) :
  getVBucket (kv s) vbucket = Some vb ->
  state vb = vbucket_state_pending ->
  itm_vbucket itm = vbucket ->
  let queued := put s vbucket
                    (with_pendingOps vb (pendingOps vb ++ [cookie])) in
  getAndUpdateTtl s key vbucket cookie exptime
  = (failed ENGINE_EWOULDBLOCK, queued) /\
  getLocked s key vbucket currentTime lockTimeout cookie
  = (not_my_vbucket, countNotMyVBucket s) /\
  unlockKey s key vbucket cas currentTime cookie
  = (ENGINE_NOT_MY_VBUCKET, countNotMyVBucket s) /\
  evictKey s key vbucket = (StatusNotMyVbucket, s) /\
  getMetaData s key vbucket cookie
  = collections_read_scope s vbucket vb key cookie ENGINE_UNKNOWN_COLLECTION
      (fun vb => vb_getMetaData vb key cookie) /\
  getKeyStats s key vbucket cookie
  = collections_read_scope s vbucket vb key cookie ENGINE_UNKNOWN_COLLECTION
      (fun vb => vb_getKeyStats vb key cookie) /\
  (isValidCas (itm_cas itm) = true ->
   addBackfillItem s itm
   = (fst (vb_addBackfillItem vb itm),
      put s vbucket (snd (vb_addBackfillItem vb itm)))).
Proof.
  intros Hvb Hst Hitm. cbv zeta.
  unfold getAndUpdateTtl, getLocked, unlockKey, evictKey, getMetaData,
    getKeyStats, addBackfillItem, addPendingOp, getState.
  rewrite Hitm, Hvb, Hst. simpl. repeat split.
  intros ->. simpl. destruct (vb_addBackfillItem vb itm). reflexivity.
Qed.

End OpsFacts.

Lemma getInternal_honors_states_witness :
  KVBucketOps.getInternal (H := KVBucketOps.example_deps)
    (KVBucketOps.example_state vbucket_state_replica) "k1" 0 1
    vbucket_state_active 4
  = (KVBucketOps.not_my_vbucket,
     KVBucketOps.countNotMyVBucket
       (KVBucketOps.example_state vbucket_state_replica)) /\
  KVBucketOps.gv_status
    (fst (KVBucketOps.getInternal (H := KVBucketOps.example_deps)
            (KVBucketOps.example_state vbucket_state_dead) "k1" 0 1
            vbucket_state_active 0))
  = ENGINE_SUCCESS.
Proof.
  split.
  - apply (getInternal_honors_states (H := KVBucketOps.example_deps)
             (KVBucketOps.example_state vbucket_state_replica) "k1" 0 1
             vbucket_state_active 4
             (Collections.example_vb 0 vbucket_state_replica 7));
      [reflexivity | discriminate | right; reflexivity].
  - rewrite (proj2 (getInternal_honors_states (H := KVBucketOps.example_deps)
                      (KVBucketOps.example_state vbucket_state_dead) "k1" 0 1
                      vbucket_state_active 0
                      (Collections.example_vb 0 vbucket_state_dead 7)
                      eq_refl) eq_refl eq_refl).
    reflexivity.
Defined.

Lemma with_meta_admission_table_witness :
  KVBucketOps.setWithMeta (H := KVBucketOps.example_deps)
    (KVBucketOps.example_state vbucket_state_replica) KVBucket.example_item
    0 1 (fun st => bool_decide (st = vbucket_state_active))
  = (ENGINE_NOT_MY_VBUCKET,
     KVBucketOps.countNotMyVBucket
       (KVBucketOps.example_state vbucket_state_replica)) /\
  KVBucketOps.setWithMeta (H := KVBucketOps.example_deps)
    (KVBucketOps.example_state vbucket_state_replica) KVBucket.example_item
    0 1 (fun _ => true)
  = (ENGINE_KEY_EEXISTS, KVBucketOps.example_state vbucket_state_replica).
Proof.
  split.
  - apply (with_meta_admission_table (H := KVBucketOps.example_deps)
             (KVBucketOps.example_state vbucket_state_replica)
             KVBucket.example_item "k1" 0 0 1
             (fun st => bool_decide (st = vbucket_state_active))
             (Collections.example_vb 0 vbucket_state_replica 7));
      [reflexivity | reflexivity | discriminate].
  - apply (with_meta_admission_table (H := KVBucketOps.example_deps)
             (KVBucketOps.example_state vbucket_state_replica)
             KVBucket.example_item "k1" 0 0 1 (fun _ => true)
             (Collections.example_vb 0 vbucket_state_replica 7));
      reflexivity.
Defined.

Lemma unlockKey_success_iff_witness :
  fst (KVBucketOps.unlockKey (H := KVBucketOps.example_deps)
         (KVBucketOps.example_state vbucket_state_active) "k1" 0 77 50 1)
  = ENGINE_SUCCESS.
Proof.
  apply (unlockKey_success_iff (H := KVBucketOps.example_deps)
           (KVBucketOps.example_state vbucket_state_active) "k1" 0 77 50 1).
  exists (Collections.example_vb 0 vbucket_state_active 7),
         KVBucketOps.example_value.
  repeat split.
Defined.

Lemma validateKey_compares_prefix_witness :
  KVBucketOps.validateKey (H := KVBucketOps.example_deps)
    (KVBucketOps.example_state vbucket_state_active) "k1" 1
    {| KVBucketOps.d_flags := 0; KVBucketOps.d_data := [Byte.x61] |}
  = None /\
  fst <$> KVBucketOps.validateKey (H := KVBucketOps.example_deps)
            (KVBucketOps.example_state vbucket_state_active) "k1" 0
            {| KVBucketOps.d_flags := 0;
               KVBucketOps.d_data := [Byte.x61; Byte.x62] |}
  = Some "valid"%string.
Proof.
  split.
  - apply (validateKey_compares_prefix (H := KVBucketOps.example_deps)
             (KVBucketOps.example_state vbucket_state_active) "k1" 1).
    reflexivity.
  - apply (proj2 (validateKey_compares_prefix (H := KVBucketOps.example_deps)
                    (KVBucketOps.example_state vbucket_state_active) "k1" 0
                    {| KVBucketOps.d_flags := 0;
                       KVBucketOps.d_data := [Byte.x61; Byte.x62] |})
             (Collections.example_vb 0 vbucket_state_active 7)
             KVBucketOps.example_value
             (Collections.example_vb 0 vbucket_state_active 7));
      try reflexivity.
    simpl. lia.
Defined.

Lemma pending_partition_handling_witness :
  KVBucketOps.evictKey (H := KVBucketOps.example_deps)
    (KVBucketOps.example_state vbucket_state_pending) "k1" 0
  = (KVBucketOps.StatusNotMyVbucket,
     KVBucketOps.example_state vbucket_state_pending) /\
  fst (KVBucketOps.getMetaData (H := KVBucketOps.example_deps)
         (KVBucketOps.example_state vbucket_state_pending) "k1" 0 1)
  = ENGINE_SUCCESS.
Proof.
  destruct (pending_partition_handling (H := KVBucketOps.example_deps)
              (KVBucketOps.example_state vbucket_state_pending) "k1" 0 1
              (Collections.example_vb 0 vbucket_state_pending 7)
              0 77 50 15 KVBucket.example_item)
    as (_ & _ & _ & Hevict & Hmeta & _); try reflexivity.
  split; [exact Hevict | rewrite Hmeta; reflexivity].
Defined.

(** ** Sending the scatter/gather list *)

Section TransmitFacts.
Import MsgList Transmit.
Context `{Transmit.Env}.

Lemma bytes_of_app (xs ys : list iovec) :
  bytes_of (xs ++ ys) = bytes_of xs + bytes_of ys.
Proof. induction xs as [| x xs IH]; simpl; [reflexivity | rewrite IH; lia]. Qed.

Lemma bytes_of_nonneg (xs : list iovec) :
  Forall (fun v => 0 < iov_len v) xs -> 0 <= bytes_of xs.
Proof. induction 1; simpl; lia. Qed.

(** The first loop takes a prefix [done] of the header's entries off and
    stops in front of an entry that is longer than what is left. *)
Lemma adjust_entries_split (es : list iovec) :
  forall (front tail : list iovec) (nbytes : Z) (p : Pipe),
    Forall (fun v => 0 < iov_len v) es -> 0 <= nbytes ->
    exists done rest nbytes' p',
      es = done ++ rest /\
      adjust_entries (length es) (front ++ es ++ tail) (length front) nbytes p
      = Some (length rest, (length front + length done)%nat, nbytes', p') /\
      nbytes' = nbytes - bytes_of done /\
      0 <= nbytes' /\
      match rest with
      | v :: _ => nbytes' < iov_len v
      | [] => True
      end.
Proof.
  induction es as [| v es IH]; intros front tail nbytes p Hpos Hn.
  - exists [], [], nbytes, p. simpl. rewrite Nat.add_0_r.
    repeat split; [lia | exact Hn].
  - simpl length. cbn [adjust_entries].
    assert (Hlook : (front ++ (v :: es) ++ tail) !! length front = Some v).
    { rewrite lookup_app_r by lia. rewrite Nat.sub_diag. reflexivity. }
    rewrite Hlook.
    destruct (Z.leb_spec (iov_len v) nbytes) as [Hle | Hgt].
    + inversion Hpos as [| v0 es0 Hv Hes]; subst.
      set (p1 := if bool_decide (rdata_data p = iov_base v)
                 then consumed p (iov_len v) else p).
      destruct (IH (front ++ [v]) tail (nbytes - iov_len v) p1 Hes)
        as (done & rest & nbytes' & p' & Hsplit & Hrun & Hn' & Hge & Hrest);
        [lia |].
      exists (v :: done), rest, nbytes', p'.
      rewrite <- app_assoc in Hrun. simpl in Hrun.
      rewrite length_app in Hrun. simpl in Hrun.
      replace (length front + 1)%nat with (S (length front)) in Hrun by lia.
      cbn [app] in Hrun |- *. rewrite Hrun.
      split; [rewrite Hsplit; reflexivity |].
      split; [f_equal; f_equal; f_equal; f_equal; simpl; lia |].
      split; [simpl; lia |]. split; [exact Hge | exact Hrest].
    + exists [], (v :: es), nbytes, p. simpl. rewrite Nat.add_0_r.
      repeat split; [lia | exact Hn | exact Hgt].
Qed.

Lemma ptr_add_0 (b : ptr) : ptr_add b 0 = b.
Proof. destruct b; simpl; rewrite ?Z.add_0_r; reflexivity. Qed.

Lemma lookup_middle (front rest : list iovec) (v : iovec) :
  (front ++ v :: rest) !! length front = Some v.
Proof. rewrite lookup_app_r by lia. rewrite Nat.sub_diag. reflexivity. Qed.

Lemma insert_middle (front rest : list iovec) (v v' : iovec) :
  <[length front := v']> (front ++ v :: rest) = front ++ v' :: rest.
Proof.
  rewrite insert_app_r_alt by lia. rewrite Nat.sub_diag. reflexivity.
Qed.

(** adjust_msghdr on an array that is cut into the entries in front of the
    header, those of the header, and those behind it. *)
Lemma adjust_msghdr_on (front es tail : list iovec) (used : nat)
    (ml : list msghdr) (cur : nat) (mb : Z) (mi : nat) (m : msghdr)
    (nbytes : Z) (p : Pipe) :
  ml !! mi = Some m ->
  msg_iov m = length front -> msg_iovlen m = length es ->
  Forall (fun v => 0 < iov_len v) es ->
  0 < nbytes ->
  let s := {| iov := front ++ es ++ tail; iovused := used; msglist := ml;
              msgcurr := cur; msgbytes := mb |} in
  (nbytes < bytes_of es ->
     exists r p' done v rest,
       es = done ++ v :: rest /\
       0 < r /\ r + bytes_of rest = bytes_of es - nbytes /\
       adjust_msghdr p s mi nbytes
       = Some (r, p',
               {| iov := front ++ done
                         ++ {| iov_base :=
                                 ptr_add (iov_base v) (iov_len v - r);
                               iov_len := r |} :: rest ++ tail;
                  iovused := used;
                  msglist := <[mi := {| msg_iov := (length front + length done)%nat;
                                        msg_iovlen := S (length rest) |}]> ml;
                  msgcurr := cur; msgbytes := mb |})) /\
  (nbytes = bytes_of es ->
     match tail with
     | [] => adjust_msghdr p s mi nbytes = None
     | v :: _ =>
         exists p',
           adjust_msghdr p s mi nbytes
           = Some (iov_len v, p',
                   {| iov := front ++ es ++ tail; iovused := used;
                      msglist := <[mi := {| msg_iov := (length front + length es)%nat;
                                            msg_iovlen := 0 |}]> ml;
                      msgcurr := cur; msgbytes := mb |})
     end).
Proof.
  intros Hm Hidx Hcount Hpos Hn. cbv zeta.
  destruct (adjust_entries_split es front tail nbytes p Hpos)
    as (done & rest & nbytes' & p' & Hsplit & Hrun & Hn' & Hge & Hrest); [lia |].
  unfold adjust_msghdr. cbn [msglist iov iovused msgcurr msgbytes].
  rewrite Hm. cbn [mbind option_bind]. rewrite Hidx, Hcount, Hrun.
  cbn [mbind option_bind].
  assert (Hbytes : bytes_of es = bytes_of done + bytes_of rest)
    by (rewrite Hsplit; apply bytes_of_app).
  assert (Hposr : Forall (fun v => 0 < iov_len v) rest)
    by (rewrite Hsplit in Hpos; apply Forall_app in Hpos; tauto).
  split.
  - intros Hlt. destruct rest as [| v rest].
    { simpl in Hbytes. lia. }
    assert (Hiov : front ++ es ++ tail
                   = (front ++ done) ++ v :: (rest ++ tail)).
    { rewrite Hsplit, <- !app_assoc. reflexivity. }
    assert (Hat : (front ++ es ++ tail) !! (length front + length done)%nat
                  = Some v).
    { rewrite Hiov, <- length_app. apply lookup_middle. }
    rewrite Hat. cbn [mbind option_bind].
    inversion Hposr as [| v0 r0 Hv Hr]; subst v0 r0.
    pose proof (bytes_of_nonneg _ Hr) as Hr0. simpl in Hbytes.
    destruct (Z.ltb_spec 0 nbytes') as [Hpart | Hwhole].
    + exists (iov_len v - nbytes'), 
             (if bool_decide (rdata_data p' = iov_base v)
              then consumed p' nbytes' else p'), done, v, rest.
      split; [exact Hsplit |]. split; [lia |]. split; [lia |].
      f_equal. f_equal.
      replace (iov_len v - (iov_len v - nbytes')) with nbytes' by lia.
      f_equal.
      rewrite Hiov, <- length_app, insert_middle, <- app_assoc. reflexivity.
    + assert (Hz : nbytes' = 0) by lia.
      exists (iov_len v), p', done, v, rest.
      split; [exact Hsplit |]. split; [exact Hv |]. split; [lia |].
      f_equal. f_equal.
      replace (iov_len v - iov_len v) with 0 by lia.
      rewrite ptr_add_0. f_equal. rewrite Hsplit, <- !app_assoc. simpl.
      destruct v as [b l]. reflexivity.
  - intros Heq. destruct rest as [| v rest].
    2: { inversion Hposr as [| v0 r0 Hv Hr]; subst v0 r0.
         pose proof (bytes_of_nonneg _ Hr) as Hr0. simpl in Hbytes. lia. }
    rewrite app_nil_r in Hsplit. subst done.
    assert (Hz : nbytes' = 0) by (simpl in Hbytes; lia).
    destruct tail as [| v tail].
    + rewrite app_nil_r. rewrite <- length_app.
      rewrite lookup_ge_None_2 by lia. reflexivity.
    + assert (Hat : (front ++ es ++ v :: tail) !! (length front + length es)%nat
                    = Some v).
      { rewrite app_assoc, <- length_app. apply lookup_middle. }
      rewrite Hat. cbn [mbind option_bind]. rewrite Hz. simpl.
      exists p'. reflexivity.
Qed.

(** X25.  adjust_msghdr after a write of nbytes out of a header whose
    entries lie in the array and are not empty.  A partial write leaves
    the header with exactly the bytes not yet written, in entries that are
    again not empty, and returns what is left of the current entry (not
    0); the other headers are untouched.  A write of everything the header
    had leaves it without entries and then returns the length of the
    array entry behind the header, which is not one of its own: the answer
    is 0 only if that entry happens to hold 0, and the read is outside the
    array when the header ends where the array ends. *)
Theorem adjust_msghdr_accounts (p : Pipe) (s : MsgList.t) (mi : nat)
    (m : msghdr) (nbytes : Z) :
  msglist s !! mi = Some m ->
  sendable s m ->
  0 < nbytes <= pending s m ->
  (nbytes < pending s m ->
     exists r p' s' m',
       adjust_msghdr p s mi nbytes = Some (r, p', s') /\
       msglist s' !! mi = Some m' /\
       sendable s' m' /\
       pending s' m' = pending s m - nbytes /\
       (0 < msg_iovlen m')%nat /\ 0 < r /\
       (forall j, j <> mi -> msglist s' !! j = msglist s !! j)) /\
  (nbytes = pending s m ->
     match iov s !! (msg_iov m + msg_iovlen m)%nat with
     | None => adjust_msghdr p s mi nbytes = None
     | Some v =>
         exists p' s' m',
           adjust_msghdr p s mi nbytes = Some (iov_len v, p', s') /\
           msglist s' !! mi = Some m' /\
           msg_iovlen m' = 0%nat /\
           iov s' = iov s
     end).
Proof.
  intros Hm [Hbound Hpos] [Hn Hle].
  destruct s as [iovs used ml cur mb]. unfold pending, sendable in *.
  cbn [iov msglist] in *.
  set (front := take (msg_iov m) iovs).
  set (es := take (msg_iovlen m) (drop (msg_iov m) iovs)) in *.
  set (tail := drop (msg_iov m + msg_iovlen m) iovs).
  assert (Hiov : iovs = front ++ es ++ tail).
  { subst front es tail. rewrite <- drop_drop.
    rewrite take_drop. rewrite take_drop. reflexivity. }
  assert (Hfront : msg_iov m = length front).
  { subst front. rewrite length_take. lia. }
  assert (Hes : msg_iovlen m = length es).
  { subst es. rewrite length_take, length_drop. lia. }
  assert (Hmi : (mi < length ml)%nat) by (eapply lookup_lt_Some; exact Hm).
  clearbody front es tail. subst iovs.
  destruct (adjust_msghdr_on front es tail used ml cur mb mi m nbytes p
              Hm Hfront Hes Hpos Hn) as [Hpartial Hall].
  split.
  - intros Hlt.
    destruct (Hpartial Hlt)
      as (r & p' & done & v & rest & Hsplit & Hr & Hsum & Hadj).
    eexists r, p', _, _. split; [exact Hadj |]. cbn [msglist iov].
    split; [apply list_lookup_insert_eq; exact Hmi |]. cbn [msg_iov msg_iovlen].
    assert (Hdrop : drop (length front + length done)
                      (front ++ done ++ {| iov_base := ptr_add (iov_base v) (iov_len v - r);
                                           iov_len := r |} :: rest ++ tail)
                    = {| iov_base := ptr_add (iov_base v) (iov_len v - r);
                         iov_len := r |} :: rest ++ tail).
    { rewrite app_assoc, <- length_app. apply drop_app_length. }
    rewrite Hdrop.
    assert (Htake : take (S (length rest))
                      ({| iov_base := ptr_add (iov_base v) (iov_len v - r);
                          iov_len := r |} :: rest ++ tail)
                    = {| iov_base := ptr_add (iov_base v) (iov_len v - r);
                         iov_len := r |} :: rest).
    { simpl. f_equal. apply take_app_length. }
    rewrite Htake.
    split.
    { split.
      - rewrite !length_app. simpl. rewrite length_app. lia.
      - constructor; [exact Hr |].
        rewrite Hsplit in Hpos. apply Forall_app in Hpos.
        destruct Hpos as [_ Hvr]. inversion Hvr; assumption. }
    split; [simpl; lia |]. split; [lia |]. split; [exact Hr |].
    intros j Hj. apply list_lookup_insert_ne. congruence.
  - intros Heq. specialize (Hall Heq).
    rewrite Hfront, Hes.
    destruct tail as [| v tail].
    + rewrite lookup_ge_None_2 by (rewrite !length_app; simpl; lia).
      exact Hall.
    + rewrite app_assoc, <- length_app, lookup_middle.
      destruct Hall as [p' Hadj].
      eexists p', _, _. rewrite <- app_assoc. split; [exact Hadj |].
      cbn [msglist iov].
      split; [apply list_lookup_insert_eq; exact Hmi |].
      split; reflexivity.
Qed.

Lemma skip_finished_spec (rest : list msghdr) (c : nat) :
  (c <= skip_finished rest c <= c + length rest)%nat /\
  (forall i m, (i < skip_finished rest c - c)%nat -> rest !! i = Some m ->
               msg_iovlen m = 0%nat) /\
  (forall m, rest !! (skip_finished rest c - c)%nat = Some m ->
             msg_iovlen m <> 0%nat).
Proof.
  revert c. induction rest as [| m0 rest IH]; intros c; simpl.
  - split; [lia |]. split; [intros i m Hi; lia | intros m; discriminate].
  - destruct (Nat.eqb_spec (msg_iovlen m0) 0) as [Hz | Hnz].
    + destruct (IH (S c)) as (Hrange & Hzero & Hstop).
      split; [lia |]. split.
      * intros i m Hi Hlook. destruct i as [| i]; simpl in Hlook.
        -- injection Hlook as <-. exact Hz.
        -- apply (Hzero i m); [lia | exact Hlook].
      * intros m Hlook.
        replace (skip_finished rest (S c) - c)%nat
          with (S (skip_finished rest (S c) - S c)) in Hlook by lia.
        simpl in Hlook. apply Hstop. exact Hlook.
    + split; [lia |]. split; [intros i m Hi; lia |].
      intros m. rewrite Nat.sub_diag. simpl. intros [= <-]. exact Hnz.
Qed.

(** adjust_msghdr answers 0 for a header of entries that are not empty
    only when it has taken every entry off the header. *)
Lemma adjust_msghdr_zero (p p' : Pipe) (s s' : MsgList.t) (mi : nat)
    (m : msghdr) (nbytes : Z) :
  msglist s !! mi = Some m ->
  sendable s m -> 0 < nbytes ->
  adjust_msghdr p s mi nbytes = Some (0, p', s') ->
  exists idx,
    msglist s' = <[mi := {| msg_iov := idx; msg_iovlen := 0 |}]> (msglist s).
Proof.
  intros Hm [Hbound Hpos] Hn.
  destruct s as [iovs used ml cur mb]. cbn [iov msglist] in *.
  set (front := take (msg_iov m) iovs).
  set (es := take (msg_iovlen m) (drop (msg_iov m) iovs)) in *.
  set (tail := drop (msg_iov m + msg_iovlen m) iovs).
  assert (Hiov : iovs = front ++ es ++ tail).
  { subst front es tail. rewrite <- drop_drop.
    rewrite take_drop. rewrite take_drop. reflexivity. }
  assert (Hfront : msg_iov m = length front).
  { subst front. rewrite length_take. lia. }
  assert (Hes : msg_iovlen m = length es).
  { subst es. rewrite length_take, length_drop. lia. }
  clearbody front es tail. subst iovs.
  destruct (adjust_entries_split es front tail nbytes p Hpos)
    as (done & rest & nbytes' & p1 & Hsplit & Hrun & Hn' & Hge & Hrest); [lia |].
  unfold adjust_msghdr. cbn [msglist iov iovused msgcurr msgbytes].
  rewrite Hm. cbn [mbind option_bind]. rewrite Hfront, Hes, Hrun.
  cbn [mbind option_bind].
  destruct rest as [| v rest].
  - destruct ((front ++ es ++ tail) !! (length front + length done)%nat)
      as [v |]; cbn [mbind option_bind]; [| discriminate].
    destruct (0 <? nbytes'); intros [= _ _ <-]; eexists; reflexivity.
  - assert (Hat : (front ++ es ++ tail) !! (length front + length done)%nat
                  = Some v).
    { rewrite Hsplit, <- !app_assoc, app_assoc, <- length_app.
      apply lookup_middle. }
    rewrite Hat. cbn [mbind option_bind].
    assert (Hv : 0 < iov_len v).
    { rewrite Hsplit in Hpos. apply Forall_app in Hpos.
      destruct Hpos as [_ Hvr]. inversion Hvr; assumption. }
    destruct (Z.ltb_spec 0 nbytes'); intros [= Hr _ _]; simpl in Hr; lia.
Qed.

Lemma sendmsg_keeps_list (s s2 : Transmit.t) (m : msghdr) (res : Z) :
  sendmsg s m = Some (res, s2) ->
  msgs s2 = msgs s /\ pipe s2 = pipe s /\ closing s2 = closing s.
Proof.
  unfold sendmsg. destruct (entries_of (msgs s) m) as [es |];
    cbn [mbind option_bind]; [| discriminate].
  destruct (ssl_isEnabled (net s)).
  - destruct (ssl_send es 0 (net s)). intros [= _ <-]. auto.
  - destruct (net_sendmsg (net s) es) as [r n'].
    destruct (0 <? r); intros [= _ <-]; auto.
Qed.

Lemma soft_or_hard_not_complete (b : bool) (s s' : Transmit.t) :
  soft_or_hard b s <> (Complete, s').
Proof.
  unfold soft_or_hard. destruct (b && ssl_hasError (net s)); [discriminate |].
  destruct (updateEvent (net s)) as [ok n']. destruct ok; discriminate.
Qed.

(** X26.  transmit answers Complete only when nothing is left to send:
    every header from the one it started at has no entry left, msgcurr is
    behind the last header, and the connection is not closed by the
    call. *)
Theorem transmit_complete_means_sent (s s' : Transmit.t) :
  Forall (sendable (msgs s))
         (drop (msgcurr (msgs s)) (msglist (msgs s))) ->
  transmit s = Some (Complete, s') ->
  Forall (fun m => msg_iovlen m = 0%nat)
         (drop (msgcurr (msgs s)) (msglist (msgs s'))) /\
  length (msglist (msgs s')) = length (msglist (msgs s)) /\
  (length (msglist (msgs s)) <= msgcurr (msgs s'))%nat /\
  closing s' = closing s.
Proof.
  intros Hsend. unfold transmit.
  set (s0 := if ssl_isEnabled (net s)
             then with_net s (ssl_drainBioSendPipe (net s)) else s).
  assert (Hs0 : msgs s0 = msgs s /\ closing s0 = closing s)
    by (subst s0; destruct (ssl_isEnabled (net s)); auto).
  destruct Hs0 as [Hmsgs0 Hclosing0].
  destruct (ssl_isEnabled (net s) && ssl_morePendingOutput (net s0)).
  { intros [= Hc]. exfalso. exact (soft_or_hard_not_complete _ _ _ Hc). }
  rewrite Hmsgs0. cbn [msgs with_msgs set_msgcurr msglist].
  set (ml := msglist (msgs s)) in *. set (c := msgcurr (msgs s)) in *.
  destruct (skip_finished_spec (drop c ml) c) as (Hrange & Hzero & Hstop).
  set (c1 := skip_finished (drop c ml) c) in *.
  rewrite length_drop in Hrange.
  assert (Hbefore : forall i m, (c <= i < c1)%nat -> ml !! i = Some m ->
                                msg_iovlen m = 0%nat).
  { intros i m Hi Hlook. apply (Hzero (i - c)%nat m); [lia |].
    rewrite lookup_drop. replace (c + (i - c))%nat with i by lia. exact Hlook. }
  destruct (ml !! c1) as [m |] eqn:Hm.
  - destruct (sendmsg _ m) as [[res s2] |] eqn:Hsendmsg;
      cbn [mbind option_bind]; [| discriminate].
    apply sendmsg_keeps_list in Hsendmsg.
    destruct Hsendmsg as (Hmsgs2 & Hpipe2 & Hclosing2).
    cbn [msgs pipe closing with_msgs] in Hmsgs2, Hpipe2, Hclosing2.
    destruct (Z.ltb_spec 0 res) as [Hres | Hres].
    2: { destruct ((res =? -1) && is_blocking (net s2)); [| discriminate].
         intros [= Hc]. exfalso. exact (soft_or_hard_not_complete _ _ _ Hc). }
    cbn [add_written msgs pipe]. rewrite Hmsgs2.
    destruct (adjust_msghdr _ _ c1 res) as [[[rest_len p'] msgs'] |] eqn:Hadj;
      cbn [mbind option_bind]; [| discriminate].
    destruct (Z.eqb_spec rest_len 0) as [-> | Hnz]; [| discriminate].
    destruct (Nat.eqb_spec (S c1) (length (msglist msgs'))) as [Hlast | Hmore];
      [| discriminate].
    match goal with
    | |- context [if ?b then _ else _] => destruct b
    end.
    { intros [= Hc]. exfalso. exact (soft_or_hard_not_complete _ _ _ Hc). }
    intros [= <-]. cbn [msgs with_msgs set_msgcurr msglist msgcurr closing].
    assert (Hsendable : sendable (set_msgcurr (msgs s) c1) m).
    { assert (Hin : drop c ml !! (c1 - c)%nat = Some m).
      { rewrite lookup_drop. replace (c + (c1 - c))%nat with c1 by lia.
        exact Hm. }
      rewrite Forall_lookup in Hsend. exact (Hsend _ _ Hin). }
    destruct (adjust_msghdr_zero (pipe s2) p' (set_msgcurr (msgs s) c1)
                msgs' c1 m res Hm Hsendable Hres Hadj)
      as [idx Hml'].
    cbn [msglist set_msgcurr] in Hml'. fold ml in Hml'.
    rewrite Hml' in Hlast |- *. rewrite length_insert in Hlast |- *.
    split.
    + apply Forall_lookup. intros i m' Hlook. rewrite lookup_drop in Hlook.
      destruct (decide (c + i = c1)%nat) as [Heq | Hne].
      * rewrite Heq in Hlook.
        rewrite list_lookup_insert_eq in Hlook by lia.
        injection Hlook as <-. reflexivity.
      * rewrite list_lookup_insert_ne in Hlook by lia.
        apply (Hbefore (c + i)%nat m'); [| exact Hlook].
        apply lookup_lt_Some in Hlook. lia.
    + split; [reflexivity |]. split; [lia |].
      cbn [closing add_written]. rewrite Hclosing2. exact Hclosing0.
  - intros [= <-]. cbn [msgs with_msgs set_msgcurr msglist msgcurr closing].
    apply lookup_ge_None_1 in Hm.
    split.
    + apply Forall_lookup. intros i m' Hlook. rewrite lookup_drop in Hlook.
      apply (Hbefore (c + i)%nat m'); [| exact Hlook].
      apply lookup_lt_Some in Hlook. unfold ml in *. lia.
    + split; [reflexivity |]. split; [exact Hm | exact Hclosing0].
Qed.

End TransmitFacts.

Lemma example_list_sendable :
  Transmit.sendable Transmit.example_list
    {| MsgList.msg_iov := 0; MsgList.msg_iovlen := 2 |}.
Proof.
  split; [simpl; lia |].
  simpl. repeat constructor.
Qed.

Lemma adjust_msghdr_accounts_witness :
  exists r p' s' m',
    Transmit.adjust_msghdr (H := Transmit.example_env) 0
      Transmit.example_list 0 10 = Some (r, p', s') /\
    MsgList.msglist s' !! 0%nat = Some m' /\
    Transmit.pending s' m' = 19.
Proof.
  destruct (adjust_msghdr_accounts (H := Transmit.example_env) 0
              Transmit.example_list 0
              {| MsgList.msg_iov := 0; MsgList.msg_iovlen := 2 |} 10
              eq_refl example_list_sendable) as [Hpartial _].
  { vm_compute. split; [reflexivity | discriminate]. }
  destruct Hpartial as (r & p' & s' & m' & Hadj & Hm' & _ & Hpending & _).
  { vm_compute. reflexivity. }
  exists r, p', s', m'. split; [exact Hadj |]. split; [exact Hm' |].
  rewrite Hpending. reflexivity.
Defined.

Lemma transmit_complete_means_sent_witness :
  exists s',
    Transmit.transmit (H := Transmit.example_env) (Transmit.example_conn 100)
    = Some (Transmit.Complete, s') /\
    Forall (fun m => MsgList.msg_iovlen m = 0%nat)
           (MsgList.msglist (Transmit.msgs s')).
Proof.
  eexists. split; [vm_compute; reflexivity |].
  apply (transmit_complete_means_sent (H := Transmit.example_env)
           (Transmit.example_conn 100)).
  - simpl. constructor; [exact example_list_sendable | constructor].
  - vm_compute. reflexivity.
Defined.

(** The example list of 29 bytes sent in writes of at most 10 bytes: two
    incomplete transmits, and every byte has been counted when the third
    gives Complete. *)
Example test_transmit_in_pieces :
  let step r := r ≫= fun '(_, s) =>
                  Transmit.transmit (H := Transmit.example_env) s in
  let r0 := Some (Transmit.Incomplete, Transmit.example_conn 10) in
  (fst <$> step r0) = Some Transmit.Incomplete /\
  (fst <$> step (step r0)) = Some Transmit.Incomplete /\
  (fst <$> step (step (step r0))) = Some Transmit.Complete /\
  (Transmit.totalSend ∘ snd <$> step (step (step r0))) = Some 29.
Proof. vm_compute. auto. Qed.

(** ** Deleting, resetting, rolling back and visiting partitions *)

Section AdminFacts.
Import VB KVBucket KVBucketAssumptions KVBucketAdmin.
Context `{KVBucketAdmin.Deps}.

(** The dropped partition has left the map, whose size stays. *)
Hypothesis dropped :
  forall (m : VBucketMap) (vbid : nat) (c : option nat),
    getBucket (dropVBucketAndSetupDeferredDeletion m vbid c) vbid = None /\
    getSize (dropVBucketAndSetupDeferredDeletion m vbid c) = getSize m.

(** X27.  deleteVBucket of a partition that is not held answers
    NOT_MY_VBUCKET without counting it and without any call.  For a held
    partition the state count is decremented and DCP is told that the
    partition is dead, in this order; the answer is EWOULDBLOCK with a
    cookie and SUCCESS without; the partition has left the map, so that a
    set addressed to it is answered with NOT_MY_VBUCKET. *)
Theorem deleteVBucket_drops (s : KVBucketAdmin.t) (vbid : nat)
    (c : option nat) :
  (getVBucket (kv s) vbid = None ->
     deleteVBucket s vbid c = (ENGINE_NOT_MY_VBUCKET, s)) /\
  (forall vb,
     getVBucket (kv s) vbid = Some vb ->
     fst (deleteVBucket s vbid c)
     = match c with
       | Some _ => ENGINE_EWOULDBLOCK
       | None => ENGINE_SUCCESS
       end /\
     calls (snd (deleteVBucket s vbid c))
     = calls s ++ [DecVBStateCount (state vb); DcpVbucketDead vbid] /\
     getVBucket (kv (snd (deleteVBucket s vbid c))) vbid = None /\
     numNotMyVBuckets (kv (snd (deleteVBucket s vbid c)))
     = numNotMyVBuckets (kv s) /\
     forall itm cookie,
       itm_vbucket itm = vbid ->
       fst (set (kv (snd (deleteVBucket s vbid c))) itm cookie)
       = ENGINE_NOT_MY_VBUCKET).
Proof.
  unfold deleteVBucket, getVBucket. split.
  - intros ->. reflexivity.
  - intros vb Hvb. rewrite Hvb. cbn [fst snd].
    split; [reflexivity |].
    split; [simpl; rewrite <- app_assoc; reflexivity |].
    assert (Hgone : forall k m, getBucket
                      (vbMap (with_vbMap k
                                (dropVBucketAndSetupDeferredDeletion m vbid c)))
                      vbid = None).
    { intros k m. simpl. apply dropped. }
    split; [apply Hgone |]. split; [reflexivity |].
    intros itm cookie Hitm. unfold set, getVBucket. rewrite Hitm.
    cbn [kv with_kv]. rewrite Hgone. reflexivity.
Qed.

Lemma resetVBucket_recreates (s : KVBucketAdmin.t) (vb : VBucket) :
  (forall vb0 mf,
     manifest_update_only vb0 (snd (Collections.updateFromManifest vb0 mf))) ->
  (forall vbid st n, id (makeVBucket vbid st n) = vbid) ->
  getVBucket (kv s) (id vb) = Some vb ->
  exists s1 newvb,
    resetVBucket_UNLOCKED s (Some vb) = Some (true, s1) /\
    getBucket (vbMap (kv s1)) (id vb) = Some newvb /\
    bucketCreation newvb = true /\
    calls s1 = calls s /\
    events (kv s1)
    = events (kv s)
      ++ [SetFreqSaturatedCallback (id vb); IncrementRevision (id vb)].
Proof.
  intros Hkeep Hmk Hvb. unfold resetVBucket_UNLOCKED.
  pose proof (getBucket_Some_lt _ _ _ Hvb) as Hlt.
  set (kv1 := with_vbMap (kv s)
                (dropVBucketAndSetupDeferredDeletion (vbMap (kv s)) (id vb) None)).
  destruct (dropped (vbMap (kv s)) (id vb) None) as [Hgone Hsize].
  destruct (setVBucketState_creation kv1 (id vb) (getState vb) JNull
              TransferNo true Hkeep (Hmk _ _ _) Hgone) as [_ Hin].
  destruct Hin as (vb' & Hok & Hget & Hcreation & _ & _ & _ & Hev).
  { subst kv1. simpl. unfold getSize in *. rewrite Hsize. exact Hlt. }
  destruct (setVBucketState_UNLOCKED kv1 (id vb) (getState vb) JNull
              TransferNo true) as [rc kv2].
  cbn [fst snd] in *. unfold getVBucket in Hget. rewrite Hget.
  eexists. eexists. split; [reflexivity |].
  pose proof (getBucket_Some_lt _ _ _ Hget) as Hlt2.
  split; [apply getBucket_putBucket_eq; exact Hlt2 |].
  split; [exact Hcreation |]. split; [reflexivity |].
  simpl. exact Hev.
Qed.

(** X28.  The status of rollback depends on the lock and on the state of
    the partition only: Reschedule when the lock could not be taken;
    otherwise Abort for a partition that is not held or that is active or
    dead, and Complete for a replica or pending partition, whatever the
    storage made of the rollback (a failed one, one to seqno 0 and a
    request for seqno 0 reset the partition instead, and resetting cannot
    fail).  Every Complete ends with the DCP streams of the partition
    being closed; without Complete nothing changes.  A dropped partition
    is assumed to leave the map, makeVBucket to give the id asked for,
    updateFromManifest to change collections data only. *)
Theorem rollback_status (s : KVBucketAdmin.t) (vbid : nat)
    (rollbackSeqno : Z) (owns_lock : bool) :
  (forall vb0 mf,
     manifest_update_only vb0 (snd (Collections.updateFromManifest vb0 mf))) ->
  (forall v st n, id (makeVBucket v st n) = v) ->
  (forall vb, getVBucket (kv s) vbid = Some vb -> id vb = vbid) ->
  exists s',
    rollback s vbid rollbackSeqno owns_lock
    = Some (if negb owns_lock then Reschedule
            else match getVBucket (kv s) vbid with
                 | Some vb =>
                     if bool_decide (state vb = vbucket_state_replica)
                        || bool_decide (state vb = vbucket_state_pending)
                     then Complete else Abort
                 | None => Abort
                 end, s') /\
    (rollback s vbid rollbackSeqno owns_lock = Some (Complete, s') ->
     last (calls s') = Some (CloseStreamsDueToRollback vbid)) /\
    (forall st, rollback s vbid rollbackSeqno owns_lock = Some (st, s') ->
                st <> Complete -> s' = s).
Proof.
  intros Hkeep Hmk Hid. unfold rollback, getVBucket in *.
  destruct owns_lock; simpl.
  2: { exists s. split; [reflexivity |].
       split; [discriminate | intros st [= _]; reflexivity]. }
  destruct (getBucket (vbMap (kv s)) vbid) as [vb |] eqn:Hvb.
  2: { exists s. split; [reflexivity |].
       split; [discriminate | intros st [= _]; reflexivity]. }
  unfold getState.
  destruct (bool_decide (state vb = vbucket_state_replica)
            || bool_decide (state vb = vbucket_state_pending)).
  2: { exists s. split; [reflexivity |].
       split; [discriminate | intros st [= _]; reflexivity]. }
  specialize (Hid vb eq_refl).
  assert (Hreset : exists s',
    ('(ok, s1) ← resetVBucket_UNLOCKED s (Some vb);
     if ok : bool then
       newVb ← getBucket (vbMap (kv s1)) vbid;
       Some (Complete,
             call (put s1 vbid
                       (incrRollbackItemCount newVb
                          (getHighSeqno (checkpointManager vb))))
                  (CloseStreamsDueToRollback vbid))
     else Some (Abort, s1)) = Some (Complete, s')
    /\ last (calls s') = Some (CloseStreamsDueToRollback vbid)).
  { destruct (resetVBucket_recreates s vb Hkeep Hmk)
      as (s1 & newvb & Hres & Hget & _); [rewrite Hid; exact Hvb |].
    rewrite Hres. cbn [mbind option_bind]. rewrite Hid in Hget.
    rewrite Hget. cbn [mbind option_bind].
    eexists. split; [reflexivity |]. simpl. apply last_snoc. }
  assert (Hdone : forall r : option (TaskStatus * KVBucketAdmin.t),
    (exists s', r = Some (Complete, s')
                /\ last (calls s') = Some (CloseStreamsDueToRollback vbid)) ->
    exists s',
      r = Some (Complete, s') /\
      (r = Some (Complete, s') ->
       last (calls s') = Some (CloseStreamsDueToRollback vbid)) /\
      (forall st, r = Some (st, s') -> st <> Complete -> s' = s)).
  { intros r (s' & -> & Hlast). exists s'. split; [reflexivity |].
    split; [intros _; exact Hlast |].
    intros st [= <-] Hne. contradiction. }
  apply Hdone.
  destruct (negb (rollbackSeqno =? 0)); [| exact Hreset].
  destruct (success (doRollback vbid rollbackSeqno)
            && (0 <? highSeqno (doRollback vbid rollbackSeqno)));
    [| exact Hreset].
  eexists. split; [reflexivity |]. simpl. apply last_snoc.
Qed.

End AdminFacts.

Section VisitFacts.
Import VB KVBucket KVBucketAdmin.
Context {V : Type} `{KVBucketAdmin.Visitor V}.

Lemma visit_from_spec (slots : list (option VBucket)) :
  forall (vbid : nat) (v : V),
    let r := visit_from slots vbid v in
    (vbid <= fst (fst r) <= vbid + length slots)%nat /\
    length (snd r) = length slots /\
    ((fst (fst r) < vbid + length slots)%nat ->
       is_Some (mjoin (slots !! (fst (fst r) - vbid)%nat))) /\
    (forall i, (fst (fst r) - vbid < i)%nat -> snd r !! i = slots !! i) /\
    ((forall v0 vb0, fst (fst (visit v0 vb0)) = true) ->
       fst (fst r) = (vbid + length slots)%nat).
Proof.
  induction slots as [| slot rest IH]; intros vbid v; cbv zeta.
  - simpl. split; [lia |]. split; [reflexivity |].
    split; [lia |]. split; [reflexivity | intros _; lia].
  - cbn [visit_from].
    destruct slot as [vb |].
    + destruct (visit v vb) as [[continue v'] vb'] eqn:Hvisit.
      destruct continue; cbn [negb].
      * specialize (IH (S vbid) v'). cbv zeta in IH.
        destruct (visit_from rest (S vbid) v') as [[pos v''] rest'].
        cbn [fst snd length] in *.
        destruct IH as (Hrange & Hlen & Hheld & Hafter & Hall).
        split; [lia |]. split; [rewrite Hlen; reflexivity |].
        split.
        { intros Hlt.
          replace (pos - vbid)%nat with (S (pos - S vbid)) by lia.
          simpl. apply Hheld. lia. }
        split.
        { intros i Hi. destruct i as [| i]; [lia |]. simpl.
          apply Hafter. lia. }
        intros Hnever. rewrite (Hall Hnever). lia.
      * cbn [fst snd length]. split; [lia |]. split; [reflexivity |].
        split.
        { intros _. rewrite Nat.sub_diag. simpl. eauto. }
        split.
        { intros i Hi. destruct i as [| i]; [lia | reflexivity]. }
        intros Hnever. specialize (Hnever v vb). rewrite Hvisit in Hnever.
        discriminate.
    + specialize (IH (S vbid) v). cbv zeta in IH.
      destruct (visit_from rest (S vbid) v) as [[pos v''] rest'].
      cbn [fst snd length] in *.
      destruct IH as (Hrange & Hlen & Hheld & Hafter & Hall).
      split; [lia |]. split; [rewrite Hlen; reflexivity |].
      split.
      { intros Hlt.
        replace (pos - vbid)%nat with (S (pos - S vbid)) by lia.
        simpl. apply Hheld. lia. }
      split.
      { intros i Hi. destruct i as [| i]; [lia |]. simpl.
        apply Hafter. lia. }
      intros Hnever. rewrite (Hall Hnever). lia.
Qed.

(** X29.  pauseResumeVisit from a start position inside the map returns a
    position between the start and the end position; a position before the
    end is the one of a held partition, the one whose visit asked to
    pause; the partitions before the start and behind the returned
    position are as they were and the map keeps its size; a visitor that
    never pauses ends at the end position.  A start behind the end is
    returned as it is, without a visit. *)
Theorem pauseResumeVisit_position (m : VBucketMap) (v : V) (start_pos : nat) :
  let r := pauseResumeVisit m v start_pos in
  ((start_pos <= getSize m)%nat ->
     (start_pos <= fst (fst r) <= endPosition m)%nat /\
     getSize (snd r) = getSize m /\
     ((fst (fst r) < endPosition m)%nat ->
        is_Some (getBucket m (fst (fst r)))) /\
     (forall i, (i < start_pos \/ fst (fst r) < i)%nat ->
                getBucket (snd r) i = getBucket m i) /\
     ((forall v0 vb0, fst (fst (visit v0 vb0)) = true) ->
        fst (fst r) = endPosition m)) /\
  ((getSize m < start_pos)%nat -> r = (start_pos, v, m)).
Proof.
  cbv zeta. unfold pauseResumeVisit, endPosition, getSize, getBucket,
    VBucketMap in *.
  split.
  - intros Hstart.
    pose proof (visit_from_spec (drop start_pos m) start_pos v) as Hspec.
    cbv zeta in Hspec.
    destruct (visit_from (drop start_pos m) start_pos v) as [[pos v'] rest'].
    cbn [fst snd] in *. rewrite length_drop in Hspec.
    destruct Hspec as (Hrange & Hlen & Hheld & Hafter & Hall).
    split; [lia |].
    split; [rewrite length_app, length_take, Hlen; lia |].
    split.
    { intros Hlt. rewrite lookup_drop in Hheld.
      replace (start_pos + (pos - start_pos))%nat with pos in Hheld by lia.
      apply Hheld. lia. }
    split.
    { intros i [Hi | Hi].
      - rewrite lookup_app_l by (rewrite length_take; lia).
        rewrite lookup_take_lt by lia. reflexivity.
      - rewrite lookup_app_r by (rewrite length_take; lia).
        rewrite length_take.
        replace (i - start_pos `min` length m)%nat with (i - start_pos)%nat
          by lia.
        rewrite Hafter by lia. rewrite lookup_drop.
        replace (start_pos + (i - start_pos))%nat with i by lia.
        reflexivity. }
    intros Hnever. rewrite (Hall Hnever). lia.
  - intros Hbehind. rewrite drop_ge by lia. simpl.
    rewrite take_ge by lia. rewrite app_nil_r. reflexivity.
Qed.

Lemma held_putBucket (m : VBucketMap) (front : nat) (vb' : VBucket)
    (ids : list nat) :
  is_Some (getBucket m front) ->
  held (putBucket m front vb') ids = held m ids.
Proof.
  intros [vb Hvb]. unfold held. apply List.filter_ext. intros i.
  destruct (decide (front = i)) as [<- | Hne].
  - rewrite getBucket_putBucket_eq by (eapply getBucket_Some_lt; exact Hvb).
    rewrite Hvb. rewrite !bool_decide_eq_true_2 by eauto. reflexivity.
  - rewrite getBucket_putBucket_ne by exact Hne. reflexivity.
Qed.

(** One run of the adaptor with a visitor that does not ask to pause: the
    front of the list is visited if the map holds it and leaves the list;
    the run calls complete and does not ask to be run again exactly when
    the list is empty after it. *)
Lemma run_front (a : VBCBAdaptor) (m : VBucketMap) (front : nat)
    (queue : list nat) :
  (forall v0, fst (pauseVisitor v0) = false) ->
  vbList a = front :: queue ->
  exists a1 m1,
    vbList a1 = queue /\
    steps a1 = steps a ++ map VisitBucket (held m [front]) /\
    getSize m1 = getSize m /\
    (forall ids, held m1 ids = held m ids) /\
    run a m
    = (negb (bool_decide (queue = [])),
       (if bool_decide (queue = [])
        then {| visitor := complete (visitor a1); vbList := vbList a1;
                currentvb := currentvb a1;
                steps := steps a1 ++ [CompleteCall] |}
        else a1), m1).
Proof.
  intros Hnever Hids. unfold run. rewrite Hids. cbv zeta.
  destruct (getBucket m front) as [vb |] eqn:Hvb.
  - cbn [visitor].
    destruct (pauseVisitor (visitor a)) as [pause v1] eqn:Hpause.
    pose proof (Hnever (visitor a)) as Hp. rewrite Hpause in Hp.
    simpl in Hp. subst pause.
    destruct (visitBucket v1 vb) as [v2 vb'] eqn:Hvisit.
    exists {| visitor := v2; vbList := queue; currentvb := front;
              steps := steps a ++ [VisitBucket front] |},
           (putBucket m front vb').
    split; [reflexivity |]. split.
    { unfold held. simpl. rewrite Hvb.
      rewrite bool_decide_eq_true_2 by eauto. reflexivity. }
    split.
    { unfold getSize, putBucket, VBucketMap in *. apply length_insert. }
    split; [intros ids; apply held_putBucket; eauto |].
    reflexivity.
  - exists {| visitor := visitor a; vbList := queue; currentvb := front;
              steps := steps a |}, m.
    split; [reflexivity |]. split.
    { unfold held. simpl. rewrite Hvb.
      rewrite bool_decide_eq_false_2 by (intros [? ?]; discriminate).
      simpl. rewrite app_nil_r. reflexivity. }
    split; [reflexivity |]. split; reflexivity.
Qed.

(** X30.  The adaptor's task with a visitor that never asks to pause, run
    for as long as it asks to be run again: it takes exactly one run per
    listed partition (one run for an empty list), so it still asks to be
    run after any smaller number of runs and complete is called in the run
    that takes the last partition off the list, not in a run of its own;
    it has then visited exactly the listed partitions that the map holds,
    each once and in the order of the list, and has called complete once,
    as its last step. *)
Theorem run_task_visits_in_order (a : VBCBAdaptor) (m : VBucketMap)
    (fuel : nat) :
  (forall v0, fst (pauseVisitor v0) = false) ->
  let runs := Nat.max 1 (length (vbList a)) in
  ((fuel < runs)%nat -> run_task fuel a m = None) /\
  ((runs <= fuel)%nat ->
   exists a' m',
     run_task fuel a m = Some (runs, a', m') /\
     vbList a' = [] /\
     steps a'
     = steps a ++ map VisitBucket (held m (vbList a)) ++ [CompleteCall] /\
     getSize m' = getSize m).
Proof.
  intros Hnever. cbv zeta. remember (vbList a) as ids eqn:Hids.
  revert a m fuel Hids.
  induction ids as [| front queue IH]; intros a m fuel Hids.
  - cbn [length Nat.max]. split.
    + intros Hfuel. assert (fuel = 0%nat) as -> by lia. reflexivity.
    + intros Hfuel. destruct fuel as [| fuel]; [lia |].
      cbn [run_task]. unfold run. rewrite <- Hids. simpl.
      eexists. eexists. split; [reflexivity |]. simpl.
      split; [first [reflexivity | symmetry; exact Hids] |].
      split; reflexivity.
  - destruct (run_front a m front queue Hnever (eq_sym Hids))
      as (a1 & m1 & Hq & Hsteps & Hsize & Hheld & Hrun).
    replace (Nat.max 1 (length (front :: queue))) with (S (length queue))
      by (simpl; lia).
    assert (Hcons : held m (front :: queue) = held m [front] ++ held m queue).
    { unfold held. simpl.
      destruct (bool_decide (is_Some (getBucket m front))); reflexivity. }
    destruct queue as [| q queue'].
    + (* the last partition of the list *)
      rewrite bool_decide_eq_true_2 in Hrun by reflexivity.
      cbn [negb length] in *. split.
      * intros Hfuel. assert (fuel = 0%nat) as -> by lia. reflexivity.
      * intros Hfuel. destruct fuel as [| fuel]; [lia |].
        cbn [run_task]. rewrite Hrun.
        eexists. eexists. split; [reflexivity |]. cbn [vbList steps].
        split; [exact Hq |]. split; [| exact Hsize].
        rewrite Hsteps, Hcons. unfold held at 3. simpl.
        rewrite app_nil_r, <- app_assoc. reflexivity.
    + rewrite bool_decide_eq_false_2 in Hrun by discriminate.
      cbn [negb] in Hrun.
      destruct (IH a1 m1 (pred fuel) (eq_sym Hq)) as [Hless Henough].
      replace (Nat.max 1 (length (q :: queue'))) with (S (length queue'))
        in Hless, Henough by (simpl; lia).
      cbn [length]. split.
      * intros Hfuel. destruct fuel as [| fuel]; [reflexivity |].
        cbn [run_task]. rewrite Hrun. cbn [pred] in Hless.
        rewrite Hless by lia. reflexivity.
      * intros Hfuel. destruct fuel as [| fuel]; [lia |].
        cbn [run_task]. rewrite Hrun. cbn [pred] in Henough.
        destruct Henough as (a' & m' & Htask & Hnil & Hst & Hsz); [lia |].
        rewrite Htask. exists a', m'.
        split; [reflexivity |]. split; [exact Hnil |].
        split; [| rewrite Hsz; exact Hsize].
        rewrite Hst, Hsteps, Hheld, Hcons, map_app, <- !app_assoc.
        reflexivity.
Qed.

End VisitFacts.

Lemma example_dropped (m : VB.VBucketMap) (vbid : nat) (c : option nat) :
  VB.getBucket
    (KVBucketAdmin.dropVBucketAndSetupDeferredDeletion
       (Deps := KVBucketAdmin.example_deps) m vbid c) vbid = None /\
  VB.getSize
    (KVBucketAdmin.dropVBucketAndSetupDeferredDeletion
       (Deps := KVBucketAdmin.example_deps) m vbid c) = VB.getSize m.
Proof.
  simpl. unfold VB.getBucket, VB.getSize, VB.VBucketMap in *.
  destruct (Nat.ltb_spec vbid (length m)) as [Hlt | Hge].
  - rewrite list_lookup_insert_eq by exact Hlt.
    split; [reflexivity | apply length_insert].
  - rewrite lookup_ge_None_2 by exact Hge. split; reflexivity.
Qed.

Lemma deleteVBucket_drops_witness :
  fst (KVBucketAdmin.deleteVBucket (H := KVBucketAdmin.example_deps)
         (KVBucketAdmin.example_state vbucket_state_active) 0 (Some 5%nat))
  = ENGINE_EWOULDBLOCK /\
  KVBucketAdmin.deleteVBucket (H := KVBucketAdmin.example_deps)
    (KVBucketAdmin.example_state vbucket_state_active) 1 None
  = (ENGINE_NOT_MY_VBUCKET, KVBucketAdmin.example_state vbucket_state_active).
Proof.
  split.
  - apply (proj2 (deleteVBucket_drops (H := KVBucketAdmin.example_deps)
                    example_dropped
                    (KVBucketAdmin.example_state vbucket_state_active) 0
                    (Some 5%nat))
             (Collections.example_vb 0 vbucket_state_active 7)).
    reflexivity.
  - apply (deleteVBucket_drops (H := KVBucketAdmin.example_deps)
             example_dropped
             (KVBucketAdmin.example_state vbucket_state_active) 1 None).
    reflexivity.
Defined.

Lemma rollback_status_witness :
  exists s',
    KVBucketAdmin.rollback (H := KVBucketAdmin.example_deps)
      (KVBucketAdmin.example_state vbucket_state_replica) 0 0 true
    = Some (KVBucketAdmin.Complete, s').
Proof.
  destruct (rollback_status (H := KVBucketAdmin.example_deps) example_dropped
              (KVBucketAdmin.example_state vbucket_state_replica) 0 0 true
              example_updateFromManifest_only)
    as (s' & Hrun & _).
  - reflexivity.
  - intros vb [= <-]. reflexivity.
  - exists s'. exact Hrun.
Defined.

Lemma pauseResumeVisit_position_witness :
  fst (fst (KVBucketAdmin.pauseResumeVisit
              (H := KVBucketAdmin.counting_visitor)
              KVBucketAdmin.example_map 0%nat 0%nat)) = 2%nat /\
  is_Some (VB.getBucket KVBucketAdmin.example_map 2).
Proof.
  split; [reflexivity |].
  apply (proj1 (pauseResumeVisit_position
                  (H := KVBucketAdmin.counting_visitor)
                  KVBucketAdmin.example_map 0%nat 0%nat));
    simpl; lia.
Defined.

Lemma run_task_visits_in_order_witness :
  KVBucketAdmin.run_task (H := KVBucketAdmin.counting_visitor) 2
    KVBucketAdmin.example_adaptor KVBucketAdmin.example_map = None /\
  exists a' m',
    KVBucketAdmin.run_task (H := KVBucketAdmin.counting_visitor) 3
      KVBucketAdmin.example_adaptor KVBucketAdmin.example_map
    = Some (3%nat, a', m') /\
    KVBucketAdmin.steps a'
    = [ KVBucketAdmin.VisitBucket 0; KVBucketAdmin.VisitBucket 3;
        KVBucketAdmin.CompleteCall ].
Proof.
  split.
  - apply (run_task_visits_in_order (H := KVBucketAdmin.counting_visitor)
             KVBucketAdmin.example_adaptor KVBucketAdmin.example_map 2);
      [reflexivity | simpl; lia].
  - destruct (run_task_visits_in_order (H := KVBucketAdmin.counting_visitor)
                KVBucketAdmin.example_adaptor KVBucketAdmin.example_map 3)
      as [_ Hruns]; [reflexivity |].
    destruct Hruns as (a' & m' & Hrun & _ & Hsteps & _); [simpl; lia |].
    exists a', m'. split; [exact Hrun | exact Hsteps].
Defined.
